(** * pixel-forge: the batched 2D sprite render pass

    A shallow embedding of
    [packages/pixel-forge/src/renderer/pipeline/2d-pixel/pipeline.ts]
    (the [pipeline] function and the [RenderPass] closure it returns, in
    the version that writes 8 floats per vertex and knows rotation, frame
    and alpha), followed by the properties of the batcher, the vertex
    writer, the bind-group cache and the vertex-buffer pool.

    JavaScript numbers are kept behind a small interface, [JsNumber]: the
    render pass only adds, multiplies and divides sprite fields, tests
    [sprite.rotation] for truthiness and stores the results in a
    [Float32Array].  Two instances are given: IEEE 754 binary64, the
    arithmetic of the program, and exact real arithmetic, which is not the
    arithmetic of the program and serves only to say what the formula of
    the rotation gives when nothing is rounded.

    The earlier version of [pipeline.ts], the release-notes tool
    [tools/extract-release-notes.ts] and the camera
    [packages/engine/src/renderer/camera/camera.ts] follow. *)

From Stdlib Require Import ZArith List Bool Reals Lra Lia.
From Stdlib Require Import Floats.SpecFloat.
From stdpp Require Import base option list strings gmap.

Set Default Proof Using "Type".

(** ** JavaScript numbers *)

Class JsNumber := {
  num : Type;
  zero : num;
  one : num;
  add : num -> num -> num;
  sub : num -> num -> num;
  mul : num -> num -> num;
  div : num -> num -> num;
  (** [ToBoolean] on a number, as in [if (sprite.rotation)]. *)
  truthy : num -> bool;
  (** The conversion done by a store into a [Float32Array]. *)
  fround : num -> num;
  truthy_zero : truthy zero = false
}.

Declare Scope js_scope.
Delimit Scope js_scope with js.
Infix "+" := add : js_scope.
Infix "-" := sub : js_scope.
Infix "*" := mul : js_scope.
Infix "/" := div : js_scope.

(** [type Vec2 = [number, number]] *)
Definition Vec2 `{JsNumber} : Type := (num * num)%type.

(** *** IEEE 754 binary64 *)

Module Binary64.

Definition prec : Z := 53.
Definition emax : Z := 1024.

Definition b64_zero : spec_float := S754_zero false.
Definition b64_one : spec_float := S754_finite false 4503599627370496 (-52).

(** [ToBoolean]: [+0], [-0] and [NaN] are falsy, every other number is
    truthy. *)
Definition b64_truthy (x : spec_float) : bool :=
  match x with
  | S754_zero _ | S754_nan => false
  | _ => true
  end.

(** Rounding to binary32 (round to nearest, ties to even), the result
    written again as a binary64 value. *)
Definition b64_fround (x : spec_float) : spec_float :=
  match x with
  | S754_finite s m e =>
      match binary_round 24 128 s m e with
      | S754_finite s' m' e' => binary_round prec emax s' m' e'
      | y => y
      end
  | _ => x
  end.

(** Numbers that can be the pixel size of a texture: finite and
    positive. *)
Definition finite_pos (x : spec_float) : Prop :=
  exists m e, x = S754_finite false m e.

#[export] Instance binary64 : JsNumber := {|
  num := spec_float;
  zero := b64_zero;
  one := b64_one;
  add := SFadd prec emax;
  sub := SFsub prec emax;
  mul := SFmul prec emax;
  div := SFdiv prec emax;
  truthy := b64_truthy;
  fround := b64_fround;
  truthy_zero := eq_refl
|}.

(** The number of a small integer, for examples. *)
Definition of_Z (z : Z) : spec_float := binary_normalize prec emax z 0 false.

End Binary64.

(** *** Exact real arithmetic *)

Module ExactReal.

Definition real_truthy (x : R) : bool :=
  if Req_dec_T x 0%R then false else true.

(** Exact arithmetic is not what the program computes with: a store
    into a [Float32Array] rounds, and here every real is kept as it is.
    The instance is used for one statement only, about the corners that
    the formula of the rotation gives before anything is stored. *)
#[export] Instance exact_real : JsNumber.
Proof.
  refine {| num := R;
            zero := 0%R;
            one := 1%R;
            add := Rplus;
            sub := Rminus;
            mul := Rmult;
            div := Rdiv;
            truthy := real_truthy;
            fround := fun x => x;
            truthy_zero := _ |}.
  unfold real_truthy. destruct (Req_dec_T 0 0); congruence.
Defined.

(** Modelled from the spec: [rotate] of [math/vec2], which is not among
    the sources.  The spec (4.2) says that the rotation "uses standard
    2D rotation matrix around the pivot": the point is moved so that the
    pivot is the origin, turned by the angle, and moved back. *)
Definition rotate (v origin : @Vec2 exact_real) (angle : R)
    : @Vec2 exact_real :=
  let dx := (v.1 - origin.1)%R in
  let dy := (v.2 - origin.2)%R in
  ((dx * cos angle - dy * sin angle + origin.1)%R,
   (dx * sin angle + dy * cos angle + origin.2)%R).

End ExactReal.

(** ** Data model *)

(** A [GPUTexture] object: its identity and its pixel size.  A JavaScript
    [Map] keyed by texture objects compares keys by identity, so the maps
    below are keyed by [Texture.id]. *)
Module Texture.
Record t `{JsNumber} := { id : positive; width : num; height : num }.
End Texture.

Module Rect.
Record t `{JsNumber} := { x : num; y : num; width : num; height : num }.
End Rect.

(** Modelled from the spec: the type [Sprite] of [sprite/sprite.ts], which
    is not among the sources.  The spec (3) lists a texture reference, a
    position, a size, a source frame, a rotation about a normalized origin,
    a color and an alpha; these are the fields that the render pass reads,
    under the names it reads them by. *)
Module Sprite.
Record t `{JsNumber} := {
  texture : Texture.t;
  x : num;
  y : num;
  width : num;
  height : num;
  rotation : num;
  origin : Vec2;
  frame : Rect.t;
  color : num * num * num;
  alpha : num
}.
End Sprite.

(** [type Batch = { instances; vertices: Float32Array; texture }] *)
Module Batch.
Record t `{JsNumber} := {
  instances : N;
  vertices : list num;
  texture : Texture.t
}.
End Batch.

(** Modelled from the spec: [vertexBufferAllocator] of
    [buffer/vertex-buffer-allocator], which is not among the sources, is one
    of the "leaf utilities that create GPU-resident vertex/index/uniform
    buffers from typed arrays" (2): each call gives a buffer that did not
    exist before.  A buffer is named by its rank among the vertex buffers
    created. *)
Definition GPUBuffer : Type := nat.

(** A bind group is either the one made once for the projection-view
    matrix, or one made by [device.createBindGroup] for the view of a
    texture; [bg_serial] tells apart two objects created for one texture. *)
Inductive GPUBindGroup :=
| projectionViewMatrixBindGroup
| TextureBindGroup (bg_serial : nat) (bg_texture : positive).

#[global] Instance GPUBindGroup_eq_dec : EqDecision GPUBindGroup.
Proof. solve_decision. Defined.

(** What [createView] is called on: the texture of a sprite, or the
    texture that [context.getCurrentTexture()] has returned. *)
Inductive GPUTextureRef :=
| TextureOf (id : positive)
| CurrentTexture.

(** The calls the render pass makes on the device, the queue, the canvas
    context, the textures, the command encoder and the pass encoder, in
    the order it makes them.  [createBuffer] is a call of
    [vertexBufferAlloc], [endPass] is [passEncoder.end()]. *)
Inductive GPUCommand `{JsNumber} :=
| createView (texture : GPUTextureRef)
| createBindGroup (g : GPUBindGroup)
| createBuffer (b : GPUBuffer)
| getCurrentTexture
| createCommandEncoder
| beginRenderPass
| writeBuffer (b : GPUBuffer) (data : list num)
| setPipeline
| setIndexBuffer
| setVertexBuffer (slot : nat) (b : GPUBuffer)
| setBindGroup (index : nat) (g : GPUBindGroup)
| drawIndexed (indexCount : N)
| endPass
| finish
| submit.

Inductive Completion :=
| Normal
| Throw (message : string).

(** A JavaScript [Map]: iteration follows insertion order, [set] on a key
    that is present replaces the value where it stands. *)
Module JsMap.
Section JsMap.
Context {V : Type}.

Definition t : Type := list (positive * V).

Fixpoint get (m : t) (k : positive) : option V :=
  match m with
  | [] => None
  | (k', v) :: m' => if decide (k' = k) then Some v else get m' k
  end.

Fixpoint set (m : t) (k : positive) (v : V) : t :=
  match m with
  | [] => [(k, v)]
  | (k', v') :: m' =>
      if decide (k' = k) then (k, v) :: m' else (k', v') :: set m' k v
  end.

Definition keys (m : t) : list positive := map fst m.
Definition values (m : t) : list V := map snd m.
End JsMap.
Arguments t : clear implicits.
End JsMap.

(** [for (const a of l) body]: the body runs on each element in turn and
    the loop is left at the first throw. *)
Fixpoint for_of {A S : Type} (body : S -> A -> Completion * S)
    (l : list A) (s : S) : Completion * S :=
  match l with
  | [] => (Normal, s)
  | a :: l' =>
      match body s a with
      | (Normal, s') => for_of body l' s'
      | (Throw e, s') => (Throw e, s')
      end
  end.

(** [Array.prototype.pop] and [push]. *)
Definition array_pop {A : Type} (l : list A) : option A * list A :=
  match last l with
  | Some a => (Some a, removelast l)
  | None => (None, l)
  end.

Definition array_push {A : Type} (l : list A) (a : A) : list A := l ++ [a].

(** ** The render pass *)

Definition MAX_SPRITES_PER_BATCH : N := 10000.
Definition INDICES_PER_SPRITE : N := 6.
Definition FLOATS_PER_VERTEX : N := 8.
Definition FLOATS_PER_SPRITE : N := 4 * FLOATS_PER_VERTEX.

Section Pipeline.
Context {number : JsNumber}.

(** [rotate(point, origin, angle)] of [math/vec2], which is not among
    the sources: a parameter of the render pass, taken to return a new
    point and to leave the arrays it is given as they are. *)
Variable rotate : Vec2 -> Vec2 -> num -> Vec2.

Local Open Scope js_scope.

(** What the closure returned by [pipeline] keeps between calls: the
    pool [vertexBuffers], the cache [textureBindGroups], and how many
    vertex buffers and texture bind groups have been created so far (a
    new object is named by the next number). *)
Record Pipeline := {
  vertexBuffers : list GPUBuffer;
  textureBindGroups : gmap positive GPUBindGroup;
  vertexBufferCount : nat;
  bindGroupCount : nat
}.

(** The state right after [pipeline(...)] has run: one vertex buffer in
    the pool, an empty cache. *)
Definition pipeline : Pipeline := {|
  vertexBuffers := [0%nat];
  textureBindGroups := ∅;
  vertexBufferCount := 1;
  bindGroupCount := 0
|}.

(** *** Vertex writer *)

(** The four corners, in the order top left, top right, bottom right,
    bottom left. *)
Definition corners (sprite : Sprite.t) : Vec2 * Vec2 * Vec2 * Vec2 :=
  let topLeft : Vec2 := (Sprite.x sprite, Sprite.y sprite) in
  let topRight : Vec2 :=
    (Sprite.x sprite + Sprite.width sprite, Sprite.y sprite) in
  let bottomRight : Vec2 :=
    (Sprite.x sprite + Sprite.width sprite,
     Sprite.y sprite + Sprite.height sprite) in
  let bottomLeft : Vec2 :=
    (Sprite.x sprite, Sprite.y sprite + Sprite.height sprite) in
  if truthy (Sprite.rotation sprite) then
    let origin : Vec2 :=
      (Sprite.x sprite + (Sprite.origin sprite).1 * Sprite.width sprite,
       Sprite.y sprite + (Sprite.origin sprite).2 * Sprite.height sprite) in
    (rotate topLeft origin (Sprite.rotation sprite),
     rotate topRight origin (Sprite.rotation sprite),
     rotate bottomRight origin (Sprite.rotation sprite),
     rotate bottomLeft origin (Sprite.rotation sprite))
  else (topLeft, topRight, bottomRight, bottomLeft).

Definition uv (sprite : Sprite.t) : Vec2 * Vec2 :=
  let frame := Sprite.frame sprite in
  let texture := Sprite.texture sprite in
  let u : Vec2 :=
    (Rect.x frame / Texture.width texture,
     (Rect.x frame + Rect.width frame) / Texture.width texture) in
  let v : Vec2 :=
    (Rect.y frame / Texture.height texture,
     (Rect.y frame + Rect.height frame) / Texture.height texture) in
  (u, v).

(** The 32 assignments [batch.vertices[k + i] = value], as pairs
    [(k, value)] in the order of the source. *)
Definition vertex_writes (sprite : Sprite.t) : list (N * num) :=
  let '(topLeft, topRight, bottomRight, bottomLeft) := corners sprite in
  let '(u, v) := uv sprite in
  let '(r, g, b) := Sprite.color sprite in
  let a := Sprite.alpha sprite in
  [ (* top left *)
    (0, topLeft.1); (1, topLeft.2); (2, u.1); (3, v.1);
    (4, r); (5, g); (6, b); (7, a);
    (* top right *)
    (8, topRight.1); (9, topRight.2); (10, u.2); (11, v.1);
    (12, r); (13, g); (14, b); (15, a);
    (* bottom right *)
    (16, bottomRight.1); (17, bottomRight.2); (18, u.2); (19, v.2);
    (20, r); (21, g); (22, b); (23, a);
    (* bottom left *)
    (24, bottomLeft.1); (25, bottomLeft.2); (26, u.1); (27, v.2);
    (28, r); (29, g); (30, b); (31, a) ]%N.

(** One store [vertices[index] = value] into a [Float32Array]: the value
    is rounded to single precision, and a store past the end of the
    array does nothing. *)
Definition store (vertices : list num) (index : N) (value : num)
    : list num :=
  <[N.to_nat index := fround value]> vertices.

(** The vertex writes of one sprite, followed by [batch.instances++]. *)
Definition write_sprite (batch : Batch.t) (sprite : Sprite.t) : Batch.t :=
  let i := (Batch.instances batch * FLOATS_PER_SPRITE)%N in
  {| Batch.instances := Batch.instances batch + 1;
     Batch.vertices :=
       fold_left (fun vertices w => store vertices (w.1 + i)%N w.2)
         (vertex_writes sprite) (Batch.vertices batch);
     Batch.texture := Batch.texture batch |}.

(** *** Batcher *)

(** [new Float32Array(MAX_SPRITES_PER_BATCH * FLOATS_PER_SPRITE)] *)
Definition new_vertices : list num :=
  replicate (N.to_nat (MAX_SPRITES_PER_BATCH * FLOATS_PER_SPRITE)) zero.

Definition new_batch (texture : Texture.t) : Batch.t :=
  {| Batch.instances := 0;
     Batch.vertices := new_vertices;
     Batch.texture := texture |}.

(** The state of the first loop of the render pass. *)
Record Batching := {
  groups : gmap positive GPUBindGroup;
  groupCount : nat;
  batchMap : JsMap.t (list Batch.t);
  created : list GPUCommand
}.

(** [let batch = batches.at(-1);
     if (!batch || batch.instances === MAX_SPRITES_PER_BATCH)
       { batch = {...}; batches.push(batch); }]:
    the batches that come before the current one, and the current
    batch. *)
Definition current_batch (texture : Texture.t) (batches : list Batch.t)
    : list Batch.t * Batch.t :=
  match last batches with
  | Some batch =>
      if decide (Batch.instances batch = MAX_SPRITES_PER_BATCH)
      then (batches, new_batch texture)
      else (removelast batches, batch)
  | None => (batches, new_batch texture)
  end.

(** The body of [for (const sprite of sprites)].  The arrays held by
    [batchMap] and the batches in them are objects that the body changes
    in place; here the changed array is put back under its key, which
    leaves the key where it stands in the iteration order, or appends it
    when the texture is new. *)
Definition batch_sprite (s : Batching) (sprite : Sprite.t) : Batching :=
  let texture := Sprite.texture sprite in
  let '(groups', count', created') :=
    match groups s !! Texture.id texture with
    | Some _ => (groups s, groupCount s, created s)
    | None =>
        let textureBindGroup :=
          TextureBindGroup (groupCount s) (Texture.id texture) in
        (<[Texture.id texture := textureBindGroup]> (groups s),
         S (groupCount s),
         created s ++
         [ createView (TextureOf (Texture.id texture));
           createBindGroup textureBindGroup ])
    end in
  let batches :=
    match JsMap.get (batchMap s) (Texture.id texture) with
    | Some batches => batches
    | None => []
    end in
  let '(earlier, batch) := current_batch (Sprite.texture sprite) batches in
  {| groups := groups';
     groupCount := count';
     batchMap :=
       JsMap.set (batchMap s) (Texture.id texture)
         (earlier ++ [write_sprite batch sprite]);
     created := created' |}.

Definition batching (p : Pipeline) (sprites : list Sprite.t) : Batching :=
  fold_left batch_sprite sprites
    {| groups := textureBindGroups p;
       groupCount := bindGroupCount p;
       batchMap := [];
       created := [] |}.

(** *** Render pass executor *)

(** The state of the draw loops. *)
Record Drawing := {
  pool : list GPUBuffer;
  bufferCount : nat;
  usedVertexBuffers : list GPUBuffer;
  encoded : list GPUCommand
}.

(** The body of [for (const batch of batches)]. *)
Definition draw_batch (cache : gmap positive GPUBindGroup)
    (d : Drawing) (batch : Batch.t) : Completion * Drawing :=
  let '(vertexBuffer, pool', count', log) :=
    match array_pop (pool d) with
    | (Some vertexBuffer, rest) =>
        (vertexBuffer, rest, bufferCount d, encoded d)
    | (None, rest) =>
        (bufferCount d, rest, S (bufferCount d),
         encoded d ++ [createBuffer (bufferCount d)])
    end in
  let log := log ++ [writeBuffer vertexBuffer (Batch.vertices batch)] in
  let used := array_push (usedVertexBuffers d) vertexBuffer in
  match cache !! Texture.id (Batch.texture batch) with
  | None =>
      (Throw "Texture bind group not found!",
       {| pool := pool'; bufferCount := count';
          usedVertexBuffers := used; encoded := log |})
  | Some textureBindGroup =>
      (Normal,
       {| pool := pool'; bufferCount := count';
          usedVertexBuffers := used;
          encoded :=
            log ++
            [ setPipeline;
              setIndexBuffer;
              setVertexBuffer 0 vertexBuffer;
              setBindGroup 0 projectionViewMatrixBindGroup;
              setBindGroup 1 textureBindGroup;
              drawIndexed (6 * Batch.instances batch) ] |})
  end.

(** [for (const batches of batchMap.values())
      for (const batch of batches) ...] *)
Definition draw (cache : gmap positive GPUBindGroup)
    (m : JsMap.t (list Batch.t)) (d : Drawing) : Completion * Drawing :=
  for_of (fun d batches => for_of (draw_batch cache) batches d)
    (JsMap.values m) d.

(** One call [renderPass(sprites)]: how it completes, the state of the
    closure afterwards, and the calls it made.  When the draw loop
    throws, the rest of the function does not run. *)
Definition renderPass (p : Pipeline) (sprites : list Sprite.t)
    : Completion * Pipeline * list GPUCommand :=
  let b := batching p sprites in
  let d0 :=
    {| pool := vertexBuffers p;
       bufferCount := vertexBufferCount p;
       usedVertexBuffers := [];
       encoded :=
         created b ++
         [ getCurrentTexture; createView CurrentTexture;
           createCommandEncoder; beginRenderPass ] |} in
  match draw (groups b) (batchMap b) d0 with
  | (Throw e, d) =>
      (Throw e,
       {| vertexBuffers := pool d;
          textureBindGroups := groups b;
          vertexBufferCount := bufferCount d;
          bindGroupCount := groupCount b |},
       encoded d)
  | (Normal, d) =>
      (Normal,
       {| vertexBuffers :=
            fold_left array_push (usedVertexBuffers d) (pool d);
          textureBindGroups := groups b;
          vertexBufferCount := bufferCount d;
          bindGroupCount := groupCount b |},
       encoded d ++ [endPass; finish; submit])
  end.

(** Consecutive calls of the render pass by an application that goes on
    whatever a call does, one list of sprites per frame: the state after
    the last call and all the calls made on the device. *)
Fixpoint frames (p : Pipeline) (calls : list (list Sprite.t))
    : Pipeline * list GPUCommand :=
  match calls with
  | [] => (p, [])
  | sprites :: calls' =>
      let '(_, p', log) := renderPass p sprites in
      let '(p'', log') := frames p' calls' in
      (p'', log ++ log')
  end.

(** *** Sprites as objects of the caller *)

(** The sprites belong to the application, which hands the render pass
    an array of references to them.  The objects that the batching loop
    can reach are the sprites and the batches it creates; they lie in a
    heap, and a reference is the place of an object in it.  A sprite
    object holds its fields, a batch object holds [instances], the
    floats of [vertices] and [texture].  Reading a field of a sprite is
    a lookup in the heap; [batch.vertices[k + i] = value] and
    [batch.instances++] change the batch object in its place; an
    assignment to a field of a sprite would change the sprite object in
    its place.  [rotate] is given fresh arrays and a number: it has no
    reference into the heap. *)
Inductive JsObject :=
| SpriteObject (sprite : Sprite.t)
| BatchObject (batch : Batch.t).

Definition Heap : Type := list JsObject.

Definition read_batch (h : Heap) (ref : nat) : option Batch.t :=
  match h !! ref with
  | Some (BatchObject batch) => Some batch
  | _ => None
  end.

(** The state of the first loop of the render pass, with the batches
    behind references: [batchMap] holds arrays of references. *)
Record HeapBatching := {
  heap : Heap;
  h_groups : gmap positive GPUBindGroup;
  h_groupCount : nat;
  h_batchMap : JsMap.t (list nat);
  h_created : list GPUCommand
}.

(** [let batch = batches.at(-1);
     if (!batch || batch.instances === MAX_SPRITES_PER_BATCH)
       { batch = {...}; batches.push(batch); }]:
    the heap, the array of the texture and the reference to the current
    batch afterwards.  A new batch is a new object, at the end of the
    heap. *)
Definition current_batch_on (h : Heap) (texture : Texture.t)
    (batches : list nat) : Heap * list nat * nat :=
  let pushed :=
    (h ++ [BatchObject (new_batch texture)],
     array_push batches (length h), length h) in
  match last batches with
  | Some ref =>
      match read_batch h ref with
      | Some batch =>
          if decide (Batch.instances batch = MAX_SPRITES_PER_BATCH)
          then pushed
          else (h, batches, ref)
      | None => pushed
      end
  | None => pushed
  end.

(** The body of [for (const sprite of sprites)], on the heap. *)
Definition batch_sprite_on (s : HeapBatching) (ref : nat) : HeapBatching :=
  match heap s !! ref with
  | Some (SpriteObject sprite) =>
      let texture := Sprite.texture sprite in
      let '(groups', count', created') :=
        match h_groups s !! Texture.id texture with
        | Some _ => (h_groups s, h_groupCount s, h_created s)
        | None =>
            let textureBindGroup :=
              TextureBindGroup (h_groupCount s) (Texture.id texture) in
            (<[Texture.id texture := textureBindGroup]> (h_groups s),
             S (h_groupCount s),
             h_created s ++
             [ createView (TextureOf (Texture.id texture));
               createBindGroup textureBindGroup ])
        end in
      let batches :=
        match JsMap.get (h_batchMap s) (Texture.id texture) with
        | Some batches => batches
        | None => []
        end in
      let '(h, batches', batch_ref) :=
        current_batch_on (heap s) texture batches in
      let h' :=
        match read_batch h batch_ref with
        | Some batch =>
            <[batch_ref := BatchObject (write_sprite batch sprite)]> h
        | None => h
        end in
      {| heap := h';
         h_groups := groups';
         h_groupCount := count';
         h_batchMap :=
           JsMap.set (h_batchMap s) (Texture.id texture) batches';
         h_created := created' |}
  | _ => s
  end.

Definition batching_on (p : Pipeline) (h : Heap) (sprites : list nat)
    : HeapBatching :=
  fold_left batch_sprite_on sprites
    {| heap := h;
       h_groups := textureBindGroups p;
       h_groupCount := bindGroupCount p;
       h_batchMap := [];
       h_created := [] |}.

(** The batches behind the references of a [batchMap]. *)
Definition batches_of (h : Heap) (m : JsMap.t (list nat))
    : JsMap.t (list Batch.t) :=
  map (fun entry => (entry.1, omap (read_batch h) entry.2)) m.

(** The render pass from [context.getCurrentTexture()] on: the draw
    loops and what follows them, for the batches of the first loop. *)
Definition draw_and_submit (p : Pipeline) (b : Batching)
    : Completion * Pipeline * list GPUCommand :=
  let d0 :=
    {| pool := vertexBuffers p;
       bufferCount := vertexBufferCount p;
       usedVertexBuffers := [];
       encoded :=
         created b ++
         [ getCurrentTexture; createView CurrentTexture;
           createCommandEncoder; beginRenderPass ] |} in
  match draw (groups b) (batchMap b) d0 with
  | (Throw e, d) =>
      (Throw e,
       {| vertexBuffers := pool d;
          textureBindGroups := groups b;
          vertexBufferCount := bufferCount d;
          bindGroupCount := groupCount b |},
       encoded d)
  | (Normal, d) =>
      (Normal,
       {| vertexBuffers :=
            fold_left array_push (usedVertexBuffers d) (pool d);
          textureBindGroups := groups b;
          vertexBufferCount := bufferCount d;
          bindGroupCount := groupCount b |},
       encoded d ++ [endPass; finish; submit])
  end.

(** One call [renderPass(sprites)] on the heap of the caller: the heap
    afterwards, and how the call completes, the state of the closure and
    the calls it made. *)
Definition renderPass_on (p : Pipeline) (h : Heap) (sprites : list nat)
    : Heap * (Completion * Pipeline * list GPUCommand) :=
  let s := batching_on p h sprites in
  (heap s,
   draw_and_submit p
     {| groups := h_groups s;
        groupCount := h_groupCount s;
        batchMap := batches_of (heap s) (h_batchMap s);
        created := h_created s |}).

End Pipeline.

(** ** Vocabulary of the properties *)

(** The distinct elements of a list, each at the place of its first
    occurrence. *)
Fixpoint distinct (l : list positive) : list positive :=
  match l with
  | [] => []
  | k :: l' => k :: filter (fun k' => k' ≠ k) (distinct l')
  end.

(** [ceil (a / b)] on natural numbers. *)
Definition ceil_div (a b : N) : N := ((a + b - 1) / b)%N.

Definition sum_N (l : list N) : N := foldr N.add 0%N l.

Section Vocabulary.
Context {number : JsNumber}.
Variable rotate : Vec2 -> Vec2 -> num -> Vec2.

Definition texture_of (sprite : Sprite.t) : positive :=
  Texture.id (Sprite.texture sprite).

(** The sprites of a list that use the texture [k], in the order of the
    list. *)
Definition with_texture (k : positive) (sprites : list Sprite.t)
    : list Sprite.t :=
  filter (fun sprite => texture_of sprite = k) sprites.

(** How many sprites of a list use the texture [k]. *)
Definition count_for (k : positive) (sprites : list Sprite.t) : N :=
  N.of_nat (length (with_texture k sprites)).

(** The 32 floats that the vertex writer leaves in a batch for one
    sprite. *)
Definition quad (sprite : Sprite.t) : list num :=
  map (fun w => fround w.2) (vertex_writes rotate sprite).

(** The slots of a batch that have been written: the first
    [instances * FLOATS_PER_SPRITE] floats. *)
Definition written (batch : Batch.t) : list num :=
  take (N.to_nat (Batch.instances batch * FLOATS_PER_SPRITE))
    (Batch.vertices batch).

(** Projections of a list of calls. *)
Definition draw_counts (log : list GPUCommand) : list N :=
  omap (fun c => match c with drawIndexed n => Some n | _ => None end) log.

Definition uploads (log : list GPUCommand) : list (list num) :=
  omap (fun c => match c with writeBuffer _ data => Some data | _ => None end)
    log.

Definition bound_textures (log : list GPUCommand) : list positive :=
  omap (fun c =>
          match c with
          | setBindGroup 1 (TextureBindGroup _ k) => Some k
          | _ => None
          end) log.

Definition bound_vertex_buffers (log : list GPUCommand) : list GPUBuffer :=
  omap (fun c => match c with setVertexBuffer _ b => Some b | _ => None end)
    log.

(** The bind groups created for the texture [k]. *)
Definition bind_groups_created (k : positive) (log : list GPUCommand)
    : list nat :=
  omap (fun c =>
          match c with
          | createBindGroup (TextureBindGroup n k') =>
              if decide (k' = k) then Some n else None
          | _ => None
          end) log.

Definition buffers_created (log : list GPUCommand) : list GPUBuffer :=
  omap (fun c => match c with createBuffer b => Some b | _ => None end) log.

(** All the batches of a frame, in the order the draw loops visit
    them. *)
Definition drawn (m : JsMap.t (list Batch.t)) : list Batch.t :=
  concat (JsMap.values m).

(** The states the closure can be in: the one [pipeline] returns, and
    any state left by a call of the render pass. *)
Inductive reachable : Pipeline -> Prop :=
| reachable_pipeline : reachable pipeline
| reachable_renderPass p sprites :
    reachable p -> reachable (renderPass rotate p sprites).1.2.

End Vocabulary.


(** ** Invariants of the batcher *)

Section Invariants.
Context {number : JsNumber}.
Variable rotate : Vec2 -> Vec2 -> num -> Vec2.

(** Length of the [Float32Array] of a batch. *)
Definition capacity : nat :=
  N.to_nat (MAX_SPRITES_PER_BATCH * FLOATS_PER_SPRITE).

(** A batch of the texture [k] that can take one more sprite: it is not
    full, its array has the full length, and the slots after the written
    ones are still zero. *)
Record batch_open (k : positive) (b : Batch.t) : Prop := {
  open_texture : Texture.id (Batch.texture b) = k;
  open_instances : (Batch.instances b < MAX_SPRITES_PER_BATCH)%N;
  open_length : length (Batch.vertices b) = capacity;
  open_rest :
    Batch.vertices b =
    written b ++
    replicate
      (capacity - N.to_nat (Batch.instances b * FLOATS_PER_SPRITE)) zero
}.

(** A batch of the texture [k] as the batcher leaves it: between 1 and
    [MAX_SPRITES_PER_BATCH] sprites. *)
Record batch_ok (k : positive) (b : Batch.t) : Prop := {
  ok_texture : Texture.id (Batch.texture b) = k;
  ok_instances : (1 <= Batch.instances b <= MAX_SPRITES_PER_BATCH)%N;
  ok_length : length (Batch.vertices b) = capacity;
  ok_rest :
    Batch.vertices b =
    written b ++
    replicate
      (capacity - N.to_nat (Batch.instances b * FLOATS_PER_SPRITE)) zero
}.

(** The batches of the texture [k] after the sprites [sprites] of that
    texture: every batch but the last is full, and the written slots,
    batch after batch, hold the sprites in their order. *)
Definition batches_ok (k : positive) (sprites : list Sprite.t)
    (batches : list Batch.t) : Prop :=
  exists full current,
    batches = full ++ [current] /\
    Forall (fun b => batch_ok k b /\
                     Batch.instances b = MAX_SPRITES_PER_BATCH) full /\
    batch_ok k current /\
    concat (map written batches) = concat (map (quad rotate) sprites).

Definition batchMap_ok (sprites : list Sprite.t)
    (m : JsMap.t (list Batch.t)) : Prop :=
  JsMap.keys m = distinct (map texture_of sprites) /\
  forall k batches,
    JsMap.get m k = Some batches ->
    batches_ok k (with_texture k sprites) batches.

(** The cache names, for each texture in it, a bind group made for that
    texture. *)
Definition cache_ok (cache : gmap positive GPUBindGroup) : Prop :=
  forall k g, cache !! k = Some g -> exists n, g = TextureBindGroup n k.

(** The batcher issues no call but [createView] and
    [createBindGroup]. *)
Definition only_creates (log : list GPUCommand) : Prop :=
  Forall (fun c => (exists g, c = createBindGroup g) \/
                   (exists t, c = createView t)) log.

(** The vertex buffers that the draw loops take for [n] batches: the
    last buffers of the pool, from the end, and then new ones. *)
Definition taken (buffers : list GPUBuffer) (count n : nat)
    : list GPUBuffer :=
  rev (drop (length buffers - n) buffers) ++
  seq count (n - length buffers).

(** The number of batches of the call [renderPass(sprites)]. *)
Definition batch_count (sprites : list Sprite.t) : nat :=
  length (drawn (batchMap (batching rotate pipeline sprites))).

(** Whether [current_batch] starts a new batch. *)
Definition starts_batch (batches : list Batch.t) : bool :=
  match last batches with
  | Some batch =>
      bool_decide (Batch.instances batch = MAX_SPRITES_PER_BATCH)
  | None => true
  end.

End Invariants.

(** ** The heap of the caller and the batches of a call *)

Section HeapVocabulary.
Context {number : JsNumber}.

(** The references lead to these sprites. *)
Definition sprites_at (h : Heap) (refs : list nat)
    (sprites : list Sprite.t) : Prop :=
  Forall2 (fun ref sprite => h !! ref = Some (SpriteObject sprite))
    refs sprites.

(** The references lead to these batches. *)
Definition reads (h : Heap) (refs : list nat) (bs : list Batch.t) : Prop :=
  Forall2 (fun ref b => h !! ref = Some (BatchObject b)) refs bs.

(** Two maps with the same keys in the same order, the one with
    references to the batches of the other. *)
Definition same_batches (h : Heap) (hm : JsMap.t (list nat))
    (bm : JsMap.t (list Batch.t)) : Prop :=
  Forall2 (fun e e' => e.1 = e'.1 /\ reads h e.2 e'.2) hm bm.

(** The same, but for the entry of the key [k]. *)
Definition same_batches_but (k : positive) (h : Heap)
    (hm : JsMap.t (list nat)) (bm : JsMap.t (list Batch.t)) : Prop :=
  Forall2 (fun e e' => e.1 = e'.1 /\ (e.1 ≠ k -> reads h e.2 e'.2)) hm bm.

(** The first loop on the heap [h0] of the caller has reached the state
    [s], the first loop on the values of the sprites the state [B]: the
    heap is [h0] followed by the batches created so far, each of them
    referred to once by [batchMap], and the two states agree. *)
Record simulates (h0 : Heap) (s : HeapBatching) (B : Batching) : Prop := {
  sim_heap :
    exists created_objects,
      heap s = h0 ++ created_objects /\
      Forall (fun o => exists b, o = BatchObject b) created_objects /\
      concat (map snd (h_batchMap s)) ≡ₚ
        seq (length h0) (length created_objects);
  sim_groups : h_groups s = groups B;
  sim_groupCount : h_groupCount s = groupCount B;
  sim_created : h_created s = created B;
  sim_batches : same_batches (heap s) (h_batchMap s) (batchMap B);
  sim_keys : NoDup (JsMap.keys (h_batchMap s))
}.
End HeapVocabulary.




(** ** Sprites for the examples *)

Module Examples.
Import Binary64.

(** A texture of 64 by 32 pixels. *)
Definition atlas (id : positive) : Texture.t :=
  {| Texture.id := id;
     Texture.width := of_Z 64;
     Texture.height := of_Z 32 |}.

(** A white sprite that shows the whole texture and turns about its
    centre. *)
Definition sprite_on (texture : Texture.t) (x y w h : Z)
    (rotation : spec_float) : Sprite.t :=
  {| Sprite.texture := texture;
     Sprite.x := of_Z x;
     Sprite.y := of_Z y;
     Sprite.width := of_Z w;
     Sprite.height := of_Z h;
     Sprite.rotation := rotation;
     Sprite.origin := (S754_finite false 4503599627370496 (-53),
                       S754_finite false 4503599627370496 (-53));
     Sprite.frame :=
       {| Rect.x := b64_zero; Rect.y := b64_zero;
          Rect.width := Texture.width texture;
          Rect.height := Texture.height texture |};
     Sprite.color := (b64_one, b64_one, b64_one);
     Sprite.alpha := b64_one |}.

Definition sprite_at (x y w h : Z) (rotation : spec_float) : Sprite.t :=
  sprite_on (atlas 1) x y w h rotation.

(** Two sprites on two textures. *)
Definition on_first : Sprite.t := sprite_on (atlas 1) 0 0 8 8 b64_zero.
Definition on_second : Sprite.t := sprite_on (atlas 2) 4 4 8 8 b64_zero.

(** A stand-in for [rotate] where no sprite is rotated. *)
Definition no_rotate (v origin : Vec2) (angle : spec_float) : Vec2 := v.

(** The number 0.1 of JavaScript: the binary64 number nearest to one
    tenth, which no [Float32Array] can hold. *)
Definition tenth : spec_float := S754_finite false 7205759403792794 (-56).

(** A sprite at x = 0.1 that is not rotated. *)
Definition at_tenth : Sprite.t :=
  {| Sprite.texture := atlas 1;
     Sprite.x := tenth;
     Sprite.y := of_Z 1;
     Sprite.width := of_Z 8;
     Sprite.height := of_Z 8;
     Sprite.rotation := b64_zero;
     Sprite.origin := (b64_zero, b64_zero);
     Sprite.frame :=
       {| Rect.x := b64_zero; Rect.y := b64_zero;
          Rect.width := of_Z 64; Rect.height := of_Z 32 |};
     Sprite.color := (b64_one, b64_one, b64_one);
     Sprite.alpha := b64_one |}.

(** A sprite that shows the middle third of a texture of 3 by 3
    pixels. *)
Definition middle_third : Sprite.t :=
  {| Sprite.texture :=
       {| Texture.id := 3; Texture.width := of_Z 3;
          Texture.height := of_Z 3 |};
     Sprite.x := of_Z 0;
     Sprite.y := of_Z 0;
     Sprite.width := of_Z 1;
     Sprite.height := of_Z 1;
     Sprite.rotation := b64_zero;
     Sprite.origin := (b64_zero, b64_zero);
     Sprite.frame :=
       {| Rect.x := of_Z 1; Rect.y := of_Z 1;
          Rect.width := of_Z 1; Rect.height := of_Z 1 |};
     Sprite.color := (b64_one, b64_one, b64_one);
     Sprite.alpha := b64_one |}.

End Examples.

(** *** A half turn in binary64

    Modelled from the spec: [rotate] of [math/vec2] is not among the
    sources.  The spec (4.2) says that the rotation "uses standard 2D
    rotation matrix around the pivot".  Here it is at the one angle
    [Math.PI], with the cosine and the sine that [Math.cos] and [Math.sin]
    return for it: -1 and 1.2246467991473532e-16, the binary64 number
    nearest to the sine of the binary64 number nearest to pi. *)
Module HalfTurn.
Import Binary64.

Definition cos_Math_PI : spec_float :=
  S754_finite true 4503599627370496 (-52).
Definition sin_Math_PI : spec_float :=
  S754_finite false 4967757600021511 (-105).

Definition rotate (v origin : Vec2) (angle : spec_float) : Vec2 :=
  let dx := (v.1 - origin.1)%js in
  let dy := (v.2 - origin.2)%js in
  ((dx * cos_Math_PI - dy * sin_Math_PI + origin.1)%js,
   (dx * sin_Math_PI + dy * cos_Math_PI + origin.2)%js).

End HalfTurn.

(** ** The index buffer and the vertex layout *)

(** One store [indices[index] = value] into a [Uint16Array]: the value is
    taken modulo 2^16, and a store past the end of the array does
    nothing. *)
Definition store_uint16 (array : list N) (index value : N) : list N :=
  <[N.to_nat index := (value mod 65536)%N]> array.

(** The six assignments of the loop that fills [indices], for one [i]. *)
Definition index_writes (i : N) : list (N * N) :=
  [ (* first triangle: 0, 1, 2 *)
    (i * INDICES_PER_SPRITE + 0, i * 4 + 0);
    (i * INDICES_PER_SPRITE + 1, i * 4 + 1);
    (i * INDICES_PER_SPRITE + 2, i * 4 + 2);
    (* second triangle: 2, 3, 0 *)
    (i * INDICES_PER_SPRITE + 3, i * 4 + 2);
    (i * INDICES_PER_SPRITE + 4, i * 4 + 3);
    (i * INDICES_PER_SPRITE + 5, i * 4 + 0) ]%N.

Definition fill_indices (array : list N) (i : N) : list N :=
  fold_left (fun a w => store_uint16 a w.1 w.2) (index_writes i) array.

(** [const indices = new Uint16Array(MAX_SPRITES_PER_BATCH *
      INDICES_PER_SPRITE);
    for (let i = 0; i < MAX_SPRITES_PER_BATCH; i++) ...] *)
Definition indices : list N :=
  fold_left fill_indices
    (map N.of_nat (seq 0 (N.to_nat MAX_SPRITES_PER_BATCH)))
    (replicate (N.to_nat (MAX_SPRITES_PER_BATCH * INDICES_PER_SPRITE)) 0%N).

(** The vertices of one quad, in the order of its two triangles. *)
Definition quad_pattern : list N := [0; 1; 2; 2; 3; 0]%N.

(** The indices of the quad of slot [i]. *)
Definition quad_indices (i : N) : list N :=
  map (fun v => (i * 4 + v)%N) quad_pattern.

Inductive GPUVertexFormat := float32x2 | float32x3 | float32x4.

(** Number of floats of a vertex format. *)
Definition components (f : GPUVertexFormat) : N :=
  match f with float32x2 => 2 | float32x3 => 3 | float32x4 => 4 end.

(** [Float32Array.BYTES_PER_ELEMENT] *)
Definition BYTES_PER_ELEMENT : N := 4.

Record GPUVertexAttribute := {
  shaderLocation : N;
  offset : N;
  format : GPUVertexFormat
}.

Record GPUVertexBufferLayout := {
  arrayStride : N;
  attributes : list GPUVertexAttribute
}.

Definition vertexBufferLayout : GPUVertexBufferLayout := {|
  arrayStride := FLOATS_PER_VERTEX * BYTES_PER_ELEMENT;
  attributes :=
    [ {| shaderLocation := 0; offset := 0; format := float32x2 |};
      {| shaderLocation := 1; offset := 2 * BYTES_PER_ELEMENT;
         format := float32x2 |};
      {| shaderLocation := 2; offset := 4 * BYTES_PER_ELEMENT;
         format := float32x4 |} ]
|}.

(** What the vertex stage receives at a shader location for the vertex
    of a given index, with step mode ['vertex']: the floats of the format,
    read at byte [index * arrayStride + offset] of the vertex buffer. *)
Definition fetch {number : JsNumber} (layout : GPUVertexBufferLayout)
    (buffer : list num) (index location : N) : option (list num) :=
  match find (fun a => bool_decide (shaderLocation a = location))
          (attributes layout) with
  | None => None
  | Some a =>
      let byte := (index * arrayStride layout + offset a)%N in
      let start := N.to_nat (byte / BYTES_PER_ELEMENT) in
      let n := N.to_nat (components (format a)) in
      if decide ((byte mod BYTES_PER_ELEMENT)%N = 0%N /\
                 (start + n <= length buffer)%nat)
      then Some (take n (drop start buffer))
      else None
  end.

(** The attributes of a layout lie one after the other from byte 0 and
    end at the stride. *)
Fixpoint tiles (from : N) (attributes : list GPUVertexAttribute)
    (stride : N) : bool :=
  match attributes with
  | [] => bool_decide (from = stride)
  | a :: rest =>
      bool_decide (offset a = from) &&
      tiles (from + components (format a) * BYTES_PER_ELEMENT) rest stride
  end.

Section LayoutVocabulary.
Context {number : JsNumber}.
Variable rotate : Vec2 -> Vec2 -> num -> Vec2.

(** The corners of a sprite in the order of its vertices. *)
Definition corner_list (sprite : Sprite.t) : list Vec2 :=
  let '(topLeft, topRight, bottomRight, bottomLeft) :=
    corners rotate sprite in
  [topLeft; topRight; bottomRight; bottomLeft].

(** The texture coordinates of a sprite in the order of its vertices. *)
Definition uv_list (sprite : Sprite.t) : list Vec2 :=
  let '(u, v) := uv sprite in
  [(u.1, v.1); (u.2, v.1); (u.2, v.2); (u.1, v.2)].

(** The floats of slot [j] of a vertex array. *)
Definition slot (vertices : list num) (j : nat) : list num :=
  take 32 (drop (32 * j) vertices).

(** The vertex that the index at place [place] of the index buffer
    selects, as the vertex stage receives it at a shader location. *)
Definition fetch_indexed (vertices : list num) (place : nat)
    (location : N) : option (list num) :=
  match indices !! place with
  | Some index => fetch vertexBufferLayout vertices index location
  | None => None
  end.
End LayoutVocabulary.

(** ** Vocabulary for the calls of a frame *)

(** The vertex buffer of the batch of number [i] of a frame: the buffers
    of the pool from the last one backwards, then new ones. *)
Definition buffer_for (pool : list GPUBuffer) (count i : nat) : GPUBuffer :=
  if decide (i < length pool)%nat
  then nth (length pool - 1 - i) pool 0%nat
  else (count + (i - length pool))%nat.

(** The textures, at their first occurrence, that a cache does not hold. *)
Definition new_textures (cache : gmap positive GPUBindGroup)
    (textures : list positive) : list positive :=
  filter (fun k => cache !! k = None) (distinct textures).

Section CallVocabulary.
Context {number : JsNumber}.

(** The calls that create bind groups numbered from [first], one per
    texture, each after the view of its texture. *)
Definition bind_group_calls (first : nat) (textures : list positive)
    : list GPUCommand :=
  concat
    (imap (fun i k => [ createView (TextureOf k);
                        createBindGroup (TextureBindGroup (first + i) k) ])
       textures).

(** The calls for the batch of number [i] of a frame. *)
Definition batch_calls (cache : gmap positive GPUBindGroup)
    (pool : list GPUBuffer) (count : nat) (i : nat) (batch : Batch.t)
    : list GPUCommand :=
  let vertexBuffer := buffer_for pool count i in
  (if decide (i < length pool)%nat then []
   else [createBuffer vertexBuffer]) ++
  [ writeBuffer vertexBuffer (Batch.vertices batch);
    setPipeline;
    setIndexBuffer;
    setVertexBuffer 0 vertexBuffer;
    setBindGroup 0 projectionViewMatrixBindGroup ] ++
  match cache !! Texture.id (Batch.texture batch) with
  | Some textureBindGroup => [setBindGroup 1 textureBindGroup]
  | None => []
  end ++
  [ drawIndexed (6 * Batch.instances batch) ].
End CallVocabulary.

(** ** The release-notes tool

    [tools/extract-release-notes.ts] prints the section of
    [RELEASE_NOTES.md] that belongs to the version named on the command
    line.  A JavaScript string is the list of its UTF-16 code units.  The
    file is taken to be there: the script is a function of the command
    line and of the text of the file. *)

Module JsString.
Definition t : Type := list N.

(** A string literal of the source. *)
Definition lit (s : string) : t :=
  map Ascii.N_of_ascii (String.list_ascii_of_string s).

(** Whether [searchString] stands at the start of [s]. *)
Fixpoint startsWith (s searchString : t) {struct searchString} : bool :=
  match searchString, s with
  | [], _ => true
  | c :: searchString', d :: s' => N.eqb c d && startsWith s' searchString'
  | _ :: _, [] => false
  end.

(** The least position of [s] at which [here] holds of the rest of the
    string, or -1: the scan of [indexOf] and of [search]. *)
Fixpoint first_position (here : t -> bool) (s : t) : Z :=
  if here s then 0%Z
  else
    match s with
    | [] => (-1)%Z
    | _ :: s' =>
        let k := first_position here s' in
        if (k =? -1)%Z then (-1)%Z else (k + 1)%Z
    end.

(** [s.indexOf(searchString)] *)
Definition indexOf (s searchString : t) : Z :=
  first_position (fun rest => startsWith rest searchString) s.

(** [s.substring(start, end)]; [end] is [None] for [undefined].  Both
    bounds are clamped to the string, and swapped when out of order. *)
Definition substring (s : t) (start : Z) (end_ : option Z) : t :=
  let len := Z.of_nat (length s) in
  let clamp x := Z.min (Z.max x 0) len in
  let a := clamp start in
  let b := match end_ with Some e => clamp e | None => len end in
  let from := Z.min a b in
  let to := Z.max a b in
  take (Z.to_nat (to - from)) (drop (Z.to_nat from) s).

(** White space and line terminators, the code units that [trim]
    removes. *)
Definition is_white_space (c : N) : bool :=
  bool_decide
    (c ∈ [9; 10; 11; 12; 13; 32; 160; 5760; 8192; 8193; 8194; 8195; 8196;
          8197; 8198; 8199; 8200; 8201; 8202; 8232; 8233; 8239; 8287;
          12288; 65279]%N).

Fixpoint trimStart (s : t) : t :=
  match s with
  | c :: s' => if is_white_space c then trimStart s' else s
  | [] => []
  end.

Definition trimEnd (s : t) : t := rev (trimStart (rev s)).

(** [s.trim()] *)
Definition trim (s : t) : t := trimEnd (trimStart s).
End JsString.

Module ReleaseNotes.
Import JsString.

(** How the script ends: it prints a text, or it throws. *)
Inductive Outcome :=
| Logged (output : t)
| Thrown (message : t).

(** [\d] *)
Definition is_digit (c : N) : bool := (48 <=? c)%N && (c <=? 57)%N.

(** What is left of [s] after the digits at its start. *)
Fixpoint skip_digits (s : t) : t :=
  match s with
  | c :: s' => if is_digit c then skip_digits s' else s
  | [] => []
  end.

(** [\d+]: one digit or more, as many as there are. *)
Definition digits (s : t) : option t :=
  match s with
  | c :: s' => if is_digit c then Some (skip_digits s') else None
  | [] => None
  end.

(** A literal piece of the pattern. *)
Definition literal (piece : string) (s : t) : option t :=
  if startsWith s (lit piece)
  then Some (drop (length (lit piece)) s) else None.

(** Whether [/## \d+\.\d+\.\d+/] matches at the start of [s].  A digit
    is not a dot, so giving back digits never helps the match: taking
    all digits decides it. *)
Definition header_here (s : t) : bool :=
  let then_ (step : t -> option t) (rest : option t) : option t :=
    match rest with Some r => step r | None => None end in
  match then_ digits (then_ (literal ".") (then_ digits
          (then_ (literal ".") (then_ digits (literal "## " s))))) with
  | Some _ => true
  | None => false
  end.

(** [s.search(/## \d+\.\d+\.\d+/)] *)
Definition search (s : t) : Z := first_position header_here s.

(** The script, for the command line [argv] and the text [content] of
    [RELEASE_NOTES.md]. *)
Definition extract_release_notes (argv : list t) (content : t)
    : Outcome :=
  match argv !! 2%nat with
  | None | Some [] => Thrown (lit "Version is required")
  | Some version =>
      let fromPosition := indexOf content (lit "## " ++ version) in
      if (fromPosition =? -1)%Z
      then Thrown (lit "Version " ++ version ++
                   lit " not found in RELEASE_NOTES.md")
      else
        let toPosition := search (substring content (fromPosition + 1) None) in
        let releaseNotes :=
          substring content fromPosition
            (if (toPosition =? -1)%Z then None
             else Some (fromPosition + 1 + toPosition)%Z) in
        Logged (trim releaseNotes)
  end.

(** The text reads ["## "], digits, a dot, digits, a dot, a digit. *)
Definition header (s : t) : Prop :=
  exists major minor patch rest,
    s = lit "## " ++ major ++ lit "." ++ minor ++ lit "." ++ patch ++ rest /\
    major ≠ [] /\ minor ≠ [] /\ patch ≠ [] /\
    forallb is_digit major = true /\
    forallb is_digit minor = true /\
    forallb is_digit patch = true.

(** [piece] occurs in [s] at position [k]. *)
Definition occurs_at (piece s : t) (k : nat) : Prop :=
  (k <= length s)%nat /\ piece `prefix_of` drop k s.

(** A release file with two sections, for the examples. *)
Definition sample : t :=
  lit "# Notes
## 1.2.0
added
## 1.1.0
fixed
".
End ReleaseNotes.

(** ** The camera

    [packages/engine/src/renderer/camera/camera.ts].  The matrix functions
    come from [@pixel-craft/math], which is not part of the sources at
    hand: they are parameters of the model, and so is the unary minus of
    JavaScript numbers.  The allocator of uniform buffers is not part of
    them either: of an allocation the model keeps the buffer and the
    length of the array that the allocator is given. *)

Module Point2.
Record t `{JsNumber} := { x : num; y : num }.
End Point2.

Module Vector3.
Record t `{JsNumber} := { x : num; y : num; z : num }.
End Vector3.

Module Vector4.
Record t `{JsNumber} := { x : num; y : num; z : num; w : num }.
End Vector4.

(** The two uniform buffers of a camera. *)
Inductive UniformBuffer :=
| projectionViewMatrixUniformBuffer
| transformUniformBuffer.

#[global] Instance UniformBuffer_eq_dec : EqDecision UniformBuffer.
Proof. solve_decision. Defined.

(** The calls a camera makes on the device. *)
Inductive CameraCommand `{JsNumber} :=
| allocateUniform (buffer : UniformBuffer) (floats : N)
| writeUniform (buffer : UniformBuffer) (bufferOffset : N) (data : list num).

(** The calls an application makes on a camera. *)
Inductive CameraCall `{JsNumber} :=
| Observe (position : Point2.t)
| Zoom (scaling : Point2.t).

Module Camera.
Section Camera.
Context {number : JsNumber}.
Variable neg : num -> num.
Variable Matrix4 : Type.
Variable orthographic : num -> num -> num -> num -> num -> num -> Matrix4.
Variable lookAt : Vector3.t -> Vector3.t -> Vector3.t -> Matrix4.
Variable multiply : Matrix4 -> Matrix4 -> Matrix4.
Variable translate : Matrix4 -> Vector4.t -> Matrix4.
Variable scale : Matrix4 -> Vector3.t -> Matrix4.
(** [Vector4.multiply] *)
Variable transform : Vector4.t -> Matrix4 -> Vector4.t.
(** The elements of a matrix, as [new Float32Array(matrix)] reads
    them. *)
Variable elements : Matrix4 -> list num.

(** The variables that the closures of [createCamera] share. *)
Record t := {
  scaling : Vector3.t;
  position : Point2.t
}.

Section Closures.
Variables width height : num.

Definition projectionMatrix : Matrix4 :=
  orthographic zero width height zero (neg one) one.

Definition viewMatrix : Matrix4 :=
  lookAt {| Vector3.x := zero; Vector3.y := zero; Vector3.z := one |}
         {| Vector3.x := zero; Vector3.y := zero; Vector3.z := zero |}
         {| Vector3.x := zero; Vector3.y := one; Vector3.z := zero |}.

Definition projectionViewMatrix : Matrix4 :=
  multiply viewMatrix projectionMatrix.

Definition update (c : t) : list CameraCommand :=
  let translation :=
    transform
      {| Vector4.x := neg (Point2.x (position c));
         Vector4.y := neg (Point2.y (position c));
         Vector4.z := zero;
         Vector4.w := one |}
      projectionMatrix in
  let translated := translate projectionViewMatrix translation in
  let scaled := scale translated (scaling c) in
  [ writeUniform projectionViewMatrixUniformBuffer 0
      (map fround (elements scaled));
    writeUniform transformUniformBuffer 0
      (map fround
         [ neg (Point2.x (position c));
           neg (Point2.y (position c));
           Vector3.x (scaling c);
           Vector3.y (scaling c) ]) ].

Definition observe (c : t) (p : Point2.t) : t * list CameraCommand :=
  let c' := {| scaling := scaling c; position := p |} in
  (c', update c').

Definition zoom (c : t) (p : Point2.t) : t * list CameraCommand :=
  let c' :=
    {| scaling :=
         {| Vector3.x := Point2.x p;
            Vector3.y := Point2.y p;
            Vector3.z := Vector3.z (scaling c) |};
       position := position c |} in
  (c', update c').

Definition createCamera : t * list CameraCommand :=
  let c :=
    {| scaling :=
         {| Vector3.x := one; Vector3.y := one; Vector3.z := one |};
       position := {| Point2.x := zero; Point2.y := zero |} |} in
  (c,
   [ allocateUniform projectionViewMatrixUniformBuffer
       (16 * BYTES_PER_ELEMENT);
     allocateUniform transformUniformBuffer
       (4 * BYTES_PER_ELEMENT) ] ++
   update c).

Definition call (c : t) (f : CameraCall) : t * list CameraCommand :=
  match f with
  | Observe p => observe c p
  | Zoom p => zoom c p
  end.

(** A camera is created and then called. *)
Definition calls_from (start : t * list CameraCommand)
    (fs : list CameraCall) : t * list CameraCommand :=
  fold_left
    (fun acc f => let '(c, log) := call acc.1 f in (c, acc.2 ++ log))
    fs start.

Definition run (fs : list CameraCall) : t * list CameraCommand :=
  calls_from createCamera fs.




(** The buffer each call is made on. *)
Definition target (c : CameraCommand) : UniformBuffer :=
  match c with
  | allocateUniform b _ | writeUniform b _ _ => b
  end.
End Closures.
End Camera.
End Camera.

(** ** The earlier version of the render pass

    The sources hold an earlier version of [pipeline.ts] as well: seven
    floats per vertex, no rotation, no frame and no alpha; every sprite
    shows its whole texture in white.  Its batcher and its draw loops are
    those of the current version; its vertex layout and its vertex writer
    are modelled here. *)

Module Previous.
Definition FLOATS_PER_VERTEX : N := 7.
Definition FLOATS_PER_SPRITE : N := 4 * FLOATS_PER_VERTEX.

Definition vertexBufferLayout : GPUVertexBufferLayout :=
  {| arrayStride := 7 * BYTES_PER_ELEMENT;
     attributes :=
       [ {| shaderLocation := 0; offset := 0; format := float32x2 |};
         {| shaderLocation := 1; offset := 2 * BYTES_PER_ELEMENT;
            format := float32x2 |};
         {| shaderLocation := 2; offset := 4 * BYTES_PER_ELEMENT;
            format := float32x3 |} ] |}.

Section Writer.
Context {number : JsNumber}.

(** The 28 assignments [batch.vertices[k + i] = value]. *)
Definition vertex_writes (sprite : Sprite.t) : list (N * num) :=
  let left := Sprite.x sprite in
  let top := Sprite.y sprite in
  let right := (Sprite.x sprite + Sprite.width sprite)%js in
  let bottom := (Sprite.y sprite + Sprite.height sprite)%js in
  [ (* top left *)
    (0, left); (1, top); (2, zero); (3, zero);
    (4, one); (5, one); (6, one);
    (* top right *)
    (7, right); (8, top); (9, one); (10, zero);
    (11, one); (12, one); (13, one);
    (* bottom right *)
    (14, right); (15, bottom); (16, one); (17, one);
    (18, one); (19, one); (20, one);
    (* bottom left *)
    (21, left); (22, bottom); (23, zero); (24, one);
    (25, one); (26, one); (27, one) ]%N.

Definition write_sprite (batch : Batch.t) (sprite : Sprite.t) : Batch.t :=
  let i := (Batch.instances batch * FLOATS_PER_SPRITE)%N in
  {| Batch.instances := Batch.instances batch + 1;
     Batch.vertices :=
       fold_left (fun vertices w => store vertices (w.1 + i)%N w.2)
         (vertex_writes sprite) (Batch.vertices batch);
     Batch.texture := Batch.texture batch |}.

Definition new_vertices : list num :=
  replicate (N.to_nat (MAX_SPRITES_PER_BATCH * FLOATS_PER_SPRITE)) zero.

(** Length of the [Float32Array] of a batch. *)
Definition capacity : nat :=
  N.to_nat (MAX_SPRITES_PER_BATCH * FLOATS_PER_SPRITE).

(** The 28 floats that the vertex writer leaves for one sprite. *)
Definition quad (sprite : Sprite.t) : list num :=
  map (fun w => fround w.2) (vertex_writes sprite).
End Writer.
End Previous.

(** ** Facts of the two arithmetics *)

Section Binary64Facts.
Import Binary64.

Lemma div_eucl_shiftl (m : positive) (k : Z) :
  (0 <= k)%Z ->
  Z.div_eucl (Z.shiftl (Z.pos m) k) (Z.pos m) = (2 ^ k, 0)%Z.
Proof.
  intros Hk.
  rewrite Z.shiftl_mul_pow2 by assumption.
  pose proof (Z.div_mul (2 ^ k) (Z.pos m) ltac:(discriminate)) as Hq.
  pose proof (Z.mod_mul (2 ^ k) (Z.pos m) ltac:(discriminate)) as Hr.
  rewrite (Z.mul_comm (Z.pos m)).
  unfold Z.div in Hq. unfold Z.modulo in Hr.
  destruct (Z.div_eucl (2 ^ k * Z.pos m) (Z.pos m)) as [q r].
  simpl in Hq, Hr. congruence.
Qed.

(** A finite number divided by itself is exactly [1]. *)
Lemma SFdiv_diag (s : bool) (m : positive) (e : Z) :
  SFdiv prec emax (S754_finite s m e) (S754_finite s m e) = b64_one.
Proof.
  unfold SFdiv, SFdiv_core_binary.
  rewrite !Z.sub_diag.
  change (Z.min (fexp prec emax 0) 0) with (-53)%Z.
  change (0 - -53)%Z with 53%Z.
  cbv beta iota zeta.
  rewrite (div_eucl_shiftl m 53) by discriminate.
  unfold new_location, new_location_even, new_location_odd.
  destruct (Z.even (Z.pos m)), s; reflexivity.
Qed.


Lemma real_truthy_spec (x : R) :
  ExactReal.real_truthy x = false <-> x = 0%R.
Proof.
  unfold ExactReal.real_truthy. destruct (Req_dec_T x 0); split; done.
Qed.
End Binary64Facts.

(** ** Lemmas on the JavaScript containers *)

Section JsMapFacts.
Context {V : Type}.
Implicit Types (m : JsMap.t V) (k : positive) (v : V).

Lemma get_set_eq m k v : JsMap.get (JsMap.set m k v) k = Some v.
Proof.
  induction m as [|[k' v'] m IH]; simpl.
  - by rewrite decide_True.
  - destruct (decide (k' = k)) as [->|Hne]; simpl.
    + by rewrite decide_True.
    + by rewrite decide_False.
Qed.

Lemma get_set_ne m k k' v :
  k ≠ k' -> JsMap.get (JsMap.set m k v) k' = JsMap.get m k'.
Proof.
  intros Hne. induction m as [|[k0 v0] m IH]; simpl.
  - by rewrite decide_False.
  - destruct (decide (k0 = k)) as [->|Hne0]; simpl.
    + by rewrite !decide_False.
    + by rewrite IH.
Qed.

Lemma get_None m k : JsMap.get m k = None <-> k ∉ JsMap.keys m.
Proof.
  induction m as [|[k' v'] m IH]; simpl.
  - split; [intros _; apply not_elem_of_nil | done].
  - rewrite not_elem_of_cons. destruct (decide (k' = k)) as [->|Hne].
    + split; [done | intros [? _]; done].
    + rewrite IH. split; [by intros ? | by intros [_ ?]].
Qed.

Lemma keys_set_present m k v :
  k ∈ JsMap.keys m -> JsMap.keys (JsMap.set m k v) = JsMap.keys m.
Proof.
  induction m as [|[k' v'] m IH]; simpl.
  - by intros ?%elem_of_nil.
  - destruct (decide (k' = k)) as [->|Hne]; simpl; [done|].
    intros [?|Hin]%elem_of_cons; [congruence|].
    f_equal. by apply IH.
Qed.

Lemma keys_set_absent m k v :
  k ∉ JsMap.keys m -> JsMap.keys (JsMap.set m k v) = JsMap.keys m ++ [k].
Proof.
  induction m as [|[k' v'] m IH]; simpl; [done|].
  intros [Hne Hnin]%not_elem_of_cons.
  rewrite decide_False by done. simpl. f_equal. by apply IH.
Qed.

End JsMapFacts.

Lemma elem_of_distinct (l : list positive) (k : positive) :
  k ∈ distinct l <-> k ∈ l.
Proof.
  induction l as [|k' l IH]; cbn [distinct]; [done|].
  rewrite !elem_of_cons, list_elem_of_filter, IH.
  destruct (decide (k = k')); tauto.
Qed.

Lemma NoDup_distinct (l : list positive) : NoDup (distinct l).
Proof.
  induction l as [|k l IH]; cbn [distinct]; [constructor|].
  constructor.
  - rewrite list_elem_of_filter. tauto.
  - by apply NoDup_filter.
Qed.

Lemma distinct_snoc (l : list positive) (k : positive) :
  distinct (l ++ [k]) =
  if decide (k ∈ l) then distinct l else distinct l ++ [k].
Proof.
  induction l as [|k' l IH]; cbn [distinct app].
  - rewrite decide_False by apply not_elem_of_nil. done.
  - rewrite IH. destruct (decide (k ∈ l)) as [Hin|Hnin].
    + rewrite decide_True by (by right). done.
    + destruct (decide (k = k')) as [->|Hne].
      * rewrite decide_True by (by left).
        rewrite filter_app, filter_cons_False, filter_nil by tauto.
        by rewrite app_nil_r.
      * rewrite decide_False by (rewrite elem_of_cons; tauto).
        rewrite filter_app, filter_cons_True, filter_nil by done. done.
Qed.

(** ** The vertex writer fills a batch slot by slot *)

Section WriterFacts.
Context {number : JsNumber}.
Variable rotate : Vec2 -> Vec2 -> num -> Vec2.

Lemma vertex_writes_offsets sprite :
  map fst (vertex_writes rotate sprite) = map N.of_nat (seq 0 32).
Proof.
  unfold vertex_writes.
  destruct (corners rotate sprite) as [[[tl tr] br] bl].
  destruct (uv sprite) as [u v].
  destruct (Sprite.color sprite) as [[r g] b].
  reflexivity.
Qed.

Lemma length_vertex_writes sprite :
  length (vertex_writes rotate sprite) = 32%nat.
Proof.
  rewrite <- (length_map fst), vertex_writes_offsets.
  reflexivity.
Qed.

Lemma length_quad sprite : length (quad rotate sprite) = 32%nat.
Proof. unfold quad. by rewrite length_map, length_vertex_writes. Qed.

(** Stores at consecutive indices overwrite one run of the array. *)
Lemma store_run (i : N) (ws : list (N * num)) :
  forall (j : nat) (vs : list num),
    map fst ws = map N.of_nat (seq j (length ws)) ->
    (N.to_nat i + j + length ws <= length vs)%nat ->
    fold_left (fun vertices w => store vertices (w.1 + i)%N w.2) ws vs =
    take (N.to_nat i + j) vs ++ map (fun w => fround w.2) ws ++
    drop (N.to_nat i + j + length ws) vs.
Proof.
  induction ws as [|[o v] ws IH]; intros j vs Hoff Hlen.
  - cbn [fold_left map length app]. rewrite Nat.add_0_r.
    by rewrite take_drop.
  - cbn [length seq map fst] in Hoff. injection Hoff as Ho Hoff.
    cbn [fold_left fst snd map length] in *.
    rewrite (IH (S j)); [|done|unfold store; rewrite length_insert; lia].
    unfold store. subst o.
    replace (N.to_nat (N.of_nat j + i)) with (N.to_nat i + j)%nat by lia.
    rewrite (insert_take_drop vs (N.to_nat i + j)) by lia.
    assert (Hl : length (take (N.to_nat i + j) vs) = (N.to_nat i + j)%nat)
      by (rewrite length_take; lia).
    replace (N.to_nat i + S j)%nat with
      (length (take (N.to_nat i + j) vs) + 1)%nat at 1 by lia.
    rewrite take_app_add. cbn [take].
    replace (N.to_nat i + S j + length ws)%nat with
      (length (take (N.to_nat i + j) vs) + S (length ws))%nat by lia.
    rewrite drop_app_add. cbn [drop]. rewrite drop_drop.
    rewrite take_0, <- app_assoc. cbn [app].
    do 4 f_equal. lia.
Qed.
End WriterFacts.

(** ** What the vertex writer leaves in the array of a batch *)

Section StoredFacts.
Context {number : JsNumber}.
Variable rotate : Vec2 -> Vec2 -> num -> Vec2.

(** A store into a [Float32Array] leaves its length as it is. *)
Lemma length_write_sprite (b : Batch.t) (sprite : Sprite.t) :
  length (Batch.vertices (write_sprite rotate b sprite)) =
  length (Batch.vertices b).
Proof.
  cbn [write_sprite Batch.vertices].
  generalize (Batch.vertices b).
  induction (vertex_writes rotate sprite) as [|w ws IH]; intros vs; [done|].
  cbn [fold_left]. rewrite IH. unfold store. apply length_insert.
Qed.

Lemma length_new_batch (texture : Texture.t) :
  length (Batch.vertices (new_batch texture)) = capacity.
Proof. cbn. unfold new_vertices. apply length_replicate. Qed.

(** The 32 stores of one sprite overwrite the slot of the sprite and
    leave the rest of the array as it was. *)
Lemma write_sprite_vertices (b : Batch.t) (sprite : Sprite.t) :
  (Batch.instances b < MAX_SPRITES_PER_BATCH)%N ->
  length (Batch.vertices b) = capacity ->
  let i := N.to_nat (Batch.instances b * FLOATS_PER_SPRITE) in
  Batch.vertices (write_sprite rotate b sprite) =
    take i (Batch.vertices b) ++ quad rotate sprite ++
    drop (i + 32) (Batch.vertices b).
Proof.
  intros Hinst Hlen i.
  assert (Hi : (i + 32 <= capacity)%nat).
  { unfold i, capacity. change FLOATS_PER_SPRITE with 32%N.
    unfold MAX_SPRITES_PER_BATCH in *. lia. }
  cbn [write_sprite Batch.vertices].
  rewrite (store_run _ _ 0).
  - rewrite length_vertex_writes, Nat.add_0_r. by fold i.
  - rewrite length_vertex_writes. apply vertex_writes_offsets.
  - rewrite length_vertex_writes, Hlen. fold i. lia.
Qed.

(** The float at offset [o] of the slot of the sprite. *)
Lemma write_sprite_lookup (b : Batch.t) (sprite : Sprite.t) (o : nat) :
  (Batch.instances b < MAX_SPRITES_PER_BATCH)%N ->
  length (Batch.vertices b) = capacity ->
  (o < 32)%nat ->
  Batch.vertices (write_sprite rotate b sprite)
    !! (N.to_nat (Batch.instances b * FLOATS_PER_SPRITE) + o)%nat =
  quad rotate sprite !! o.
Proof.
  intros Hinst Hlen Ho.
  rewrite write_sprite_vertices by done. cbv zeta.
  set (i := N.to_nat (Batch.instances b * FLOATS_PER_SPRITE)).
  assert (Hi : (i + 32 <= capacity)%nat).
  { unfold i, capacity. change FLOATS_PER_SPRITE with 32%N.
    unfold MAX_SPRITES_PER_BATCH in *. lia. }
  assert (Ht : length (take i (Batch.vertices b)) = i)
    by (rewrite length_take; lia).
  rewrite lookup_app_r by lia. rewrite Ht.
  replace (i + o - i)%nat with o by lia.
  apply lookup_app_l. by rewrite length_quad.
Qed.

(** The slot of the sprite, as a whole. *)
Lemma write_sprite_slot (b : Batch.t) (sprite : Sprite.t) :
  (Batch.instances b < MAX_SPRITES_PER_BATCH)%N ->
  length (Batch.vertices b) = capacity ->
  take 32 (drop (32 * N.to_nat (Batch.instances b))
             (Batch.vertices (write_sprite rotate b sprite))) =
  quad rotate sprite.
Proof.
  intros Hinst Hlen.
  rewrite write_sprite_vertices by done. cbv zeta.
  change FLOATS_PER_SPRITE with 32%N.
  replace (N.to_nat (Batch.instances b * 32))
    with (32 * N.to_nat (Batch.instances b))%nat by lia.
  set (i := (32 * N.to_nat (Batch.instances b))%nat).
  assert (Hi : (i + 32 <= capacity)%nat).
  { unfold i, capacity. change FLOATS_PER_SPRITE with 32%N.
    unfold MAX_SPRITES_PER_BATCH in *. lia. }
  assert (Ht : length (take i (Batch.vertices b)) = i)
    by (rewrite length_take; lia).
  rewrite drop_app_ge by lia. rewrite Ht, Nat.sub_diag, drop_0.
  rewrite take_app_le by (rewrite length_quad; lia).
  apply take_ge. rewrite length_quad. lia.
Qed.

(** The other slots keep what they held. *)
Lemma write_sprite_elsewhere (b : Batch.t) (sprite : Sprite.t) (m : nat) :
  (Batch.instances b < MAX_SPRITES_PER_BATCH)%N ->
  length (Batch.vertices b) = capacity ->
  let i := N.to_nat (Batch.instances b * FLOATS_PER_SPRITE) in
  (m < i \/ i + 32 <= m)%nat ->
  Batch.vertices (write_sprite rotate b sprite) !! m =
  Batch.vertices b !! m.
Proof.
  intros Hinst Hlen i Hm.
  rewrite write_sprite_vertices by done. cbv zeta. fold i.
  assert (Hi : (i + 32 <= capacity)%nat).
  { unfold i, capacity. change FLOATS_PER_SPRITE with 32%N.
    unfold MAX_SPRITES_PER_BATCH in *. lia. }
  assert (Ht : length (take i (Batch.vertices b)) = i)
    by (rewrite length_take; lia).
  destruct Hm as [Hm|Hm].
  - rewrite lookup_app_l by lia. by rewrite lookup_take_lt.
  - rewrite lookup_app_r by lia. rewrite Ht.
    rewrite lookup_app_r by (rewrite length_quad; lia).
    rewrite length_quad, lookup_drop. f_equal. lia.
Qed.
End StoredFacts.

(** ** The batcher keeps its invariants *)

Section BatcherFacts.
Context {number : JsNumber}.
Variable rotate : Vec2 -> Vec2 -> num -> Vec2.

Lemma length_written (b : Batch.t) :
  length (Batch.vertices b) = capacity ->
  (Batch.instances b <= MAX_SPRITES_PER_BATCH)%N ->
  length (written b) = N.to_nat (Batch.instances b * FLOATS_PER_SPRITE).
Proof.
  intros Hlen Hle. unfold written. rewrite length_take, Hlen.
  unfold capacity. change FLOATS_PER_SPRITE with 32%N.
  unfold MAX_SPRITES_PER_BATCH in *. lia.
Qed.

Lemma new_batch_open (texture : Texture.t) :
  batch_open (Texture.id texture) (new_batch texture).
Proof.
  split; cbn [new_batch Batch.texture Batch.instances Batch.vertices].
  - done.
  - done.
  - unfold new_vertices. by rewrite length_replicate.
  - unfold written. cbn [Batch.instances Batch.vertices new_batch].
    change (N.to_nat (0 * FLOATS_PER_SPRITE)) with 0%nat.
    by rewrite take_0, Nat.sub_0_r.
Qed.

Lemma batch_ok_open k b :
  batch_ok k b ->
  Batch.instances b ≠ MAX_SPRITES_PER_BATCH ->
  batch_open k b.
Proof. intros [? [? ?] ? ?] Hne. split; [done|lia|done|done]. Qed.

(** Writing one sprite into a batch that is not full appends the floats
    of the sprite to the written slots. *)
Lemma write_sprite_spec k b sprite :
  batch_open k b ->
  batch_ok k (write_sprite rotate b sprite) /\
  Batch.instances (write_sprite rotate b sprite) =
    (Batch.instances b + 1)%N /\
  written (write_sprite rotate b sprite) =
    written b ++ quad rotate sprite.
Proof.
  intros [Htex Hinst Hlen Hrest].
  set (i := N.to_nat (Batch.instances b * FLOATS_PER_SPRITE)).
  assert (Hi : (i + 32 <= capacity)%nat).
  { unfold i, capacity. change FLOATS_PER_SPRITE with 32%N.
    unfold MAX_SPRITES_PER_BATCH in *. lia. }
  assert (Hw : length (written b) = i).
  { apply length_written; [done|lia]. }
  assert (Hv : Batch.vertices (write_sprite rotate b sprite) =
               written b ++ quad rotate sprite ++
               replicate (capacity - (i + 32)) zero).
  { cbn [write_sprite Batch.vertices].
    rewrite (store_run _ _ 0).
    - rewrite length_vertex_writes, Nat.add_0_r. fold i.
      unfold quad. do 2 f_equal.
      rewrite Hrest. fold i. rewrite <- Hw at 1.
      rewrite drop_app_add, drop_replicate. f_equal. lia.
    - rewrite length_vertex_writes. apply vertex_writes_offsets.
    - rewrite length_vertex_writes, Hlen. fold i. lia. }
  assert (Hi' : N.to_nat ((Batch.instances b + 1) * FLOATS_PER_SPRITE)
                = (i + 32)%nat).
  { unfold i. change FLOATS_PER_SPRITE with 32%N. lia. }
  assert (Hw' : written (write_sprite rotate b sprite) =
                written b ++ quad rotate sprite).
  { unfold written at 1. rewrite Hv.
    cbn [write_sprite Batch.instances]. rewrite Hi'.
    rewrite app_assoc. apply take_app_length'.
    rewrite length_app, Hw, length_quad. done. }
  split; [split|split].
  - done.
  - cbn [write_sprite Batch.instances]. lia.
  - rewrite Hv, !length_app, Hw, length_quad, length_replicate. lia.
  - rewrite Hw'. rewrite Hv at 1. rewrite <- app_assoc.
    cbn [write_sprite Batch.instances]. by rewrite Hi'.
  - done.
  - done.
Qed.
End BatcherFacts.

Section BatchingFacts.
Context {number : JsNumber}.
Variable rotate : Vec2 -> Vec2 -> num -> Vec2.

Lemma with_texture_snoc k sprites sprite :
  with_texture k (sprites ++ [sprite]) =
  if decide (texture_of sprite = k)
  then with_texture k sprites ++ [sprite]
  else with_texture k sprites.
Proof.
  unfold with_texture. rewrite filter_app.
  destruct (decide (texture_of sprite = k)) as [Heq|Hne].
  - by rewrite filter_cons_True, filter_nil.
  - by rewrite filter_cons_False, filter_nil, app_nil_r.
Qed.

Lemma with_texture_absent k sprites :
  k ∉ map texture_of sprites -> with_texture k sprites = [].
Proof.
  induction sprites as [|s sprites IH]; [done|].
  cbn [map]. intros [Hne Hnin]%not_elem_of_cons.
  unfold with_texture. rewrite filter_cons_False by congruence.
  by apply IH.
Qed.

Lemma batchMap_batch_sprite s sprite :
  batchMap (batch_sprite rotate s sprite) =
  let batches :=
    default [] (JsMap.get (batchMap s) (texture_of sprite)) in
  let eb := current_batch (Sprite.texture sprite) batches in
  JsMap.set (batchMap s) (texture_of sprite)
    (eb.1 ++ [write_sprite rotate eb.2 sprite]).
Proof.
  unfold batch_sprite, texture_of.
  destruct (groups s !! _);
    destruct (JsMap.get (batchMap s) _); cbn [default];
    destruct (current_batch _ _); reflexivity.
Qed.

(** The batch that takes the next sprite, when the texture has no batch
    yet. *)
Lemma current_batch_first sprite :
  let eb := current_batch (Sprite.texture sprite) [] in
  batches_ok rotate (texture_of sprite) [sprite]
    (eb.1 ++ [write_sprite rotate eb.2 sprite]).
Proof.
  cbn [current_batch last fst snd app].
  destruct (write_sprite_spec rotate _ _ sprite
              (new_batch_open (Sprite.texture sprite))) as (Hok & _ & Hw).
  exists [], (write_sprite rotate (new_batch (Sprite.texture sprite)) sprite).
  split_and!; [done|constructor|done|].
  cbn [map concat]. rewrite Hw, !app_nil_r.
  unfold written. cbn [new_batch Batch.instances].
  change (N.to_nat (0 * FLOATS_PER_SPRITE)) with 0%nat.
  by rewrite take_0.
Qed.

(** The batch that takes the next sprite, when the texture has batches
    already. *)
Lemma current_batch_next sprite sprites batches :
  batches_ok rotate (texture_of sprite) sprites batches ->
  let eb := current_batch (Sprite.texture sprite) batches in
  batches_ok rotate (texture_of sprite) (sprites ++ [sprite])
    (eb.1 ++ [write_sprite rotate eb.2 sprite]).
Proof.
  intros (full & cur & -> & Hfull & Hcur & Hdata).
  unfold current_batch. rewrite last_snoc.
  destruct (decide (Batch.instances cur = MAX_SPRITES_PER_BATCH))
    as [Hmax|Hne]; cbn [fst snd].
  - destruct (write_sprite_spec rotate _ _ sprite
                (new_batch_open (Sprite.texture sprite)))
      as (Hok & _ & Hw).
    eexists (full ++ [cur]), _. split_and!; [done| |done|].
    + apply Forall_app. split; [done|]. by constructor.
    + rewrite map_app, concat_app, Hdata, map_app, concat_app. f_equal.
      cbn [map concat]. rewrite Hw, !app_nil_r.
      unfold written. cbn [new_batch Batch.instances].
      change (N.to_nat (0 * FLOATS_PER_SPRITE)) with 0%nat.
      by rewrite take_0.
  - rewrite removelast_last.
    destruct (write_sprite_spec rotate _ _ sprite
                (batch_ok_open _ _ Hcur Hne)) as (Hok & _ & Hw).
    eexists full, _. split_and!; [done|done|done|].
    rewrite !map_app, !concat_app in *. cbn [map concat] in *.
    rewrite Hw, !app_nil_r in *. by rewrite app_assoc, Hdata.
Qed.

Lemma batch_sprite_ok sprites s sprite :
  batchMap_ok rotate sprites (batchMap s) ->
  batchMap_ok rotate (sprites ++ [sprite])
    (batchMap (batch_sprite rotate s sprite)).
Proof.
  intros [Hkeys Hget]. rewrite batchMap_batch_sprite. cbv zeta.
  set (k := texture_of sprite).
  destruct (JsMap.get (batchMap s) k) as [batches|] eqn:Hk; cbn [default].
  - assert (Hin : k ∈ JsMap.keys (batchMap s)).
    { destruct (decide (k ∈ JsMap.keys (batchMap s))) as [|Hn]; [done|].
      apply get_None in Hn. congruence. }
    split.
    + rewrite keys_set_present by done.
      rewrite map_app. cbn [map]. rewrite distinct_snoc. fold k.
      rewrite decide_True; [done|].
      apply elem_of_distinct. by rewrite <- Hkeys.
    + intros k' bs. rewrite with_texture_snoc. fold k.
      destruct (decide (k = k')) as [<-|Hne].
      * rewrite get_set_eq. intros [= <-].
        apply current_batch_next. by apply Hget.
      * rewrite get_set_ne by done. apply Hget.
  - assert (Hnin : k ∉ JsMap.keys (batchMap s)) by by apply get_None.
    split.
    + rewrite keys_set_absent by done.
      rewrite map_app. cbn [map]. rewrite distinct_snoc. fold k.
      rewrite decide_False; [by rewrite Hkeys|].
      rewrite <- elem_of_distinct. by rewrite <- Hkeys.
    + intros k' bs. rewrite with_texture_snoc. fold k.
      destruct (decide (k = k')) as [<-|Hne].
      * rewrite get_set_eq. intros [= <-].
        rewrite with_texture_absent.
        -- apply current_batch_first.
        -- rewrite <- elem_of_distinct. by rewrite <- Hkeys.
      * rewrite get_set_ne by done. apply Hget.
Qed.

Lemma fold_batch_sprite_ok sprites :
  forall sprites0 s,
    batchMap_ok rotate sprites0 (batchMap s) ->
    batchMap_ok rotate (sprites0 ++ sprites)
      (batchMap (fold_left (batch_sprite rotate) sprites s)).
Proof.
  induction sprites as [|sprite sprites IH]; intros sprites0 s Hok.
  - by rewrite app_nil_r.
  - cbn [fold_left].
    replace (sprites0 ++ sprite :: sprites)
      with ((sprites0 ++ [sprite]) ++ sprites)
      by (by rewrite <- app_assoc).
    apply IH. by apply batch_sprite_ok.
Qed.

(** The batches of a frame, described. *)
Lemma batching_ok p sprites :
  batchMap_ok rotate sprites (batchMap (batching rotate p sprites)).
Proof.
  apply (fold_batch_sprite_ok sprites []).
  split; [done|]. intros k bs. cbn. done.
Qed.
End BatchingFacts.

(** ** How many batches a texture gets *)

Section CountFacts.
Context {number : JsNumber}.
Variable rotate : Vec2 -> Vec2 -> num -> Vec2.

Lemma length_concat_quad sprites :
  length (concat (map (quad rotate) sprites)) = (32 * length sprites)%nat.
Proof.
  induction sprites as [|s sprites IH]; [done|].
  cbn [map concat length]. rewrite length_app, length_quad, IH. lia.
Qed.

Lemma length_concat_full k (full : list Batch.t) :
  Forall (fun b => batch_ok k b /\
                   Batch.instances b = MAX_SPRITES_PER_BATCH) full ->
  length (concat (map written full)) = (capacity * length full)%nat.
Proof.
  induction 1 as [|b full [Hok Hmax] _ IH]; [cbn; lia|].
  cbn [map concat length]. rewrite length_app, IH.
  rewrite length_written; [|apply Hok|rewrite Hmax; lia].
  rewrite Hmax. fold capacity. lia.
Qed.

(** The sprites of a texture fill all the batches but the last. *)
Lemma batches_ok_count k sprites full current :
  batches_ok rotate k sprites (full ++ [current]) ->
  Forall (fun b => Batch.instances b = MAX_SPRITES_PER_BATCH) full /\
  N.of_nat (length sprites) =
    (MAX_SPRITES_PER_BATCH * N.of_nat (length full) +
     Batch.instances current)%N /\
  (1 <= Batch.instances current <= MAX_SPRITES_PER_BATCH)%N.
Proof.
  intros (full' & cur' & Heq & Hfull & Hcur & Hdata).
  apply app_inj_tail in Heq as [<- <-].
  split_and!.
  - eapply Forall_impl; [exact Hfull|]. by intros b [_ ?].
  - apply (f_equal length) in Hdata.
    rewrite map_app, concat_app, length_app in Hdata.
    rewrite (length_concat_full k), length_concat_quad in Hdata by done.
    cbn [map concat] in Hdata. rewrite app_nil_r in Hdata.
    rewrite length_written in Hdata; [|apply Hcur..].
    destruct Hcur as [_ [? ?] _ _].
    unfold capacity in Hdata. change FLOATS_PER_SPRITE with 32%N in Hdata.
    unfold MAX_SPRITES_PER_BATCH in *. lia.
  - apply Hcur.
  - apply Hcur.
Qed.

Lemma ceil_div_batches (n full cur : N) :
  (n = MAX_SPRITES_PER_BATCH * full + cur)%N ->
  (1 <= cur <= MAX_SPRITES_PER_BATCH)%N ->
  ceil_div n MAX_SPRITES_PER_BATCH = (full + 1)%N.
Proof.
  intros -> [H1 H2]. unfold ceil_div. symmetry.
  apply (N.div_unique _ _ _ (cur - 1)); unfold MAX_SPRITES_PER_BATCH in *;
    lia.
Qed.

Lemma batches_ok_length k sprites batches :
  batches_ok rotate k sprites batches ->
  N.of_nat (length batches) =
  ceil_div (N.of_nat (length sprites)) MAX_SPRITES_PER_BATCH.
Proof.
  intros Hok. pose proof Hok as (full & cur & -> & _).
  apply batches_ok_count in Hok as (_ & Hn & Hcur).
  rewrite (ceil_div_batches _ _ _ Hn Hcur), length_app. cbn [length]. lia.
Qed.

Lemma get_Some_NoDup {V} (m : JsMap.t V) k v :
  NoDup (JsMap.keys m) -> (k, v) ∈ m -> JsMap.get m k = Some v.
Proof.
  induction m as [|[k' v'] m IH]; cbn [JsMap.keys map fst JsMap.get].
  - by intros _ ?%elem_of_nil.
  - intros [Hnin Hnd]%NoDup_cons [[= -> ->]|Hin]%elem_of_cons.
    + by rewrite decide_True.
    + rewrite decide_False; [by apply IH|].
      intros ->. apply Hnin.
      apply list_elem_of_fmap. by exists (k, v).
Qed.

(** The number of batches of a frame. *)
Lemma batchMap_ok_length sprites m :
  batchMap_ok rotate sprites m ->
  N.of_nat (length (drawn m)) =
  sum_N
    (map (fun k => ceil_div (count_for k sprites) MAX_SPRITES_PER_BATCH)
       (distinct (map texture_of sprites))).
Proof.
  intros [Hkeys Hget]. rewrite <- Hkeys.
  assert (Hnd : NoDup (JsMap.keys m))
    by (rewrite Hkeys; apply NoDup_distinct).
  assert (Hall : forall k bs, (k, bs) ∈ m ->
            N.of_nat (length bs) =
            ceil_div (count_for k sprites) MAX_SPRITES_PER_BATCH).
  { intros k bs Hin. apply (batches_ok_length k). apply Hget.
    by apply get_Some_NoDup. }
  clear Hkeys Hget Hnd. unfold drawn, JsMap.values, JsMap.keys.
  induction m as [|[k bs] m IH]; [done|].
  unfold sum_N in *. cbn [map concat foldr fst snd].
  rewrite length_app, Nat2N.inj_add.
  rewrite IH by (intros; apply Hall; by right).
  f_equal. apply Hall. by left.
Qed.

(** The textures of the batches of a frame, in the order of the draw
    loops. *)
Lemma batchMap_ok_textures sprites m :
  batchMap_ok rotate sprites m ->
  map (fun b => Texture.id (Batch.texture b)) (drawn m) =
  concat
    (map (fun k =>
            replicate
              (N.to_nat
                 (ceil_div (count_for k sprites) MAX_SPRITES_PER_BATCH)) k)
       (distinct (map texture_of sprites))).
Proof.
  intros [Hkeys Hget]. rewrite <- Hkeys.
  assert (Hnd : NoDup (JsMap.keys m))
    by (rewrite Hkeys; apply NoDup_distinct).
  assert (Hall : forall k bs, (k, bs) ∈ m ->
            batches_ok rotate k (with_texture k sprites) bs).
  { intros k bs Hin. apply Hget. by apply get_Some_NoDup. }
  clear Hkeys Hget Hnd. unfold drawn, JsMap.values, JsMap.keys.
  induction m as [|[k bs] m IH]; [done|].
  cbn [map concat fst snd]. rewrite map_app.
  rewrite IH by (intros; apply Hall; by right).
  f_equal.
  assert (Hok : batches_ok rotate k (with_texture k sprites) bs)
    by (apply Hall; by left).
  unfold count_for. rewrite <- (batches_ok_length _ _ _ Hok), Nat2N.id.
  destruct Hok as (full & cur & -> & Hfull & Hcur & _).
  assert (Hk : Forall (fun b => Texture.id (Batch.texture b) = k)
                 (full ++ [cur])).
  { apply Forall_app. split.
    - eapply Forall_impl; [exact Hfull|]. intros b [Hb _]. apply Hb.
    - constructor; [apply Hcur|constructor]. }
  clear Hfull Hcur IH Hall. revert Hk. generalize (full ++ [cur]).
  intros l Hk. induction Hk as [|b l Hb _ IHl]; [done|].
  cbn [map length replicate]. by rewrite Hb, IHl.
Qed.
End CountFacts.

(** ** The bind-group cache *)

Section CacheFacts.
Context {number : JsNumber}.
Variable rotate : Vec2 -> Vec2 -> num -> Vec2.

Lemma groups_batch_sprite s sprite :
  let k := texture_of sprite in
  let s' := batch_sprite rotate s sprite in
  match groups s !! k with
  | Some _ =>
      groups s' = groups s /\ groupCount s' = groupCount s /\
      created s' = created s
  | None =>
      groups s' = <[k := TextureBindGroup (groupCount s) k]> (groups s) /\
      groupCount s' = S (groupCount s) /\
      created s' =
        created s ++
        [ createView (TextureOf k);
          createBindGroup (TextureBindGroup (groupCount s) k) ]
  end.
Proof.
  cbv zeta. unfold batch_sprite, texture_of.
  destruct (groups s !! _); destruct (current_batch _ _); done.
Qed.

(** An entry of the cache is never removed or replaced. *)
Lemma batch_sprite_keeps s sprite k g :
  groups s !! k = Some g ->
  groups (batch_sprite rotate s sprite) !! k = Some g.
Proof.
  intros Hk. pose proof (groups_batch_sprite s sprite) as H.
  cbv zeta in H.
  destruct (groups s !! texture_of sprite) eqn:Ht.
  - destruct H as (-> & _). done.
  - destruct H as (-> & _). rewrite lookup_insert_ne; [done|congruence].
Qed.

Lemma batch_sprite_registers s sprite :
  is_Some (groups (batch_sprite rotate s sprite) !! texture_of sprite).
Proof.
  pose proof (groups_batch_sprite s sprite) as H. cbv zeta in H.
  destruct (groups s !! texture_of sprite) eqn:Ht.
  - destruct H as (-> & _). by rewrite Ht.
  - destruct H as (-> & _). by rewrite lookup_insert_eq.
Qed.

Lemma batch_sprite_only s sprite k :
  groups (batch_sprite rotate s sprite) !! k = None <->
  groups s !! k = None /\ texture_of sprite ≠ k.
Proof.
  pose proof (groups_batch_sprite s sprite) as H. cbv zeta in H.
  destruct (groups s !! texture_of sprite) eqn:Ht.
  - destruct H as (-> & _). split; [|tauto].
    intros Hk. split; [done|]. intros <-. congruence.
  - destruct H as (-> & _). rewrite lookup_insert_None. tauto.
Qed.

Lemma batch_sprite_cache_ok s sprite :
  cache_ok (groups s) ->
  cache_ok (groups (batch_sprite rotate s sprite)).
Proof.
  intros Hok. pose proof (groups_batch_sprite s sprite) as H.
  cbv zeta in H.
  destruct (groups s !! texture_of sprite) eqn:Ht.
  - destruct H as (-> & _). done.
  - destruct H as (-> & _). intros k g.
    rewrite lookup_insert. destruct (decide (texture_of sprite = k)) as [<-|].
    + intros [= <-]. by eexists.
    + apply Hok.
Qed.

Lemma batch_sprite_created s sprite k :
  length (bind_groups_created k (created (batch_sprite rotate s sprite))) =
  (length (bind_groups_created k (created s)) +
   if decide (texture_of sprite = k /\ groups s !! k = None)
   then 1 else 0)%nat.
Proof.
  pose proof (groups_batch_sprite s sprite) as H. cbv zeta in H.
  destruct (groups s !! texture_of sprite) eqn:Ht.
  - destruct H as (_ & _ & ->).
    rewrite decide_False; [lia|]. intros [<- ?]. congruence.
  - destruct H as (_ & _ & ->). unfold bind_groups_created.
    rewrite omap_app, length_app. f_equal. cbn [omap list_omap].
    assert (texture_of sprite = k \/ texture_of sprite ≠ k) as [<-|Hne]
      by (destruct (decide (texture_of sprite = k)); tauto).
    + rewrite decide_True by done. by rewrite decide_True by done.
    + rewrite decide_False by done. by rewrite decide_False by tauto.
Qed.

Lemma fold_keeps sprites s k g :
  groups s !! k = Some g ->
  groups (fold_left (batch_sprite rotate) sprites s) !! k = Some g.
Proof.
  revert s. induction sprites as [|sprite l IH]; intros s Hk; [done|].
  cbn [fold_left]. apply IH. by apply batch_sprite_keeps.
Qed.

Lemma fold_registers sprites s k :
  k ∈ map texture_of sprites ->
  is_Some (groups (fold_left (batch_sprite rotate) sprites s) !! k).
Proof.
  revert s. induction sprites as [|sprite l IH]; intros s.
  - by intros ?%elem_of_nil.
  - cbn [map fold_left]. intros [->|Hin]%elem_of_cons.
    + destruct (batch_sprite_registers s sprite) as [g Hg].
      exists g. by apply fold_keeps.
    + by apply IH.
Qed.

Lemma fold_only sprites s k :
  groups (fold_left (batch_sprite rotate) sprites s) !! k = None <->
  groups s !! k = None /\ k ∉ map texture_of sprites.
Proof.
  revert s. induction sprites as [|sprite l IH]; intros s.
  - cbn [fold_left map]. split; [|tauto].
    intros ?. split; [done|apply not_elem_of_nil].
  - cbn [fold_left map]. rewrite IH, batch_sprite_only, not_elem_of_cons.
    split; [intros [[? ?] ?]|intros [? [? ?]]]; split_and!; congruence.
Qed.

Lemma fold_cache_ok sprites s :
  cache_ok (groups s) ->
  cache_ok (groups (fold_left (batch_sprite rotate) sprites s)).
Proof.
  revert s. induction sprites as [|sprite l IH]; intros s Hok; [done|].
  cbn [fold_left]. apply IH. by apply batch_sprite_cache_ok.
Qed.

Lemma fold_only_creates sprites s :
  only_creates (created s) ->
  only_creates (created (fold_left (batch_sprite rotate) sprites s)).
Proof.
  revert s. induction sprites as [|sprite l IH]; intros s Hok; [done|].
  cbn [fold_left]. apply IH.
  pose proof (groups_batch_sprite s sprite) as H. cbv zeta in H.
  destruct (groups s !! texture_of sprite).
  - destruct H as (_ & _ & ->). done.
  - destruct H as (_ & _ & ->). apply Forall_app. split; [done|].
    constructor; [right; by eexists|].
    constructor; [left; by eexists|constructor].
Qed.

Lemma only_creates_projections log :
  only_creates log ->
  draw_counts log = [] /\ uploads log = [] /\ buffers_created log = [] /\
  bound_vertex_buffers log = [] /\ bound_textures log = [].
Proof.
  induction 1 as [|c log [[g ->]|[t ->]] _ IH]; [done| |].
  all: destruct IH as (? & ? & ? & ? & ?).
  all: unfold draw_counts, uploads, buffers_created, bound_vertex_buffers,
         bound_textures in *.
  all: cbn [omap list_omap]; done.
Qed.

(** While the sprites of one call are batched, a bind group is created
    for a texture exactly when the texture occurs and was not cached. *)
Lemma fold_created sprites s k :
  length (bind_groups_created k
            (created (fold_left (batch_sprite rotate) sprites s))) =
  (length (bind_groups_created k (created s)) +
   if decide (k ∈ map texture_of sprites /\ groups s !! k = None)
   then 1 else 0)%nat.
Proof.
  revert s. induction sprites as [|sprite l IH]; intros s.
  - cbn [fold_left map]. rewrite decide_False; [lia|].
    intros [?%elem_of_nil _]. done.
  - cbn [fold_left map]. rewrite IH, batch_sprite_created.
    rewrite <- Nat.add_assoc. f_equal.
    destruct (decide (texture_of sprite = k)) as [<-|Hne].
    + destruct (groups s !! texture_of sprite) eqn:Hk.
      * rewrite !decide_False; [done|intros [_ ?]; done| |intros [_ ?]; done].
        intros [_ Hn]. apply batch_sprite_only in Hn as [? _]. congruence.
      * rewrite (decide_True (P := _ = _ /\ _)) by done.
        rewrite decide_False.
        -- rewrite decide_True; [done|]. split; [|done]. by left.
        -- intros [_ Hn]. apply batch_sprite_only in Hn as [_ ?]. done.
    + rewrite (decide_False (P := _ = _ /\ _)) by tauto.
      destruct (decide (k ∈ map texture_of l /\ groups s !! k = None))
        as [[Hin Hk]|Hn].
      * rewrite !decide_True; [done| |].
        -- split; [by right|done].
        -- split; [done|]. apply batch_sprite_only. done.
      * rewrite !decide_False; [done| |].
        -- rewrite elem_of_cons. intros [[?|?] ?]; [congruence|tauto].
        -- rewrite batch_sprite_only. tauto.
Qed.
(** The same facts for the batcher as the render pass starts it. *)
Lemma batching_keeps p sprites k g :
  textureBindGroups p !! k = Some g ->
  groups (batching rotate p sprites) !! k = Some g.
Proof. intros Hk. by apply fold_keeps. Qed.

Lemma batching_only p sprites k :
  groups (batching rotate p sprites) !! k = None <->
  textureBindGroups p !! k = None /\ k ∉ map texture_of sprites.
Proof. apply fold_only. Qed.

Lemma batching_cache_ok p sprites :
  cache_ok (textureBindGroups p) ->
  cache_ok (groups (batching rotate p sprites)).
Proof. intros Hok. by apply fold_cache_ok. Qed.
End CacheFacts.

(** ** The draw loops *)

Section LoopFacts.
Context {A S : Type}.
Implicit Types (body : S -> A -> Completion * S).

Lemma for_of_app body (l1 l2 : list A) (s : S) :
  for_of body (l1 ++ l2) s =
  match for_of body l1 s with
  | (Normal, s') => for_of body l2 s'
  | (Throw e, s') => (Throw e, s')
  end.
Proof.
  revert s. induction l1 as [|a l1 IH]; intros s; [done|].
  cbn [app for_of]. destruct (body s a) as [[|e] s']; [apply IH|done].
Qed.

Lemma for_of_concat body (ls : list (list A)) (s : S) :
  for_of (fun s l => for_of body l s) ls s = for_of body (concat ls) s.
Proof.
  revert s. induction ls as [|l ls IH]; intros s; [done|].
  cbn [for_of concat]. rewrite for_of_app.
  destruct (for_of body l s) as [[|e] s']; [apply IH|done].
Qed.
End LoopFacts.

Section ArrayFacts.
Context {A : Type}.

Lemma array_pop_nil : array_pop (@nil A) = (None, []).
Proof. done. Qed.

Lemma array_pop_snoc (l : list A) (a : A) :
  array_pop (l ++ [a]) = (Some a, l).
Proof. unfold array_pop. by rewrite last_snoc, removelast_last. Qed.

Lemma fold_array_push (used l : list A) :
  fold_left array_push used l = l ++ used.
Proof.
  revert l. induction used as [|a used IH]; intros l.
  - by rewrite app_nil_r.
  - cbn [fold_left]. rewrite IH. unfold array_push.
    by rewrite <- app_assoc.
Qed.

Lemma snoc_cases (l : list A) : l = [] \/ exists l' a, l = l' ++ [a].
Proof.
  destruct l as [|a l] using rev_ind; [by left|right]. by exists l, a.
Qed.
End ArrayFacts.

Section DrawFacts.
Context {number : JsNumber}.

Lemma taken_nil_pool count n : taken [] count n = seq count n.
Proof. unfold taken. cbn. by rewrite drop_nil, Nat.sub_0_r. Qed.

Lemma taken_zero buffers count : taken buffers count 0 = [].
Proof.
  unfold taken. rewrite Nat.sub_0_r, drop_all. done.
Qed.

Lemma taken_snoc buffers b count n :
  taken (buffers ++ [b]) count (S n) = b :: taken buffers count n.
Proof.
  unfold taken. rewrite length_app. cbn [length].
  replace (length buffers + 1 - S n)%nat with (length buffers - n)%nat
    by lia.
  replace (S n - (length buffers + 1))%nat with (n - length buffers)%nat
    by lia.
  rewrite drop_app_le by lia. by rewrite rev_app_distr.
Qed.

Lemma taken_alloc count n :
  taken [] count (S n) = count :: taken [] (S count) n.
Proof. by rewrite !taken_nil_pool. Qed.

Variable cache : gmap positive GPUBindGroup.

(** What the draw loops do when every batch finds its bind group. *)
Lemma draw_batches_spec (batches : list Batch.t) :
  forall d : Drawing,
    (forall b, b ∈ batches ->
               is_Some (cache !! Texture.id (Batch.texture b))) ->
    exists d',
      for_of (draw_batch cache) batches d = (Normal, d') /\
      pool d' = take (length (pool d) - length batches) (pool d) /\
      bufferCount d' =
        (bufferCount d + (length batches - length (pool d)))%nat /\
      usedVertexBuffers d' =
        usedVertexBuffers d ++
        taken (pool d) (bufferCount d) (length batches) /\
      draw_counts (encoded d') =
        draw_counts (encoded d) ++
        map (fun b => (6 * Batch.instances b)%N) batches /\
      uploads (encoded d') =
        uploads (encoded d) ++ map Batch.vertices batches /\
      buffers_created (encoded d') =
        buffers_created (encoded d) ++
        seq (bufferCount d) (length batches - length (pool d)) /\
      bound_vertex_buffers (encoded d') =
        bound_vertex_buffers (encoded d) ++
        taken (pool d) (bufferCount d) (length batches) /\
      (forall k, bind_groups_created k (encoded d') =
                 bind_groups_created k (encoded d)) /\
      (cache_ok cache ->
         bound_textures (encoded d') =
         bound_textures (encoded d) ++
         map (fun b => Texture.id (Batch.texture b)) batches).
Proof.
  induction batches as [|b batches IH]; intros d Hcache.
  - exists d. cbn [for_of length map]. rewrite Nat.sub_0_r, take_ge by lia.
    rewrite taken_zero, !app_nil_r. split_and!; (done || lia).
  - destruct (Hcache b) as [g Hg]; [by left|].
    assert (Hrest : forall b', b' ∈ batches ->
              is_Some (cache !! Texture.id (Batch.texture b')))
      by (intros; apply Hcache; by right).
    cbn [for_of]. unfold draw_batch at 1.
    destruct (snoc_cases (pool d)) as [Hp|(buffers & v & Hp)]; rewrite Hp.
    + rewrite array_pop_nil, Hg.
      match goal with |- context [for_of _ _ ?d1] =>
        destruct (IH d1 Hrest)
          as (d' & Hrun & Hpool & Hcount & Hused & Hdraw & Hup & Hnew &
              Hvb & Hbg & Htex)
      end.
      cbn [pool bufferCount usedVertexBuffers encoded] in *.
      exists d'. rewrite Hrun, Hpool, Hcount, Hused, Hdraw, Hup, Hnew, Hvb.
      unfold draw_counts, uploads, buffers_created, bound_vertex_buffers,
        array_push.
      rewrite !omap_app. cbn [omap list_omap length map].
      rewrite !app_nil_r, taken_alloc, !Nat.sub_0_r, take_nil.
      rewrite <- !app_assoc. cbn [app seq].
      split_and!; try done.
      * lia.
      * intros k. rewrite Hbg. unfold bind_groups_created.
        rewrite !omap_app. cbn [omap list_omap]. by rewrite !app_nil_r.
      * intros Hok. rewrite (Htex Hok). unfold bound_textures.
        rewrite !omap_app. cbn [omap list_omap].
        destruct (Hok _ _ Hg) as (i & ->).
        rewrite <- !app_assoc. by cbn [app].
    + rewrite array_pop_snoc, Hg.
      match goal with |- context [for_of _ _ ?d1] =>
        destruct (IH d1 Hrest)
          as (d' & Hrun & Hpool & Hcount & Hused & Hdraw & Hup & Hnew &
              Hvb & Hbg & Htex)
      end.
      cbn [pool bufferCount usedVertexBuffers encoded] in *.
      exists d'. rewrite Hrun, Hpool, Hcount, Hused, Hdraw, Hup, Hnew, Hvb.
      unfold draw_counts, uploads, buffers_created, bound_vertex_buffers,
        array_push.
      rewrite !omap_app. cbn [omap list_omap length map].
      rewrite !app_nil_r, taken_snoc, length_app.
      rewrite <- !app_assoc. cbn [app length].
      replace (length buffers + 1 - S (length batches))%nat
        with (length buffers - length batches)%nat by lia.
      replace (S (length batches) - (length buffers + 1))%nat
        with (length batches - length buffers)%nat by lia.
      rewrite take_app_le by lia.
      split_and!; try done.
      * intros k. rewrite Hbg. unfold bind_groups_created.
        rewrite !omap_app. cbn [omap list_omap]. by rewrite !app_nil_r.
      * intros Hok. rewrite (Htex Hok). unfold bound_textures.
        rewrite !omap_app. cbn [omap list_omap].
        destruct (Hok _ _ Hg) as (i & ->).
        rewrite <- !app_assoc. by cbn [app].
Qed.
End DrawFacts.

(** ** One call of the render pass *)

Section RenderFacts.
Context {number : JsNumber}.
Variable rotate : Vec2 -> Vec2 -> num -> Vec2.

Lemma drawn_batch_ok sprites m b :
  batchMap_ok rotate sprites m ->
  b ∈ drawn m ->
  exists k, k ∈ map texture_of sprites /\ batch_ok k b.
Proof.
  intros [Hkeys Hget] Hin.
  apply list_elem_of_In, in_concat in Hin as (bs & Hbs & Hb).
  apply in_map_iff in Hbs as ([k bs'] & Heq & Hm). cbn in Heq. subst bs'.
  apply list_elem_of_In in Hm, Hb.
  exists k. split.
  - apply elem_of_distinct. rewrite <- Hkeys.
    apply list_elem_of_fmap. by exists (k, bs).
  - assert (Hnd : NoDup (JsMap.keys m))
      by (rewrite Hkeys; apply NoDup_distinct).
    destruct (Hget k bs (get_Some_NoDup m k bs Hnd Hm))
      as (full & cur & -> & Hfull & Hcur & _).
    apply elem_of_app in Hb as [Hb|Hb].
    + rewrite Forall_forall in Hfull. by apply Hfull in Hb as [? _].
    + apply list_elem_of_singleton in Hb. by subst.
Qed.

(** Every batch of a frame finds its bind group in the cache. *)
Lemma drawn_registered p sprites b :
  b ∈ drawn (batchMap (batching rotate p sprites)) ->
  is_Some (groups (batching rotate p sprites)
           !! Texture.id (Batch.texture b)).
Proof.
  intros Hb.
  destruct (drawn_batch_ok sprites _ b (batching_ok rotate p sprites) Hb)
    as (k & Hk & [<- _ _ _]).
  by apply fold_registers.
Qed.

(** The state and the calls of one call of the render pass. *)
Lemma renderPass_spec p sprites :
  let B := batching rotate p sprites in
  let batches := drawn (batchMap B) in
  let n := length batches in
  exists log,
    renderPass rotate p sprites =
      (Normal,
       {| vertexBuffers :=
            take (length (vertexBuffers p) - n) (vertexBuffers p) ++
            taken (vertexBuffers p) (vertexBufferCount p) n;
          textureBindGroups := groups B;
          vertexBufferCount :=
            vertexBufferCount p + (n - length (vertexBuffers p));
          bindGroupCount := groupCount B |},
       log) /\
    draw_counts log = map (fun b => (6 * Batch.instances b)%N) batches /\
    uploads log = map Batch.vertices batches /\
    buffers_created log =
      seq (vertexBufferCount p) (n - length (vertexBuffers p)) /\
    bound_vertex_buffers log =
      taken (vertexBuffers p) (vertexBufferCount p) n /\
    (forall k,
       length (bind_groups_created k log) =
       if decide (k ∈ map texture_of sprites /\
                  textureBindGroups p !! k = None)
       then 1%nat else 0%nat) /\
    (cache_ok (textureBindGroups p) ->
     bound_textures log =
     map (fun b => Texture.id (Batch.texture b)) batches).
Proof.
  intros B batches n. unfold renderPass. fold B.
  unfold draw. rewrite for_of_concat. fold (drawn (batchMap B)).
  fold batches.
  match goal with |- context [for_of _ _ ?d0] =>
    destruct (draw_batches_spec (groups B) batches d0)
      as (d & Hrun & Hpool & Hcount & Hused & Hdraw & Hup & Hnew &
          Hvb & Hbg & Htex)
  end.
  { intros b Hb. by apply drawn_registered. }
  cbn [pool bufferCount usedVertexBuffers encoded] in *.
  rewrite Hrun. eexists. split.
  { rewrite fold_array_push, Hpool, Hcount, Hused. reflexivity. }
  assert (Hcreated : forall k,
            length (bind_groups_created k
                      (encoded d ++ [endPass; finish; submit])) =
            if decide (k ∈ map texture_of sprites /\
                       textureBindGroups p !! k = None)
            then 1%nat else 0%nat).
  { intros k. unfold bind_groups_created at 1. rewrite omap_app.
    cbn [omap list_omap]. rewrite app_nil_r.
    fold (bind_groups_created k (encoded d)). rewrite Hbg.
    unfold bind_groups_created at 1. rewrite omap_app.
    cbn [omap list_omap]. rewrite app_nil_r.
    apply (fold_created rotate sprites
             {| groups := textureBindGroups p;
                groupCount := bindGroupCount p;
                batchMap := []; created := [] |} k). }
  clear Hbg.
  assert (Hc : only_creates (created B))
    by (apply fold_only_creates; constructor).
  apply only_creates_projections in Hc as (Hc1 & Hc2 & Hc3 & Hc4 & Hc5).
  unfold draw_counts, uploads, buffers_created, bound_vertex_buffers,
    bound_textures in *.
  rewrite !omap_app in *. cbn [omap list_omap] in *.
  rewrite !app_nil_r in *.
  rewrite Hc1 in Hdraw. rewrite Hc2 in Hup. rewrite Hc3 in Hnew.
  rewrite Hc4 in Hvb. rewrite Hc5 in Htex.
  split_and!; try done.
  intros Hok. apply Htex. by apply fold_cache_ok.
Qed.
End RenderFacts.

(** ** Across calls *)

Section FrameFacts.
Context {number : JsNumber}.
Variable rotate : Vec2 -> Vec2 -> num -> Vec2.

(** The batches of a call do not depend on the state of the closure. *)
Lemma fold_batchMap_independent sprites :
  forall s s',
    batchMap s = batchMap s' ->
    batchMap (fold_left (batch_sprite rotate) sprites s) =
    batchMap (fold_left (batch_sprite rotate) sprites s').
Proof.
  induction sprites as [|sprite l IH]; intros s s' Heq; [done|].
  cbn [fold_left]. apply IH. rewrite !batchMap_batch_sprite.
  by rewrite Heq.
Qed.

Lemma batchMap_independent p p' sprites :
  batchMap (batching rotate p sprites) =
  batchMap (batching rotate p' sprites).
Proof. by apply fold_batchMap_independent. Qed.

Lemma length_taken buffers count n :
  length (taken buffers count n) = n.
Proof.
  unfold taken. rewrite length_app, length_rev, length_drop, length_seq.
  lia.
Qed.

Lemma taken_Permutation buffers count n :
  take (length buffers - n) buffers ++ taken buffers count n ≡ₚ
  buffers ++ seq count (n - length buffers).
Proof.
  unfold taken. rewrite app_assoc. apply Permutation_app_tail.
  transitivity (take (length buffers - n) buffers ++
                drop (length buffers - n) buffers).
  - apply Permutation_app_head. symmetry. apply Permutation_rev.
  - by rewrite take_drop.
Qed.

Lemma batch_count_any p sprites :
  length (drawn (batchMap (batching rotate p sprites))) =
  batch_count rotate sprites.
Proof. unfold batch_count. by rewrite (batchMap_independent p pipeline). Qed.

(** The pool after one call. *)
Lemma renderPass_pool p sprites :
  let p' := (renderPass rotate p sprites).1.2 in
  let log := (renderPass rotate p sprites).2 in
  length (vertexBuffers p') =
    Nat.max (length (vertexBuffers p)) (batch_count rotate sprites) /\
  vertexBufferCount p' =
    (vertexBufferCount p +
     (batch_count rotate sprites - length (vertexBuffers p)))%nat /\
  buffers_created log =
    seq (vertexBufferCount p)
      (batch_count rotate sprites - length (vertexBuffers p)) /\
  vertexBuffers p' ≡ₚ vertexBuffers p ++ buffers_created log.
Proof.
  destruct (renderPass_spec rotate p sprites)
    as (log & -> & _ & _ & Hnew & _).
  rewrite batch_count_any in *. cbn [fst snd vertexBuffers vertexBufferCount].
  split_and!; [|done|done|].
  - rewrite length_app, length_take, length_taken. lia.
  - rewrite Hnew. apply taken_Permutation.
Qed.

(** The cache after one call. *)
Lemma renderPass_cache p sprites :
  textureBindGroups (renderPass rotate p sprites).1.2 =
  groups (batching rotate p sprites).
Proof.
  by destruct (renderPass_spec rotate p sprites) as (log & -> & _).
Qed.

Lemma renderPass_cache_ok p sprites :
  cache_ok (textureBindGroups p) ->
  cache_ok (textureBindGroups (renderPass rotate p sprites).1.2).
Proof. rewrite renderPass_cache. apply batching_cache_ok. Qed.

Lemma reachable_cache_ok p : reachable rotate p -> cache_ok (textureBindGroups p).
Proof.
  induction 1 as [|p sprites _ IH].
  - intros k g. cbn. by rewrite lookup_empty.
  - by apply renderPass_cache_ok.
Qed.

Lemma bind_groups_created_app k (l1 l2 : list GPUCommand) :
  bind_groups_created k (l1 ++ l2) =
  bind_groups_created k l1 ++ bind_groups_created k l2.
Proof. apply omap_app. Qed.

(** Over any sequence of calls, one bind group is created for each
    texture that occurs and was not in the cache at the start. *)
Lemma frames_created calls :
  forall p k,
    length (bind_groups_created k (frames rotate p calls).2) =
    if decide (k ∈ map texture_of (concat calls) /\
               textureBindGroups p !! k = None)
    then 1%nat else 0%nat.
Proof.
  induction calls as [|sprites calls IH]; intros p k.
  - cbn. rewrite decide_False; [done|]. by intros [?%elem_of_nil _].
  - cbn [frames concat].
    pose proof (renderPass_cache p sprites) as Hcache.
    destruct (renderPass_spec rotate p sprites)
      as (log & Heq & _ & _ & _ & _ & Hk & _).
    rewrite Heq in *. cbn [fst snd] in Hcache.
    specialize (IH (renderPass rotate p sprites).1.2 k).
    rewrite Heq in IH. cbn [fst snd] in IH.
    destruct (frames rotate _ calls) as [p'' log'].
    cbn [snd] in *. rewrite bind_groups_created_app, length_app, Hk, IH.
    cbn [textureBindGroups].
    pose proof (batching_only rotate p sprites k) as Hnone.
    assert (Hin : k ∈ map texture_of (sprites ++ concat calls) <->
                  k ∈ map texture_of sprites \/
                  k ∈ map texture_of (concat calls))
      by (by rewrite map_app, elem_of_app).
    unfold not in Hnone.
    repeat case_decide; try done; exfalso; tauto.
Qed.
End FrameFacts.

Section SteadyFacts.
Context {number : JsNumber}.
Variable rotate : Vec2 -> Vec2 -> num -> Vec2.

Lemma buffers_created_app (l1 l2 : list GPUCommand) :
  buffers_created (l1 ++ l2) = buffers_created l1 ++ buffers_created l2.
Proof. apply omap_app. Qed.

(** Once the pool holds as many buffers as a frame has batches, further
    frames of the same sprites create no buffer. *)
Lemma frames_steady sprites n :
  forall p,
    (batch_count rotate sprites <= length (vertexBuffers p))%nat ->
    let r := frames rotate p (replicate n sprites) in
    vertexBufferCount r.1 = vertexBufferCount p /\
    length (vertexBuffers r.1) = length (vertexBuffers p) /\
    buffers_created r.2 = [].
Proof.
  induction n as [|n IH]; intros p Hp; [done|].
  cbn [replicate frames].
  destruct (renderPass_pool rotate p sprites) as (Hlen & Hcount & Hnew & _).
  destruct (renderPass rotate p sprites) as [[c p'] log].
  cbn [fst snd] in *.
  specialize (IH p'). destruct (frames rotate p' _) as [p'' log'].
  cbn [fst snd] in *. rewrite buffers_created_app.
  replace (batch_count rotate sprites - length (vertexBuffers p))%nat
    with 0%nat in * by lia.
  destruct IH as (-> & -> & ->); [lia|].
  rewrite Hnew. cbn [seq app]. split_and!; [lia|lia|done].
Qed.

(** The buffers of the pool are the buffers created so far. *)
Lemma frames_pool calls :
  forall p,
    vertexBuffers p ≡ₚ seq 0 (vertexBufferCount p) ->
    vertexBuffers (frames rotate p calls).1 ≡ₚ
    seq 0 (vertexBufferCount (frames rotate p calls).1).
Proof.
  induction calls as [|sprites calls IH]; intros p Hp; [done|].
  cbn [frames].
  destruct (renderPass_pool rotate p sprites) as (_ & Hcount & Hnew & Hperm).
  destruct (renderPass rotate p sprites) as [[c p'] log].
  cbn [fst snd] in *.
  specialize (IH p'). destruct (frames rotate p' calls) as [p'' log'].
  cbn [fst snd] in *. apply IH.
  rewrite Hcount, seq_app. etrans; [exact Hperm|]. rewrite Hnew.
  by apply Permutation_app.
Qed.

(** The retained state depends on the sprites through their textures
    only. *)
Lemma fold_groups_textures l1 :
  forall l2 s s',
    map texture_of l1 = map texture_of l2 ->
    groups s = groups s' ->
    groupCount s = groupCount s' ->
    groups (fold_left (batch_sprite rotate) l1 s) =
      groups (fold_left (batch_sprite rotate) l2 s') /\
    groupCount (fold_left (batch_sprite rotate) l1 s) =
      groupCount (fold_left (batch_sprite rotate) l2 s').
Proof.
  induction l1 as [|a l1 IH]; intros [|b l2] s s' Hmap Hg Hc;
    try discriminate; [done|].
  cbn [map] in Hmap. injection Hmap as Hab Hmap.
  cbn [fold_left]. apply IH; [done| |].
  - pose proof (groups_batch_sprite rotate s a) as Ha.
    pose proof (groups_batch_sprite rotate s' b) as Hb.
    cbv zeta in Ha, Hb. rewrite <- Hab, <- Hg, <- Hc in Hb.
    destruct (groups s !! texture_of a).
    + destruct Ha as (-> & _), Hb as (-> & _). done.
    + destruct Ha as (-> & _), Hb as (-> & _). done.
  - pose proof (groups_batch_sprite rotate s a) as Ha.
    pose proof (groups_batch_sprite rotate s' b) as Hb.
    cbv zeta in Ha, Hb. rewrite <- Hab, <- Hg, <- Hc in Hb.
    destruct (groups s !! texture_of a).
    + destruct Ha as (_ & -> & _), Hb as (_ & -> & _). done.
    + destruct Ha as (_ & -> & _), Hb as (_ & -> & _). done.
Qed.

Lemma count_for_textures k l1 :
  forall l2,
    map texture_of l1 = map texture_of l2 ->
    count_for k l1 = count_for k l2.
Proof.
  unfold count_for, with_texture.
  induction l1 as [|a l1 IH]; intros [|b l2] Hmap; try discriminate;
    [done|].
  cbn [map] in Hmap. injection Hmap as Hab Hmap.
  specialize (IH l2 Hmap).
  destruct (decide (texture_of a = k)) as [Ha|Ha].
  - rewrite !filter_cons_True by congruence. cbn [length]. lia.
  - rewrite !filter_cons_False by congruence. done.
Qed.

Lemma batch_count_textures l1 l2 :
  map texture_of l1 = map texture_of l2 ->
  batch_count rotate l1 = batch_count rotate l2.
Proof.
  intros Hmap. apply Nat2N.inj. unfold batch_count.
  rewrite !(batchMap_ok_length rotate _ _ (batching_ok rotate _ _)).
  rewrite Hmap. f_equal. apply map_ext. intros k.
  by rewrite (count_for_textures k l1 l2).
Qed.

(** The frame of three sprites whose textures interleave. *)
Lemma batching_interleaved p a b a' :
  texture_of a' = texture_of a ->
  texture_of b ≠ texture_of a ->
  batchMap (batching rotate p [a; b; a']) =
  [ (texture_of a,
     [write_sprite rotate
        (write_sprite rotate (new_batch (Sprite.texture a)) a) a']);
    (texture_of b,
     [write_sprite rotate (new_batch (Sprite.texture b)) b]) ].
Proof.
  intros Ha' Hb. unfold batching. cbn [fold_left].
  rewrite !batchMap_batch_sprite. cbn [batchMap]. rewrite Ha'.
  assert (Hne : (0 + 1)%N ≠ MAX_SPRITES_PER_BATCH) by done.
  repeat (cbn [JsMap.get default current_batch last fst snd app JsMap.set
                 write_sprite Batch.instances new_batch removelast];
          first [ rewrite decide_True by congruence
                | rewrite decide_False by congruence ]).
  reflexivity.
Qed.

Lemma vertices_first texture a :
  Batch.vertices (write_sprite rotate (new_batch texture) a) =
  quad rotate a ++ replicate (capacity - 32) zero.
Proof.
  destruct (write_sprite_spec rotate _ _ a (new_batch_open texture))
    as ([_ _ _ Hrest] & Hinst & Hw).
  rewrite Hrest, Hw, Hinst. unfold written at 1.
  cbn [new_batch Batch.instances]. by rewrite take_0.
Qed.

Lemma vertices_second texture a a' :
  Batch.vertices
    (write_sprite rotate (write_sprite rotate (new_batch texture) a) a') =
  quad rotate a ++ quad rotate a' ++ replicate (capacity - 64) zero.
Proof.
  destruct (write_sprite_spec rotate _ _ a (new_batch_open texture))
    as (Hok & Hinst & Hw).
  assert (Hopen : batch_open (Texture.id texture)
                    (write_sprite rotate (new_batch texture) a)).
  { apply batch_ok_open; [done|]. by rewrite Hinst. }
  destruct (write_sprite_spec rotate _ _ a' Hopen)
    as ([_ _ _ Hrest] & Hinst' & Hw').
  rewrite Hrest, Hw', Hw, Hinst', Hinst. unfold written at 1.
  cbn [new_batch Batch.instances]. rewrite take_0.
  cbn [app]. by rewrite <- app_assoc.
Qed.
End SteadyFacts.

(** ** The batching loop on the heap of the caller *)

Section HeapFacts.
Context {number : JsNumber}.
Variable rotate : Vec2 -> Vec2 -> num -> Vec2.

Lemma renderPass_draw_and_submit p sprites :
  renderPass rotate p sprites =
  draw_and_submit p (batching rotate p sprites).
Proof. reflexivity. Qed.

Lemma reads_omap h refs bs :
  reads h refs bs -> omap (read_batch h) refs = bs.
Proof.
  induction 1 as [|ref b refs bs Hr _ IH]; [done|].
  cbn [omap list_omap]. unfold read_batch at 1. rewrite Hr.
  by rewrite IH.
Qed.

Lemma same_batches_of h hm bm :
  same_batches h hm bm -> batches_of h hm = bm.
Proof.
  unfold batches_of.
  induction 1 as [|[k refs] [k' bs] hm bm [Hk Hr] _ IH]; [done|].
  cbn [map fst snd] in *. subst k'.
  by rewrite (reads_omap _ _ _ Hr), IH.
Qed.

Lemma same_batches_keys h hm bm :
  same_batches h hm bm -> JsMap.keys hm = JsMap.keys bm.
Proof.
  unfold JsMap.keys.
  induction 1 as [|[k refs] [k' bs] hm bm [Hk Hr] _ IH]; [done|].
  cbn [map fst snd] in *. by rewrite Hk, IH.
Qed.

Lemma same_batches_get h hm bm k :
  same_batches h hm bm ->
  option_Forall2 (reads h) (JsMap.get hm k) (JsMap.get bm k).
Proof.
  induction 1 as [|[k1 refs] [k' bs] hm bm [Hk Hr] _ IH];
    [constructor|].
  cbn [JsMap.get fst snd] in *. subst k'.
  destruct (decide (k1 = k)); [by constructor|done].
Qed.

Lemma same_batches_but_absent k h hm bm :
  k ∉ JsMap.keys hm ->
  same_batches_but k h hm bm -> same_batches h hm bm.
Proof.
  intros Hnin Hrel.
  induction Hrel as [|[k1 refs1] [k' bs1] hm bm [Hk Hr1] Hrest IH];
    [constructor|].
  cbn [JsMap.keys map fst snd] in *.
  apply not_elem_of_cons in Hnin as [Hne Hnin].
  constructor; [split; [done|by apply Hr1]|by apply IH].
Qed.

(** Putting a list under the key [k] in both maps. *)
Lemma same_batches_set h hm bm k refs bs :
  NoDup (JsMap.keys hm) ->
  same_batches_but k h hm bm ->
  reads h refs bs ->
  same_batches h (JsMap.set hm k refs) (JsMap.set bm k bs).
Proof.
  intros Hnd Hrel Hr.
  induction Hrel as [|[k1 refs1] [k' bs1] hm bm [Hk Hr1] Hrest IH].
  - by repeat constructor.
  - cbn [JsMap.keys JsMap.set map fst snd] in *. subst k'.
    apply NoDup_cons in Hnd as [Hnin Hnd].
    destruct (decide (k1 = k)) as [->|Hne].
    + constructor; [done|]. by apply (same_batches_but_absent k).
    + constructor; [by auto|]. by apply IH.
Qed.

Lemma elem_of_concat {A : Type} (x : A) (ls : list (list A)) :
  x ∈ concat ls <-> exists l, x ∈ l /\ l ∈ ls.
Proof.
  rewrite list_elem_of_In, in_concat. split.
  - intros (l & Hl & Hx). exists l. by rewrite !list_elem_of_In.
  - intros (l & Hx & Hl). exists l. by rewrite <- !list_elem_of_In.
Qed.

Lemma reads_agree h h' refs bs :
  reads h refs bs ->
  (forall ref, ref ∈ refs -> h' !! ref = h !! ref) ->
  reads h' refs bs.
Proof.
  induction 1 as [|ref b refs bs Hr _ IH]; intros Hsame; [constructor|].
  constructor.
  - rewrite Hsame; [done|by left].
  - apply IH. intros r Hin. apply Hsame. by right.
Qed.

(** A heap that agrees with [h] on the references of the other keys. *)
Lemma same_batches_weaken k h h' hm bm :
  same_batches h hm bm ->
  (forall k1 refs ref,
     (k1, refs) ∈ hm -> k1 ≠ k -> ref ∈ refs -> h' !! ref = h !! ref) ->
  same_batches_but k h' hm bm.
Proof.
  intros Hrel. induction Hrel as [|[k1 refs1] [k' bs1] hm bm [Hk Hr1] _ IH];
    intros Hsame; [constructor|].
  cbn [fst snd] in *. constructor.
  - split; [done|]. cbn [fst snd]. intros Hne.
    apply (reads_agree h); [done|].
    intros ref Hin. apply (Hsame k1 refs1); [by left|done|done].
  - apply IH. intros k2 refs ref Hin. apply Hsame. by right.
Qed.

Lemma get_elem_of {V : Type} (m : JsMap.t V) k v :
  JsMap.get m k = Some v -> (k, v) ∈ m.
Proof.
  induction m as [|[k1 v1] m IH]; [done|]. cbn [JsMap.get].
  destruct (decide (k1 = k)) as [->|Hne].
  - intros [= ->]. by left.
  - intros Hg. right. by apply IH.
Qed.

Lemma get_keys {V : Type} (m : JsMap.t V) k v :
  JsMap.get m k = Some v -> k ∈ JsMap.keys m.
Proof.
  intros Hg%get_elem_of. apply list_elem_of_fmap. by exists (k, v).
Qed.

Lemma NoDup_keys_set {V : Type} (m : JsMap.t V) k v :
  NoDup (JsMap.keys m) -> NoDup (JsMap.keys (JsMap.set m k v)).
Proof.
  intros Hnd. destruct (decide (k ∈ JsMap.keys m)) as [Hin|Hnin].
  - by rewrite keys_set_present.
  - rewrite keys_set_absent by done. apply NoDup_app.
    split_and!; [done| |apply NoDup_singleton].
    intros k' Hk' ->%list_elem_of_singleton. done.
Qed.

Lemma set_get_id {V : Type} (m : JsMap.t V) k v :
  JsMap.get m k = Some v -> JsMap.set m k v = m.
Proof.
  induction m as [|[k1 v1] m IH]; [done|]. cbn [JsMap.get JsMap.set].
  destruct (decide (k1 = k)) as [->|Hne].
  - by intros [= ->].
  - intros Hg. by rewrite IH.
Qed.

(** The references of a map after one more reference is pushed on the
    array of a key. *)
Lemma refs_set_push (m : JsMap.t (list nat)) k ref :
  concat (map snd (JsMap.set m k (default [] (JsMap.get m k) ++ [ref])))
  ≡ₚ concat (map snd m) ++ [ref].
Proof.
  induction m as [|[k1 v1] m IH]; [done|].
  cbn [JsMap.get JsMap.set]. destruct (decide (k1 = k)) as [->|Hne].
  - cbn [default map snd concat]. rewrite <- !app_assoc.
    apply Permutation_app_head, Permutation_app_comm.
  - cbn [map snd concat]. rewrite IH. by rewrite <- app_assoc.
Qed.

(** References under different keys are different. *)
Lemma refs_disjoint (m : JsMap.t (list nat)) k refs k1 refs1 ref :
  NoDup (concat (map snd m)) ->
  JsMap.get m k = Some refs -> ref ∈ refs ->
  (k1, refs1) ∈ m -> k1 ≠ k -> ref ∉ refs1.
Proof.
  induction m as [|[k2 v2] m IH]; [done|].
  cbn [map snd concat JsMap.get]. intros Hnd Hg Hin Hin1 Hne.
  apply NoDup_app in Hnd as (Hnd2 & Hdis & Hnd).
  destruct (decide (k2 = k)) as [->|Hne2].
  - injection Hg as ->.
    apply elem_of_cons in Hin1 as [[= -> ->]|Hin1]; [done|].
    intros Href. apply (Hdis ref Hin).
    apply elem_of_concat. exists refs1. split; [done|].
    apply list_elem_of_fmap. by exists (k1, refs1).
  - apply elem_of_cons in Hin1 as [[= -> ->]|Hin1].
    + intros Href. apply (Hdis ref Href).
      apply elem_of_concat. exists refs. split; [done|].
      apply list_elem_of_fmap. exists (k, refs). split; [done|].
      by apply get_elem_of.
    + by apply IH.
Qed.

Lemma refs_NoDup (m : JsMap.t (list nat)) k refs :
  NoDup (concat (map snd m)) -> JsMap.get m k = Some refs -> NoDup refs.
Proof.
  induction m as [|[k2 v2] m IH]; [done|].
  cbn [map snd concat JsMap.get]. intros (Hnd2 & _ & Hnd)%NoDup_app.
  destruct (decide (k2 = k)); [by intros [= <-]|by apply IH].
Qed.

Lemma refs_elem_of (m : JsMap.t (list nat)) k refs ref :
  JsMap.get m k = Some refs -> ref ∈ refs -> ref ∈ concat (map snd m).
Proof.
  intros Hg%get_elem_of Hin. apply elem_of_concat. exists refs.
  split; [done|]. apply list_elem_of_fmap. by exists (k, refs).
Qed.

Lemma refs_bounds (h0 ext : Heap) (hm : JsMap.t (list nat)) k refs ref :
  concat (map snd hm) ≡ₚ seq (length h0) (length ext) ->
  JsMap.get hm k = Some refs -> ref ∈ refs ->
  (length h0 <= ref < length h0 + length ext)%nat.
Proof.
  intros Hperm Hg Hin. apply elem_of_seq. rewrite <- Hperm.
  by eapply refs_elem_of.
Qed.

(** A new batch is pushed on the array of the key [k]. *)
Lemma push_simulates (h0 ext : Heap) hm bm k (b : Batch.t) :
  Forall (fun o => exists b, o = BatchObject b) ext ->
  concat (map snd hm) ≡ₚ seq (length h0) (length ext) ->
  same_batches (h0 ++ ext) hm bm ->
  NoDup (JsMap.keys hm) ->
  let h := h0 ++ ext in
  let refs := default [] (JsMap.get hm k) in
  let bs := default [] (JsMap.get bm k) in
  let hm' := JsMap.set hm k (refs ++ [length h]) in
  (exists ext',
     h ++ [BatchObject b] = h0 ++ ext' /\
     Forall (fun o => exists b, o = BatchObject b) ext' /\
     concat (map snd hm') ≡ₚ seq (length h0) (length ext')) /\
  same_batches (h ++ [BatchObject b]) hm' (JsMap.set bm k (bs ++ [b])) /\
  NoDup (JsMap.keys hm').
Proof.
  intros Hext Hperm Hrel Hnd. cbv zeta.
  assert (Hold : forall k1 refs ref,
            (k1, refs) ∈ hm -> ref ∈ refs ->
            ((h0 ++ ext) ++ [BatchObject b]) !! ref = (h0 ++ ext) !! ref).
  { intros k1 refs ref Hin Href. apply lookup_app_l.
    assert (ref ∈ seq (length h0) (length ext)) as Hs%elem_of_seq.
    { rewrite <- Hperm. apply elem_of_concat. exists refs.
      split; [done|]. apply list_elem_of_fmap. by exists (k1, refs). }
    rewrite length_app. lia. }
  split_and!.
  - exists (ext ++ [BatchObject b]). split_and!.
    + by rewrite app_assoc.
    + apply Forall_app. split; [done|]. constructor; [by eexists|constructor].
    + rewrite refs_set_push, Hperm, !length_app. cbn [length].
      rewrite Nat.add_1_r, seq_S. done.
  - apply same_batches_set; [done| |].
    + apply (same_batches_weaken k (h0 ++ ext)); [done|].
      intros k1 refs ref Hin _ Href. by eapply Hold.
    + apply Forall2_app.
      * pose proof (same_batches_get _ _ _ k Hrel) as Hget.
        destruct (JsMap.get hm k) as [refs|] eqn:Hg;
          inversion Hget as [? bs Hr|]; subst; cbn [default];
          [|constructor].
        apply (reads_agree (h0 ++ ext)); [done|].
        intros ref Href. eapply Hold; [|done]. by apply get_elem_of.
      * constructor; [|constructor]. by apply list_lookup_middle.
  - by apply NoDup_keys_set.
Qed.

(** The last batch of the array of the key [k] is changed in place. *)
Lemma write_simulates (h0 ext : Heap) hm bm k front r0 bfront b0
    (b' : Batch.t) :
  Forall (fun o => exists b, o = BatchObject b) ext ->
  concat (map snd hm) ≡ₚ seq (length h0) (length ext) ->
  same_batches (h0 ++ ext) hm bm ->
  NoDup (JsMap.keys hm) ->
  JsMap.get hm k = Some (front ++ [r0]) ->
  reads (h0 ++ ext) front bfront ->
  (h0 ++ ext) !! r0 = Some (BatchObject b0) ->
  let h' := <[r0 := BatchObject b']> (h0 ++ ext) in
  (exists ext',
     h' = h0 ++ ext' /\
     Forall (fun o => exists b, o = BatchObject b) ext' /\
     concat (map snd hm) ≡ₚ seq (length h0) (length ext')) /\
  same_batches h' hm (JsMap.set bm k (bfront ++ [b'])).
Proof.
  unfold Heap in *. intros Hext Hperm Hrel Hnd Hg Hfront Hr0. cbv zeta.
  assert (Hin0 : r0 ∈ front ++ [r0])
    by (apply elem_of_app; right; by left).
  pose proof (refs_bounds _ _ _ _ _ _ Hperm Hg Hin0) as Hb.
  assert (Hndc : NoDup (concat (map snd hm)))
    by (rewrite Hperm; apply NoDup_seq).
  split.
  - exists (<[r0 - length h0 := BatchObject b']> ext). split_and!.
    + apply insert_app_r_alt. lia.
    + apply Forall_insert; [done|by eexists].
    + by rewrite length_insert.
  - rewrite <- (set_get_id hm k (front ++ [r0])) by done.
    apply same_batches_set; [done| |].
    + apply (same_batches_weaken k (h0 ++ ext)); [done|].
      intros k1 refs ref Hin Hne Href.
      apply list_lookup_insert_ne. intros <-.
      by apply (refs_disjoint hm k (front ++ [r0]) k1 refs r0).
    + apply Forall2_app.
      * apply (reads_agree (h0 ++ ext)); [done|].
        intros ref Href. apply list_lookup_insert_ne. intros <-.
        pose proof (refs_NoDup _ _ _ Hndc Hg) as Hndr.
        apply NoDup_app in Hndr as (_ & Hdis & _).
        apply (Hdis r0 Href). by left.
      * constructor; [|constructor].
        apply list_lookup_insert_eq. rewrite length_app. lia.
Qed.

(** One sprite more, on the heap and on the values. *)
Lemma batch_sprite_on_simulates h0 s B ref sprite :
  simulates h0 s B ->
  heap s !! ref = Some (SpriteObject sprite) ->
  simulates h0 (batch_sprite_on rotate s ref)
    (batch_sprite rotate B sprite).
Proof.
  intros [(ext & Hh & Hext & Hperm) Hg Hc Hcr Hb Hk] Href.
  unfold batch_sprite_on. rewrite Href. unfold batch_sprite.
  rewrite Hg, Hc, Hcr. rewrite Hh in *.
  set (k := Texture.id (Sprite.texture sprite)).
  pose proof (same_batches_get _ _ _ k Hb) as Hget.
  assert (Hcache :
    forall (h' : Heap) hm' bm',
      (exists ext',
         h' = h0 ++ ext' /\
         Forall (fun o => exists b, o = BatchObject b) ext' /\
         concat (map snd hm') ≡ₚ seq (length h0) (length ext')) ->
      same_batches h' hm' bm' -> NoDup (JsMap.keys hm') ->
      simulates h0
        (let '(groups', count', created') :=
           match groups B !! k with
           | Some _ => (groups B, groupCount B, created B)
           | None =>
               (<[k := TextureBindGroup (groupCount B) k]> (groups B),
                S (groupCount B),
                created B ++
                [ createView (TextureOf k);
                  createBindGroup (TextureBindGroup (groupCount B) k) ])
           end in
         {| heap := h'; h_groups := groups'; h_groupCount := count';
            h_batchMap := hm'; h_created := created' |})
        (let '(groups', count', created') :=
           match groups B !! k with
           | Some _ => (groups B, groupCount B, created B)
           | None =>
               (<[k := TextureBindGroup (groupCount B) k]> (groups B),
                S (groupCount B),
                created B ++
                [ createView (TextureOf k);
                  createBindGroup (TextureBindGroup (groupCount B) k) ])
           end in
         {| groups := groups'; groupCount := count';
            batchMap := bm'; created := created' |})).
  { intros h' hm' bm' Hheap Hrel Hkeys.
    destruct (groups B !! k); by split. }
  assert (Hpushed :
    forall x y : JsObject,
      read_batch ((h0 ++ ext) ++ [x]) (length (h0 ++ ext)) =
        match x with BatchObject b => Some b | _ => None end /\
      <[length (h0 ++ ext) := y]> ((h0 ++ ext) ++ [x]) =
        (h0 ++ ext) ++ [y]).
  { intros x y. split.
    - unfold read_batch, Heap in *. by rewrite list_lookup_middle.
    - replace (length (h0 ++ ext)) with (length (h0 ++ ext) + 0)%nat
        at 1 by lia.
      by rewrite insert_app_r. }
  pose proof (push_simulates h0 ext (h_batchMap s) (batchMap B) k
                (write_sprite rotate (new_batch (Sprite.texture sprite))
                   sprite) Hext Hperm Hb Hk) as Hpush.
  cbv zeta in Hpush.
  destruct (JsMap.get (h_batchMap s) k) as [refs|] eqn:Hgk;
    inversion Hget as [? bs Hr Heq1 Hgb|Heq1 Hgb]; subst;
    rewrite <- Hgb in *;
    unfold default, from_option, Datatypes.id in Hpush;
    cbn [app] in Hpush.
  - destruct (snoc_cases refs) as [->|(front & r0 & ->)].
    + apply Forall2_nil_inv_l in Hr as ->.
      unfold current_batch_on, current_batch, array_push.
      cbn [last app].
      destruct (Hpushed (BatchObject (new_batch (Sprite.texture sprite)))
                  (BatchObject
                     (write_sprite rotate
                        (new_batch (Sprite.texture sprite)) sprite)))
        as [Hrd Hins].
      rewrite Hrd. cbv beta iota.
      destruct Hpush as ((ext' & He & Hf & Hp) & H2 & H3).
      apply Hcache; [| |done].
      { exists ext'. unfold Heap in *. by rewrite Hins. }
      { unfold Heap in *. by rewrite Hins. }
    + apply Forall2_app_inv_l in Hr
        as (bfront & blast & Hfront & Hlast & ->).
      apply Forall2_cons_inv_l in Hlast as (b0 & bnil & Hr0 & Hnil & ->).
      apply Forall2_nil_inv_l in Hnil as ->.
      unfold current_batch_on, current_batch, array_push.
      rewrite !last_snoc. unfold read_batch at 1. rewrite Hr0.
      destruct (decide (Batch.instances b0 = MAX_SPRITES_PER_BATCH)).
      * destruct (Hpushed
                    (BatchObject (new_batch (Sprite.texture sprite)))
                    (BatchObject
                       (write_sprite rotate
                          (new_batch (Sprite.texture sprite)) sprite)))
          as [Hrd Hins].
        rewrite Hrd. cbv beta iota.
        destruct Hpush as ((ext' & He & Hf & Hp) & H2 & H3).
        apply Hcache; [| |done].
      { exists ext'. unfold Heap in *. by rewrite Hins. }
      { unfold Heap in *. by rewrite Hins. }
      * unfold read_batch. rewrite Hr0, removelast_last.
        destruct (write_simulates h0 ext (h_batchMap s) (batchMap B) k
                    front r0 bfront b0 (write_sprite rotate b0 sprite)
                    Hext Hperm Hb Hk Hgk Hfront Hr0) as [H1 H2].
        rewrite <- (set_get_id (h_batchMap s) k (front ++ [r0])) in H1
          by done.
        apply Hcache; [done| |by apply NoDup_keys_set].
        rewrite set_get_id by done. done.
  - unfold current_batch_on, current_batch, array_push.
    cbn [last app].
    destruct (Hpushed (BatchObject (new_batch (Sprite.texture sprite)))
                (BatchObject
                   (write_sprite rotate
                      (new_batch (Sprite.texture sprite)) sprite)))
      as [Hrd Hins].
    rewrite Hrd. cbv beta iota.
    destruct Hpush as ((ext' & He & Hf & Hp) & H2 & H3).
    apply Hcache; [| |done].
      { exists ext'. unfold Heap in *. by rewrite Hins. }
      { unfold Heap in *. by rewrite Hins. }
Qed.

Lemma fold_simulates h0 refs sprites :
  sprites_at h0 refs sprites ->
  forall s B,
    simulates h0 s B ->
    simulates h0 (fold_left (batch_sprite_on rotate) refs s)
      (fold_left (batch_sprite rotate) sprites B).
Proof.
  induction 1 as [|ref sprite refs sprites Href _ IH]; intros s B Hsim;
    [done|].
  cbn [fold_left]. apply IH. apply batch_sprite_on_simulates; [done|].
  destruct Hsim as [(ext & -> & _) _ _ _ _ _].
  by apply lookup_app_l_Some.
Qed.

(** The first loop on the heap does what the first loop does on the
    values of the sprites. *)
Lemma batching_on_simulates p h0 refs sprites :
  sprites_at h0 refs sprites ->
  simulates h0 (batching_on rotate p h0 refs) (batching rotate p sprites).
Proof.
  intros Hat. apply (fold_simulates h0 refs sprites Hat).
  split; cbn [heap h_groups h_groupCount h_batchMap h_created
              groups groupCount batchMap created]; try done.
  - exists []. by rewrite app_nil_r.
  - constructor.
  - constructor.
Qed.

(** A call on the heap of the caller: the heap afterwards is the heap
    before followed by batches, and the call is the render pass of the
    values of the sprites. *)
Lemma renderPass_on_spec p h refs sprites :
  sprites_at h refs sprites ->
  (exists created_objects,
     (renderPass_on rotate p h refs).1 = h ++ created_objects /\
     Forall (fun o => exists b, o = BatchObject b) created_objects) /\
  (renderPass_on rotate p h refs).2 = renderPass rotate p sprites.
Proof.
  intros Hat.
  destruct (batching_on_simulates p h refs sprites Hat)
    as [(ext & Hh & Hext & _) Hg Hc Hcr Hb _].
  unfold renderPass_on. cbn [fst snd]. split.
  - by exists ext.
  - rewrite (same_batches_of _ _ _ Hb), Hg, Hc, Hcr.
    rewrite renderPass_draw_and_submit.
    by destruct (batching rotate p sprites).
Qed.
End HeapFacts.

(** ** The model at work *)

Section Sanity.
Import Binary64 Examples.

(** One frame of three sprites on two textures: two draw calls, the
    pooled buffer and a new one. *)
Example one_frame :
  let r := renderPass no_rotate pipeline [on_first; on_second; on_first] in
  r.1.1 = Normal /\
  draw_counts r.2 = [12; 6]%N /\
  bound_textures r.2 = [1; 2]%positive /\
  bound_vertex_buffers r.2 = [0; 1]%nat /\
  buffers_created r.2 = [1]%nat /\
  vertexBuffers r.1.2 = [0; 1]%nat /\
  length (bind_groups_created 1 r.2) = 1%nat.
Proof. vm_compute. repeat split. Qed.

(** Three frames: buffers and bind groups are created in the first
    frame only. *)
Example three_frames :
  let r := frames no_rotate pipeline
      [[on_first; on_second; on_first]; [on_second];
       [on_first; on_second]] in
  vertexBuffers r.1 = [1; 0]%nat /\
  vertexBufferCount r.1 = 2%nat /\
  bindGroupCount r.1 = 2%nat /\
  bound_vertex_buffers r.2 = [0; 1; 1; 1; 0]%nat /\
  buffers_created r.2 = [1]%nat.
Proof. vm_compute. repeat split. Qed.

(** The floats of one sprite: positions, texture coordinates, color and
    alpha of the four vertices. *)
Example one_quad :
  quad no_rotate (sprite_on (atlas 1) 1 1 3 2 b64_zero) =
  map of_Z
    [ 1; 1; 0; 0; 1; 1; 1; 1;
      4; 1; 1; 0; 1; 1; 1; 1;
      4; 3; 1; 1; 1; 1; 1; 1;
      1; 3; 0; 1; 1; 1; 1; 1 ]%Z.
Proof. vm_compute. reflexivity. Qed.

(** A store into a [Float32Array] rounds: 0.1 is not kept as it is. *)
Example fround_rounds :
  b64_fround (S754_finite false 7205759403792794 (-56)) =
  S754_finite false 7205759511166976 (-56).
Proof. vm_compute. reflexivity. Qed.
End Sanity.

Section EdgeFacts.
Context {number : JsNumber}.
Variable rotate : Vec2 -> Vec2 -> num -> Vec2.

(** The draw loop does throw when a batch has no bind group. *)
Lemma draw_batch_throws (d : Drawing) (batch : Batch.t) :
  (draw_batch ∅ d batch).1 = Throw "Texture bind group not found!".
Proof.
  unfold draw_batch. destruct (array_pop (pool d)) as [[v|] rest];
    by rewrite lookup_empty.
Qed.

Lemma distinct_replicate (k : positive) (n : nat) :
  distinct (replicate (S n) k) = [k].
Proof.
  induction n as [|n IH]; [done|].
  change (replicate (S (S n)) k) with (k :: replicate (S n) k).
  cbn [distinct]. rewrite IH.
  rewrite filter_cons_False by (intros Hk; by apply Hk). done.
Qed.

Lemma with_texture_replicate (sprite : Sprite.t) (n : nat) :
  with_texture (texture_of sprite) (replicate n sprite) =
  replicate n sprite.
Proof.
  induction n as [|n IH]; [done|].
  cbn [replicate]. unfold with_texture in *.
  by rewrite filter_cons_True, IH.
Qed.

(** One more sprite than a batch holds, all on one texture: a full
    batch and a batch of one. *)
Lemma draw_counts_spill (p : Pipeline) (sprite : Sprite.t) :
  draw_counts
    (renderPass rotate p (replicate (N.to_nat 10001) sprite)).2 =
  [60000; 6]%N.
Proof.
  set (sprites := replicate (N.to_nat 10001) sprite).
  destruct (renderPass_spec rotate p sprites) as (log & -> & Hdraw & _).
  cbn [snd]. rewrite Hdraw. clear Hdraw.
  destruct (batching_ok rotate p sprites) as [Hkeys Hget].
  assert (Hd : distinct (map texture_of sprites) = [texture_of sprite]).
  { unfold sprites.
    replace (N.to_nat 10001) with (S (N.to_nat 10000)) by lia.
    change (map texture_of ?l) with (texture_of <$> l).
    rewrite fmap_replicate. apply distinct_replicate. }
  rewrite Hd in Hkeys.
  destruct (batchMap (batching rotate p sprites)) as [|[k bs] [|? ?]];
    try discriminate.
  cbn [JsMap.keys map fst] in Hkeys. injection Hkeys as ->.
  specialize (Hget (texture_of sprite) bs).
  cbn [JsMap.get] in Hget. rewrite decide_True in Hget by done.
  specialize (Hget eq_refl). unfold sprites in Hget.
  rewrite with_texture_replicate in Hget.
  pose proof Hget as (full & cur & -> & _).
  apply batches_ok_count in Hget as (Hfull & Hn & Hcur).
  rewrite length_replicate in Hn. unfold MAX_SPRITES_PER_BATCH in *.
  destruct full as [|f [|? ?]]; cbn [length] in Hn; try lia.
  apply Forall_cons in Hfull as [Hf _].
  assert (Hc : Batch.instances cur = 1%N) by lia.
  unfold drawn. cbn [JsMap.values map snd concat app].
  by rewrite Hf, Hc.
Qed.
End EdgeFacts.

(** ** Properties of the render pass *)

(** C1.  Whatever the state of the closure and the list of sprites, the
    render pass returns, it issues one [drawIndexed] per batch, in the
    order of the batches, with [6 * instances] indices, and the number of
    these calls is the sum, over the distinct textures of the list, of
    [ceil (count / MAX_SPRITES_PER_BATCH)]; the batcher starts a batch for
    a texture exactly when the texture has none or the last one holds
    [MAX_SPRITES_PER_BATCH] sprites. *)
Theorem C1_one_draw_call_per_batch {number : JsNumber}
    (rotate : Vec2 -> Vec2 -> num -> Vec2)
    (p : Pipeline) (sprites : list Sprite.t) :
  let batches := drawn (batchMap (batching rotate p sprites)) in
  let log := (renderPass rotate p sprites).2 in
  (renderPass rotate p sprites).1.1 = Normal /\
  draw_counts log = map (fun b => (6 * Batch.instances b)%N) batches /\
  N.of_nat (length (draw_counts log)) =
    sum_N
      (map (fun k => ceil_div (count_for k sprites) MAX_SPRITES_PER_BATCH)
         (distinct (map texture_of sprites))) /\
  (forall texture earlier,
     current_batch texture earlier =
     if starts_batch earlier
     then (earlier, new_batch texture)
     else (removelast earlier, default (new_batch texture) (last earlier))).
Proof.
  cbv zeta.
  destruct (renderPass_spec rotate p sprites) as (log & -> & Hdraw & _).
  cbn [fst snd]. split_and!.
  - done.
  - done.
  - rewrite Hdraw, length_map.
    apply (batchMap_ok_length rotate), batching_ok.
  - intros texture earlier. unfold current_batch, starts_batch.
    destruct (last earlier) as [b|]; [|done]. cbn [default].
    destruct (decide (Batch.instances b = MAX_SPRITES_PER_BATCH)).
    + by rewrite bool_decide_eq_true_2.
    + by rewrite bool_decide_eq_false_2.
Qed.

(** C2.  For every list of sprites and every texture, the written slots of
    the batches of that texture, batch after batch, hold the floats of the
    sprites of that texture in the order of the list, and nothing else:
    the batches belong to the texture and their other slots are zero.
    The arrays of the batches are what the draw loops upload. *)
Theorem C2_stable_partition {number : JsNumber}
    (rotate : Vec2 -> Vec2 -> num -> Vec2)
    (p : Pipeline) (sprites : list Sprite.t) (k : positive) :
  let batches :=
    default [] (JsMap.get (batchMap (batching rotate p sprites)) k) in
  concat (map written batches) =
    concat (map (quad rotate) (with_texture k sprites)) /\
  Forall (fun b =>
            Texture.id (Batch.texture b) = k /\
            Batch.vertices b =
              written b ++
              replicate
                (capacity - N.to_nat (Batch.instances b * FLOATS_PER_SPRITE))
                zero) batches /\
  uploads (renderPass rotate p sprites).2 =
    map Batch.vertices (drawn (batchMap (batching rotate p sprites))).
Proof.
  cbv zeta.
  assert (Hup : uploads (renderPass rotate p sprites).2 =
                map Batch.vertices
                  (drawn (batchMap (batching rotate p sprites)))).
  { by destruct (renderPass_spec rotate p sprites)
      as (log & -> & _ & Hup & _). }
  destruct (batching_ok rotate p sprites) as [Hkeys Hget].
  destruct (JsMap.get _ k) as [bs|] eqn:Hk; cbn [default].
  - destruct (Hget k bs Hk) as (full & cur & -> & Hfull & Hcur & Hdata).
    split_and!; [done| |done]. apply Forall_app. split.
    + eapply Forall_impl; [exact Hfull|]. intros b [[? _ _ ?] _]. done.
    + constructor; [|constructor]. by destruct Hcur.
  - split_and!; [|constructor|done]. rewrite with_texture_absent; [done|].
    rewrite <- elem_of_distinct, <- Hkeys. by apply get_None.
Qed.

(** C10.  Whatever the state of the closure and the list of sprites, the
    render pass does not throw: every batch of the frame records a
    texture that the cache holds when the draw loops run, and the cache
    only grows. *)
Theorem C10_bind_group_always_found {number : JsNumber}
    (rotate : Vec2 -> Vec2 -> num -> Vec2)
    (p : Pipeline) (sprites : list Sprite.t) :
  let B := batching rotate p sprites in
  (renderPass rotate p sprites).1.1 = Normal /\
  Forall (fun b => is_Some (groups B !! Texture.id (Batch.texture b)))
    (drawn (batchMap B)) /\
  textureBindGroups p ⊆ groups B /\
  textureBindGroups (renderPass rotate p sprites).1.2 = groups B.
Proof.
  cbv zeta. split_and!.
  - by destruct (renderPass_spec rotate p sprites) as (log & -> & _).
  - apply Forall_forall. intros b Hb. by apply drawn_registered.
  - apply map_subseteq_spec. intros k g. apply batching_keeps.
  - apply renderPass_cache.
Qed.

(** ** Properties of the vertex writer

    The vertex writer is [write_sprite]: it stores the 32 floats of a
    sprite in the array of a batch, from index [instances * 32] on.  The
    batcher calls it on a batch that is not full and whose array has the
    full length; these are the two hypotheses below.  A position lies at
    the offsets 0 and 1 of the 8 floats of its vertex, a texture
    coordinate at the offsets 2 and 3. *)

(** C4, with the rounding of the [Float32Array] written out.  A sprite
    whose rotation is zero (the number [0], or any number that
    [if (sprite.rotation)] takes for zero) keeps the corners of its
    rectangle: the writer computes (x, y), (x + width, y),
    (x + width, y + height), (x, y + height) and does not apply [rotate];
    it stores them in the slot of the sprite in the order top left, top
    right, bottom right, bottom left, each number rounded to single
    precision; the stored numbers are exactly the corners when these are
    single precision numbers. *)
Theorem C4_unrotated_corners {number : JsNumber}
    (rotate : Vec2 -> Vec2 -> num -> Vec2)
    (b : Batch.t) (sprite : Sprite.t) :
  (Batch.instances b < MAX_SPRITES_PER_BATCH)%N ->
  length (Batch.vertices b) = capacity ->
  Sprite.rotation sprite = zero \/ truthy (Sprite.rotation sprite) = false ->
  let x := Sprite.x sprite in
  let y := Sprite.y sprite in
  let w := Sprite.width sprite in
  let h := Sprite.height sprite in
  let i := N.to_nat (Batch.instances b * FLOATS_PER_SPRITE) in
  let stored := Batch.vertices (write_sprite rotate b sprite) in
  corners rotate sprite =
    ((x, y), (x + w, y), (x + w, y + h), (x, y + h))%js /\
  map (fun o => stored !! (i + o)%nat) [0; 1; 8; 9; 16; 17; 24; 25]%nat =
    map (fun v => Some (fround v))
      [x; y; x + w; y; x + w; y + h; x; y + h]%js /\
  (fround x = x -> fround y = y ->
   fround (x + w)%js = (x + w)%js -> fround (y + h)%js = (y + h)%js ->
   map (fun o => stored !! (i + o)%nat) [0; 1; 8; 9; 16; 17; 24; 25]%nat =
     map Some [x; y; x + w; y; x + w; y + h; x; y + h]%js).
Proof.
  intros Hinst Hlen Hzero. cbv zeta.
  assert (Hrot : truthy (Sprite.rotation sprite) = false).
  { destruct Hzero as [->|Hf]; [apply truthy_zero|exact Hf]. }
  assert (Hc : corners rotate sprite =
               ((Sprite.x sprite, Sprite.y sprite),
                (Sprite.x sprite + Sprite.width sprite, Sprite.y sprite),
                (Sprite.x sprite + Sprite.width sprite,
                 Sprite.y sprite + Sprite.height sprite),
                (Sprite.x sprite,
                 Sprite.y sprite + Sprite.height sprite))%js).
  { unfold corners. by rewrite Hrot. }
  assert (Hs : map (fun o =>
                      Batch.vertices (write_sprite rotate b sprite)
                        !! (N.to_nat (Batch.instances b * FLOATS_PER_SPRITE)
                            + o)%nat)
                 [0; 1; 8; 9; 16; 17; 24; 25]%nat =
               map (fun v => Some (fround v))
                 [Sprite.x sprite; Sprite.y sprite;
                  Sprite.x sprite + Sprite.width sprite; Sprite.y sprite;
                  Sprite.x sprite + Sprite.width sprite;
                  Sprite.y sprite + Sprite.height sprite;
                  Sprite.x sprite;
                  Sprite.y sprite + Sprite.height sprite]%js).
  { cbn [map]. rewrite !(write_sprite_lookup rotate) by (done || lia).
    unfold quad, vertex_writes. rewrite Hc.
    destruct (uv sprite) as [u v].
    destruct (Sprite.color sprite) as [[r g] bl].
    reflexivity. }
  split_and!; [done|done|].
  intros Hx Hy Hxw Hyh. rewrite Hs. cbn [map].
  by rewrite Hx, Hy, Hxw, Hyh.
Qed.

(** C4 at a sprite of 3 by 2 at (1, 1), not rotated, written into the
    second slot of a batch, in binary64 arithmetic. *)
Lemma C4_unrotated_corners_witness :
  map (fun o =>
         Batch.vertices
           (write_sprite Examples.no_rotate
              (write_sprite Examples.no_rotate
                 (new_batch (Examples.atlas 1)) Examples.on_first)
              (Examples.sprite_at 1 1 3 2 Binary64.b64_zero))
           !! (32 + o)%nat)
    [0; 1; 8; 9; 16; 17; 24; 25]%nat =
  map Some
    [ Binary64.of_Z 1; Binary64.of_Z 1; Binary64.of_Z 4; Binary64.of_Z 1;
      Binary64.of_Z 4; Binary64.of_Z 3; Binary64.of_Z 1; Binary64.of_Z 3 ].
Proof.
  refine (proj2 (proj2 (C4_unrotated_corners Examples.no_rotate
                          (write_sprite Examples.no_rotate
                             (new_batch (Examples.atlas 1))
                             Examples.on_first)
                          (Examples.sprite_at 1 1 3 2 Binary64.b64_zero)
                          _ _ (or_introl eq_refl))) _ _ _ _).
  - vm_compute. reflexivity.
  - rewrite length_write_sprite. apply length_new_batch.
  - reflexivity.
  - reflexivity.
  - reflexivity.
  - reflexivity.
Defined.

(** The claim as it stands fails at x = 0.1: the sprite is not rotated,
    and the first float of its slot is not x but the single precision
    number nearest to it. *)
Lemma C4_counterexample :
  Sprite.rotation Examples.at_tenth = zero /\
  Batch.vertices
    (write_sprite Examples.no_rotate
       (new_batch (Sprite.texture Examples.at_tenth)) Examples.at_tenth)
    !! 0%nat ≠ Some (Sprite.x Examples.at_tenth).
Proof. split; [reflexivity|]. vm_compute. discriminate. Qed.




(** C6, with the rounding of the [Float32Array] written out.  The
    texture coordinates of a sprite are computed as
    u = [frame.x / texture.width, (frame.x + frame.width) / texture.width]
    and v = [frame.y / texture.height,
             (frame.y + frame.height) / texture.height];
    the writer stores (u[0], v[0]) for the top left vertex, (u[1], v[0])
    for the top right, (u[1], v[1]) for the bottom right and (u[0], v[1])
    for the bottom left, each number rounded to single precision.  In
    binary64 arithmetic, when the frame is the whole texture, the stored
    coordinates are exactly 0 and 1. *)
Theorem C6_texture_coordinates :
  (forall (number : JsNumber) (rotate : Vec2 -> Vec2 -> num -> Vec2)
          (b : Batch.t) (sprite : Sprite.t),
     (Batch.instances b < MAX_SPRITES_PER_BATCH)%N ->
     length (Batch.vertices b) = capacity ->
     let frame := Sprite.frame sprite in
     let texture := Sprite.texture sprite in
     let u0 := (Rect.x frame / Texture.width texture)%js in
     let u1 :=
       ((Rect.x frame + Rect.width frame) / Texture.width texture)%js in
     let v0 := (Rect.y frame / Texture.height texture)%js in
     let v1 :=
       ((Rect.y frame + Rect.height frame) / Texture.height texture)%js in
     let i := N.to_nat (Batch.instances b * FLOATS_PER_SPRITE) in
     let stored := Batch.vertices (write_sprite rotate b sprite) in
     uv sprite = ((u0, u1), (v0, v1)) /\
     map (fun o => stored !! (i + o)%nat)
       [2; 3; 10; 11; 18; 19; 26; 27]%nat =
       map (fun c => Some (fround c)) [u0; v0; u1; v0; u1; v1; u0; v1]) /\
  (forall (rotate : Vec2 -> Vec2 -> num -> Vec2)
          (b : @Batch.t Binary64.binary64)
          (sprite : @Sprite.t Binary64.binary64),
     (Batch.instances b < MAX_SPRITES_PER_BATCH)%N ->
     length (Batch.vertices b) = capacity ->
     Binary64.finite_pos (Texture.width (Sprite.texture sprite)) ->
     Binary64.finite_pos (Texture.height (Sprite.texture sprite)) ->
     Sprite.frame sprite =
       {| Rect.x := zero; Rect.y := zero;
          Rect.width := Texture.width (Sprite.texture sprite);
          Rect.height := Texture.height (Sprite.texture sprite) |} ->
     let i := N.to_nat (Batch.instances b * FLOATS_PER_SPRITE) in
     let stored := Batch.vertices (write_sprite rotate b sprite) in
     map (fun o => stored !! (i + o)%nat)
       [2; 3; 10; 11; 18; 19; 26; 27]%nat =
       map Some [zero; zero; one; zero; one; one; zero; one]).
Proof.
  assert (Hgen : forall (number : JsNumber)
                   (rotate : Vec2 -> Vec2 -> num -> Vec2)
                   (b : Batch.t) (sprite : Sprite.t),
             (Batch.instances b < MAX_SPRITES_PER_BATCH)%N ->
             length (Batch.vertices b) = capacity ->
             map (fun o =>
                    Batch.vertices (write_sprite rotate b sprite)
                      !! (N.to_nat (Batch.instances b * FLOATS_PER_SPRITE)
                          + o)%nat)
               [2; 3; 10; 11; 18; 19; 26; 27]%nat =
             map (fun c => Some (fround c))
               [ (uv sprite).1.1; (uv sprite).2.1;
                 (uv sprite).1.2; (uv sprite).2.1;
                 (uv sprite).1.2; (uv sprite).2.2;
                 (uv sprite).1.1; (uv sprite).2.2 ]).
  { intros number rotate b sprite Hinst Hlen.
    cbn [map]. rewrite !(write_sprite_lookup rotate) by (done || lia).
    unfold quad, vertex_writes.
    destruct (corners rotate sprite) as [[[tl tr] br] bl].
    destruct (uv sprite) as [u v].
    destruct (Sprite.color sprite) as [[r g] bb].
    reflexivity. }
  split.
  - intros number rotate b sprite Hinst Hlen. cbv zeta.
    split; [reflexivity|]. by apply Hgen.
  - intros rotate b sprite Hinst Hlen (mw & ew & Hw) (mh & eh & Hh) Hframe.
    cbv zeta. rewrite Hgen by done. unfold uv. rewrite Hframe.
    cbn [Rect.x Rect.y Rect.width Rect.height fst snd]. rewrite Hw, Hh.
    cbn [div add zero Binary64.binary64 SFadd Binary64.b64_zero].
    rewrite !SFdiv_diag. reflexivity.
Qed.

(** C6 at a sprite that shows the whole of a texture of 64 by 32 pixels,
    written into the second slot of a batch. *)
Lemma C6_texture_coordinates_witness :
  map (fun o =>
         Batch.vertices
           (write_sprite Examples.no_rotate
              (write_sprite Examples.no_rotate
                 (new_batch (Examples.atlas 1)) Examples.on_first)
              (Examples.sprite_at 1 1 3 2 Binary64.b64_zero))
           !! (32 + o)%nat)
    [2; 3; 10; 11; 18; 19; 26; 27]%nat =
  map Some
    [ Binary64.b64_zero; Binary64.b64_zero; Binary64.b64_one;
      Binary64.b64_zero; Binary64.b64_one; Binary64.b64_one;
      Binary64.b64_zero; Binary64.b64_one ].
Proof.
  refine (proj2 C6_texture_coordinates Examples.no_rotate
            (write_sprite Examples.no_rotate
               (new_batch (Examples.atlas 1)) Examples.on_first)
            (Examples.sprite_at 1 1 3 2 Binary64.b64_zero) _ _ _ _ _).
  - vm_compute. reflexivity.
  - rewrite length_write_sprite. apply length_new_batch.
  - eexists _, _. reflexivity.
  - eexists _, _. reflexivity.
  - reflexivity.
Defined.

(** The claim as it stands fails for the middle third of a texture of 3
    by 3 pixels: u[0] is 1 / 3, and the float stored for the top left
    vertex is not this number but the single precision number nearest to
    it. *)
Lemma C6_counterexample :
  Batch.vertices
    (write_sprite Examples.no_rotate
       (new_batch (Sprite.texture Examples.middle_third))
       Examples.middle_third)
    !! 2%nat ≠
  Some (Rect.x (Sprite.frame Examples.middle_third) /
        Texture.width (Sprite.texture Examples.middle_third))%js.
Proof. vm_compute. discriminate. Qed.

(** ** Properties of the order of drawing *)

(** C3.  From any state the closure can be in, the batches are drawn
    texture by texture, the textures in the order in which they first
    occur in the list, each with its [ceil (count / MAX_SPRITES_PER_BATCH)]
    batches; so for three sprites [a; b; a'] where [a] and [a'] share a
    texture and [b] has another, the first draw call has both [a] and
    [a'] and the second has [b]. *)
Theorem C3_first_encounter_order {number : JsNumber}
    (rotate : Vec2 -> Vec2 -> num -> Vec2) (p : Pipeline) :
  reachable rotate p ->
  (forall sprites,
     bound_textures (renderPass rotate p sprites).2 =
     concat
       (map (fun k =>
               replicate
                 (N.to_nat
                    (ceil_div (count_for k sprites) MAX_SPRITES_PER_BATCH)) k)
          (distinct (map texture_of sprites)))) /\
  (forall a b a',
     texture_of a' = texture_of a ->
     texture_of b ≠ texture_of a ->
     let log := (renderPass rotate p [a; b; a']).2 in
     bound_textures log = [texture_of a; texture_of b] /\
     uploads log =
       [ quad rotate a ++ quad rotate a' ++ replicate (capacity - 64) zero;
         quad rotate b ++ replicate (capacity - 32) zero ] /\
     draw_counts log = [12; 6]%N).
Proof.
  intros Hp%reachable_cache_ok. split.
  - intros sprites.
    destruct (renderPass_spec rotate p sprites)
      as (log & -> & _ & _ & _ & _ & _ & Htex).
    cbn [snd]. rewrite (Htex Hp).
    apply (batchMap_ok_textures rotate), batching_ok.
  - intros a b a' Ha' Hb. cbv zeta.
    destruct (renderPass_spec rotate p [a; b; a'])
      as (log & -> & Hdraw & Hup & _ & _ & _ & Htex).
    cbn [snd]. rewrite (Htex Hp), Hup, Hdraw.
    rewrite (batching_interleaved rotate p a b a' Ha' Hb).
    unfold drawn. cbn [JsMap.values map snd concat app].
    rewrite vertices_first, vertices_second. done.
Qed.

(** C3 at two textures and three sprites, in the state right after
    [pipeline]. *)
Lemma C3_first_encounter_order_witness :
  bound_textures
    (renderPass Examples.no_rotate pipeline
       [Examples.on_first; Examples.on_second; Examples.on_first]).2 =
  [1; 2]%positive.
Proof.
  refine (proj1 (proj2 (C3_first_encounter_order Examples.no_rotate pipeline
                          (reachable_pipeline _))
                   Examples.on_first Examples.on_second Examples.on_first
                   eq_refl _)).
  vm_compute. discriminate.
Defined.

(** ** Properties of the cache and of the pool *)

(** C7.  Over any sequence of calls that starts right after [pipeline],
    exactly one bind group is created for each texture that occurs in
    some call and none for any other texture; in one call from any state,
    a bind group is created for a texture exactly when the texture occurs
    in the call and is not in the cache, however often it occurs; and a
    call leaves every entry of the cache as it was. *)
Theorem C7_one_bind_group_per_texture {number : JsNumber}
    (rotate : Vec2 -> Vec2 -> num -> Vec2) :
  (forall calls k,
     length (bind_groups_created k (frames rotate pipeline calls).2) =
     if decide (k ∈ map texture_of (concat calls)) then 1%nat else 0%nat) /\
  (forall p sprites k,
     length (bind_groups_created k (renderPass rotate p sprites).2) =
     if decide (k ∈ map texture_of sprites /\
                textureBindGroups p !! k = None)
     then 1%nat else 0%nat) /\
  (forall p sprites,
     textureBindGroups p ⊆ textureBindGroups (renderPass rotate p sprites).1.2).
Proof.
  split_and!.
  - intros calls k. rewrite frames_created.
    cbn [pipeline textureBindGroups]. rewrite lookup_empty.
    repeat case_decide; (done || tauto).
  - intros p sprites k.
    by destruct (renderPass_spec rotate p sprites)
      as (log & -> & _ & _ & _ & _ & Hk & _).
  - intros p sprites. rewrite renderPass_cache.
    apply map_subseteq_spec. intros k g. apply batching_keeps.
Qed.

(** C8, with the buffer that [pipeline] creates counted.  From any state, a call leaves the pool at least as
    long as it was: the pool afterwards is the pool before together with
    the buffers created in the call, and the call creates as many buffers
    as it has batches beyond the length of the pool.  When the same
    sprites are rendered frame after frame right after [pipeline], the
    number of vertex buffers ever created is, after every frame, the
    larger of 1 and the number of batches of a frame; all of them are in
    the pool, each once, and no frame after the first creates a buffer. *)
Theorem C8_pool_is_stable {number : JsNumber}
    (rotate : Vec2 -> Vec2 -> num -> Vec2) :
  (forall p sprites,
     let r := renderPass rotate p sprites in
     (length (vertexBuffers p) <= length (vertexBuffers r.1.2))%nat /\
     vertexBuffers r.1.2 ≡ₚ vertexBuffers p ++ buffers_created r.2 /\
     length (buffers_created r.2) =
       (batch_count rotate sprites - length (vertexBuffers p))%nat) /\
  (forall sprites n,
     let B := batch_count rotate sprites in
     let after := (frames rotate pipeline (replicate (S n) sprites)).1 in
     let first := (renderPass rotate pipeline sprites).1.2 in
     vertexBufferCount after = Nat.max 1 B /\
     vertexBuffers after ≡ₚ seq 0 (Nat.max 1 B) /\
     buffers_created (frames rotate first (replicate n sprites)).2 = []).
Proof.
  split.
  - intros p sprites. cbv zeta.
    destruct (renderPass_pool rotate p sprites) as (Hlen & _ & Hnew & Hperm).
    split_and!; [lia|done|]. by rewrite Hnew, length_seq.
  - intros sprites n. cbv zeta.
    pose proof (frames_pool rotate (replicate (S n) sprites) pipeline
                  (reflexivity _)) as Hpool.
    cbn [replicate frames] in *.
    destruct (renderPass_pool rotate pipeline sprites)
      as (Hlen & Hcount & _).
    destruct (renderPass rotate pipeline sprites) as [[c p'] log].
    cbn [fst snd pipeline vertexBuffers vertexBufferCount length] in *.
    destruct (frames_steady rotate sprites n p') as (Hc & _ & Hnone); [lia|].
    destruct (frames rotate p' (replicate n sprites)) as [p'' log'].
    cbn [fst snd] in *.
    assert (Hafter : vertexBufferCount p'' =
                     Nat.max 1 (batch_count rotate sprites)) by lia.
    rewrite Hafter in Hpool. done.
Qed.

(** C8 at the empty list of sprites: a frame has no batch, and one vertex
    buffer has been created, by [pipeline]; the number of buffers created
    is not the number of batches of a frame. *)
Lemma C8_counterexample :
  let sprites : list (@Sprite.t Binary64.binary64) := [] in
  let after :=
    (frames Examples.no_rotate pipeline (replicate 3 sprites)).1 in
  batch_count Examples.no_rotate sprites = 0%nat /\
  vertexBufferCount after = 1%nat /\
  vertexBufferCount after ≠ batch_count Examples.no_rotate sprites.
Proof. vm_compute. split_and!; [reflexivity|reflexivity|discriminate]. Qed.

(** ** Property of the sprites *)

(** C9.  With the sprites as objects in the heap of the caller, a call
    of the render pass leaves every object that was in the heap as it
    was, the sprites among them, field by field; the objects it adds are
    batches; and the call completes, changes the state of the closure and
    calls the device as the render pass does on the values that the
    sprites hold when it is called.  The state the closure keeps
    afterwards is the same for any two lists of sprites with the same
    textures in the same order: nothing of a sprite but the identity of
    its texture is kept. *)
Theorem C9_sprites_untouched {number : JsNumber}
    (rotate : Vec2 -> Vec2 -> num -> Vec2) :
  (forall p h refs sprites,
     sprites_at h refs sprites ->
     let after := (renderPass_on rotate p h refs).1 in
     (forall ref o, h !! ref = Some o -> after !! ref = Some o) /\
     sprites_at after refs sprites /\
     (forall ref o,
        (length h <= ref)%nat -> after !! ref = Some o ->
        exists b, o = BatchObject b) /\
     (renderPass_on rotate p h refs).2 = renderPass rotate p sprites) /\
  (forall p sprites sprites',
     map texture_of sprites = map texture_of sprites' ->
     (renderPass rotate p sprites).1.2 = (renderPass rotate p sprites').1.2).
Proof.
  split.
  - intros p h refs sprites Hat. cbv zeta.
    destruct (renderPass_on_spec rotate p h refs sprites Hat)
      as [(objects & Hh & Hobjects) Hcall].
    rewrite Hh. unfold Heap in *. split_and!; [| | |done].
    + intros ref o Ho. by apply lookup_app_l_Some.
    + eapply Forall2_impl; [exact Hat|].
      intros ref sprite Ho. by apply lookup_app_l_Some.
    + intros ref o Hle Ho. rewrite lookup_app_r in Ho by done.
      rewrite Forall_forall in Hobjects. apply Hobjects.
      by eapply list_elem_of_lookup_2.
  - intros p l1 l2 Hmap.
    destruct (renderPass_spec rotate p l1) as (log1 & -> & _).
    destruct (renderPass_spec rotate p l2) as (log2 & -> & _).
    cbn [fst snd]. rewrite !batch_count_any.
    rewrite (batch_count_textures rotate l1 l2 Hmap).
    destruct (fold_groups_textures rotate l1 l2
                {| groups := textureBindGroups p;
                   groupCount := bindGroupCount p;
                   batchMap := []; created := [] |}
                {| groups := textureBindGroups p;
                   groupCount := bindGroupCount p;
                   batchMap := []; created := [] |} Hmap eq_refl eq_refl)
      as [Hg Hc].
    unfold batching. by rewrite Hg, Hc.
Qed.

(** C9 for a heap with two sprites and a call on three references, two of
    them to the first sprite. *)
Lemma C9_sprites_untouched_witness :
  let h := [SpriteObject Examples.on_first; SpriteObject Examples.on_second] in
  let after :=
    (renderPass_on Examples.no_rotate pipeline h [0; 1; 0]%nat).1 in
  (forall ref o, h !! ref = Some o -> after !! ref = Some o) /\
  sprites_at after [0; 1; 0]%nat
    [Examples.on_first; Examples.on_second; Examples.on_first] /\
  (forall ref o,
     (length h <= ref)%nat -> after !! ref = Some o ->
     exists b, o = BatchObject b) /\
  (renderPass_on Examples.no_rotate pipeline h [0; 1; 0]%nat).2 =
    renderPass Examples.no_rotate pipeline
      [Examples.on_first; Examples.on_second; Examples.on_first].
Proof.
  apply (proj1 (C9_sprites_untouched Examples.no_rotate) pipeline
           [SpriteObject Examples.on_first; SpriteObject Examples.on_second]
           [0; 1; 0]%nat
           [Examples.on_first; Examples.on_second; Examples.on_first]).
  repeat constructor.
Defined.

(** ** The index buffer *)

Section IndexFacts.

Lemma fill_indices_spec (filled : list N) (i : N) (rest : nat) :
  length filled = N.to_nat (i * 6) ->
  (i < 16384)%N ->
  fill_indices (filled ++ replicate (6 + rest) 0%N) i =
  (filled ++ quad_indices i) ++ replicate rest 0%N.
Proof.
  intros Hlen Hi. unfold fill_indices, index_writes, store_uint16.
  change INDICES_PER_SPRITE with 6%N. cbn [fold_left fst snd].
  replace (N.to_nat (i * 6 + 0)) with (length filled + 0)%nat by lia.
  replace (N.to_nat (i * 6 + 1)) with (length filled + 1)%nat by lia.
  replace (N.to_nat (i * 6 + 2)) with (length filled + 2)%nat by lia.
  replace (N.to_nat (i * 6 + 3)) with (length filled + 3)%nat by lia.
  replace (N.to_nat (i * 6 + 4)) with (length filled + 4)%nat by lia.
  replace (N.to_nat (i * 6 + 5)) with (length filled + 5)%nat by lia.
  rewrite replicate_add, !insert_app_r. cbn.
  rewrite !N.mod_small by lia.
  by rewrite <- app_assoc.
Qed.

(** The loop that fills [indices], after [n] rounds. *)
Lemma fill_indices_rounds (n : nat) :
  (n <= N.to_nat MAX_SPRITES_PER_BATCH)%nat ->
  fold_left fill_indices (map N.of_nat (seq 0 n))
    (replicate (N.to_nat (MAX_SPRITES_PER_BATCH * INDICES_PER_SPRITE)) 0%N) =
  concat (map quad_indices (map N.of_nat (seq 0 n))) ++
  replicate (6 * (N.to_nat MAX_SPRITES_PER_BATCH - n)) 0%N.
Proof.
  induction n as [|n IH]; intros Hn.
  - cbn [seq map fold_left concat app].
    f_equal; unfold MAX_SPRITES_PER_BATCH, INDICES_PER_SPRITE; lia.
  - rewrite seq_S, !map_app, fold_left_app, concat_app, IH by lia.
    cbn [map fold_left concat]. rewrite app_nil_r.
    replace (6 * (N.to_nat MAX_SPRITES_PER_BATCH - n))%nat
      with (6 + 6 * (N.to_nat MAX_SPRITES_PER_BATCH - S n))%nat by lia.
    apply fill_indices_spec.
    + clear. induction n as [|n IH]; [done|].
      rewrite seq_S, !map_app, concat_app, length_app, IH.
      cbn. lia.
    + unfold MAX_SPRITES_PER_BATCH in Hn. lia.
Qed.

Lemma indices_spec :
  indices =
  concat (map quad_indices
            (map N.of_nat (seq 0 (N.to_nat MAX_SPRITES_PER_BATCH)))).
Proof.
  unfold indices. rewrite fill_indices_rounds by lia.
  by rewrite Nat.sub_diag, app_nil_r.
Qed.
End IndexFacts.

(** ** Lists made of chunks of one length *)

Section ChunkFacts.
Context {A : Type}.
Implicit Types (ls : list (list A)) (c i j : nat).

Lemma drop_concat_uniform c ls i :
  Forall (fun l => length l = c) (take i ls) ->
  drop (c * i) (concat ls) = concat (drop i ls).
Proof.
  revert ls. induction i as [|i IH]; intros ls Hall.
  - by rewrite Nat.mul_0_r.
  - destruct ls as [|l ls]; [cbn [concat drop]; by rewrite drop_nil|].
    cbn [take concat drop] in *.
    apply Forall_cons in Hall as [Hl Hall].
    replace (c * S i)%nat with (length l + c * i)%nat by lia.
    rewrite <- drop_drop, drop_app_length. by apply IH.
Qed.

Lemma length_concat_uniform c ls :
  Forall (fun l => length l = c) ls ->
  length (concat ls) = (c * length ls)%nat.
Proof.
  induction 1 as [|l ls Hl _ IH]; [cbn; lia|].
  cbn [concat length]. rewrite length_app, IH. lia.
Qed.

(** The chunk of number [i], cut out of the concatenation. *)
Lemma chunk_concat_uniform c ls i l :
  Forall (fun l => length l = c) (take i ls) ->
  ls !! i = Some l ->
  length l = c ->
  take c (drop (c * i) (concat ls)) = l.
Proof.
  intros Hall Hi Hl. rewrite drop_concat_uniform by done.
  rewrite (drop_S _ _ _ Hi). cbn [concat].
  rewrite <- Hl. by rewrite take_app_length.
Qed.

Lemma lookup_concat_uniform c ls i j l :
  Forall (fun l => length l = c) (take i ls) ->
  ls !! i = Some l ->
  (j < length l)%nat ->
  concat ls !! (c * i + j)%nat = l !! j.
Proof.
  intros Hall Hi Hj. rewrite <- lookup_drop, drop_concat_uniform by done.
  rewrite (drop_S _ _ _ Hi). cbn [concat]. by rewrite lookup_app_l.
Qed.
End ChunkFacts.

Section IndexLookup.

Lemma length_quad_indices i : length (quad_indices i) = 6%nat.
Proof. done. Qed.

Lemma quad_indices_uniform (l : list N) :
  Forall (fun q => length q = 6%nat) (map quad_indices l).
Proof. apply Forall_forall. intros q (i & -> & _)%list_elem_of_fmap. done. Qed.

Lemma length_indices :
  length indices =
  N.to_nat (MAX_SPRITES_PER_BATCH * INDICES_PER_SPRITE).
Proof.
  rewrite indices_spec, (length_concat_uniform 6).
  - rewrite !length_map, length_seq.
    unfold MAX_SPRITES_PER_BATCH, INDICES_PER_SPRITE. lia.
  - apply quad_indices_uniform.
Qed.

Lemma lookup_indices (i k : nat) (v : N) :
  (i < N.to_nat MAX_SPRITES_PER_BATCH)%nat ->
  quad_pattern !! k = Some v ->
  indices !! (6 * i + k)%nat = Some (N.of_nat i * 4 + v)%N.
Proof.
  intros Hi Hk. rewrite indices_spec.
  rewrite (lookup_concat_uniform 6 _ i k (quad_indices (N.of_nat i))).
  - unfold quad_indices. by rewrite list_lookup_fmap, Hk.
  - apply Forall_take, quad_indices_uniform.
  - rewrite !list_lookup_fmap, lookup_seq_lt by done. done.
  - rewrite length_quad_indices. by apply lookup_lt_Some in Hk.
Qed.

(** The indices of the first [n] slots name vertices of these slots
    only. *)
Lemma indices_prefix_bound (n : nat) :
  (n <= N.to_nat MAX_SPRITES_PER_BATCH)%nat ->
  Forall (fun v => (v < 4 * N.of_nat n)%N) (take (6 * n) indices).
Proof.
  intros Hn. apply Forall_forall. intros v Hv.
  apply list_elem_of_lookup in Hv as [pos Hpos].
  apply lookup_take_Some in Hpos as [Hpos Hlt].
  pose proof (Nat.div_mod pos 6 ltac:(done)) as Hqr.
  pose proof (Nat.mod_upper_bound pos 6 ltac:(done)) as Hr.
  set (q := (pos / 6)%nat) in *. set (r := (pos mod 6)%nat) in *.
  clearbody q r. subst pos.
  assert (Hk : (r < length quad_pattern)%nat) by done.
  apply lookup_lt_is_Some in Hk as [w Hw].
  rewrite (lookup_indices _ _ w) in Hpos; [|lia|done].
  injection Hpos as <-.
  assert (w <= 3)%N.
  { apply list_elem_of_lookup_2 in Hw. unfold quad_pattern in Hw.
    repeat (apply elem_of_cons in Hw as [->|Hw]; [lia|]).
    by apply elem_of_nil in Hw. }
  lia.
Qed.
End IndexLookup.

(** ** The vertex layout reads what the vertex writer wrote *)

Section LayoutFacts.
Context {number : JsNumber}.
Variable rotate : Vec2 -> Vec2 -> num -> Vec2.

Lemma fetch_quad_positions sprite :
  map (fun n => fetch vertexBufferLayout (quad rotate sprite) n 0)
    [0; 1; 2; 3]%N =
  map (fun c : Vec2 => Some [fround c.1; fround c.2])
    (corner_list rotate sprite).
Proof.
  unfold corner_list, quad, vertex_writes.
  destruct (corners rotate sprite) as [[[tl tr] br] bl].
  destruct (uv sprite) as [u v].
  destruct (Sprite.color sprite) as [[r g] b].
  reflexivity.
Qed.

Lemma fetch_quad_uvs sprite :
  map (fun n => fetch vertexBufferLayout (quad rotate sprite) n 1)
    [0; 1; 2; 3]%N =
  map (fun t : Vec2 => Some [fround t.1; fround t.2]) (uv_list sprite).
Proof.
  unfold uv_list, quad, vertex_writes.
  destruct (corners rotate sprite) as [[[tl tr] br] bl].
  destruct (uv sprite) as [u v].
  destruct (Sprite.color sprite) as [[r g] b].
  reflexivity.
Qed.

Lemma fetch_quad_colors sprite :
  map (fun n => fetch vertexBufferLayout (quad rotate sprite) n 2)
    [0; 1; 2; 3]%N =
  replicate 4
    (Some [fround (Sprite.color sprite).1.1;
           fround (Sprite.color sprite).1.2;
           fround (Sprite.color sprite).2;
           fround (Sprite.alpha sprite)]).
Proof.
  unfold quad, vertex_writes.
  destruct (corners rotate sprite) as [[[tl tr] br] bl].
  destruct (uv sprite) as [u v].
  destruct (Sprite.color sprite) as [[r g] b].
  reflexivity.
Qed.

Lemma take_drop_slot (vertices : list num) (j m k : nat) :
  (m + k <= 32)%nat ->
  take k (drop m (slot vertices j)) = take k (drop (32 * j + m) vertices).
Proof.
  intros Hmk. unfold slot.
  replace 32%nat with (m + (32 - m))%nat at 1 by lia.
  rewrite <- take_drop_commute, take_take, drop_drop.
  f_equal. lia.
Qed.

(** A vertex of slot [j] of a vertex array is read from the floats of
    that slot alone. *)
Lemma fetch_slot (vertices : list num) (j : nat) (n location : N) :
  (n < 4)%N ->
  (32 * (j + 1) <= length vertices)%nat ->
  fetch vertexBufferLayout vertices (4 * N.of_nat j + n) location =
  fetch vertexBufferLayout (slot vertices j) n location.
Proof.
  intros Hn Hlen. unfold fetch.
  destruct (find _ (attributes vertexBufferLayout)) as [a|] eqn:Ha;
    [|done].
  assert (Hlen' : length (slot vertices j) = 32%nat).
  { unfold slot. rewrite length_take, length_drop. lia. }
  assert (Hoff : (offset a = 0 /\ components (format a) = 2 \/
                  offset a = 8 /\ components (format a) = 2 \/
                  offset a = 16 /\ components (format a) = 4)%N).
  { apply find_some in Ha as [Hin _]. cbn in Hin.
    destruct Hin as [<-|[<-|[<-|[]]]]; cbn; tauto. }
  change (arrayStride vertexBufferLayout) with 32%N.
  change BYTES_PER_ELEMENT with 4%N. cbv zeta.
  assert (Hk : (N.to_nat (offset a / 4) +
                N.to_nat (components (format a)) <= 8)%nat /\
               (offset a mod 4 = 0)%N).
  { destruct Hoff as [[-> ->]|[[-> ->]|[-> ->]]];
      (split; [vm_compute; lia|reflexivity]). }
  clear Hoff Ha.
  set (k := N.to_nat (components (format a))) in *.
  set (off := offset a) in *.
  clearbody k off. destruct Hk as [Hk Hmod].
  assert (Hs : N.to_nat ((n * 32 + off) / 4) =
               (8 * N.to_nat n + N.to_nat (off / 4))%nat).
  { replace (n * 32 + off)%N with (n * 8 * 4 + off)%N by lia.
    rewrite N.div_add_l by done. lia. }
  assert (Hb : N.to_nat (((4 * N.of_nat j + n) * 32 + off) / 4) =
               (32 * j + N.to_nat ((n * 32 + off) / 4))%nat).
  { replace ((4 * N.of_nat j + n) * 32 + off)%N
      with (N.of_nat j * 32 * 4 + (n * 32 + off))%N by lia.
    rewrite N.div_add_l by done. lia. }
  assert (Hm : (((4 * N.of_nat j + n) * 32 + off) mod 4 = 0)%N /\
               ((n * 32 + off) mod 4 = 0)%N).
  { split.
    - replace ((4 * N.of_nat j + n) * 32 + off)%N
        with (off + (N.of_nat j * 32 + n * 8) * 4)%N by lia.
      by rewrite N.Div0.mod_add.
    - replace (n * 32 + off)%N with (off + n * 8 * 4)%N by lia.
      by rewrite N.Div0.mod_add. }
  destruct Hm as [Hm1 Hm2].
  rewrite Hb, !decide_True by (split; lia).
  by rewrite take_drop_slot by lia.
Qed.
End LayoutFacts.

(** ** Where a sprite lies in the batches of its texture *)

Section SlotFacts.
Context {number : JsNumber}.
Variable rotate : Vec2 -> Vec2 -> num -> Vec2.

Lemma slot_written (b : Batch.t) (j : nat) :
  (32 * (j + 1) <= N.to_nat (Batch.instances b * FLOATS_PER_SPRITE))%nat ->
  slot (written b) j = slot (Batch.vertices b) j.
Proof.
  intros Hj. unfold slot, written.
  set (L := N.to_nat (Batch.instances b * FLOATS_PER_SPRITE)) in *.
  replace L with (32 * j + (L - 32 * j))%nat by lia.
  rewrite <- take_drop_commute, take_take. f_equal. lia.
Qed.

Lemma quads_uniform (sprites : list Sprite.t) :
  Forall (fun q => length q = 32%nat) (map (quad rotate) sprites).
Proof.
  apply Forall_forall. intros q (s & -> & _)%list_elem_of_fmap.
  apply length_quad.
Qed.

Lemma slot_of_batches k sprites batches i j sprite :
  batches_ok rotate k sprites batches ->
  (j < N.to_nat MAX_SPRITES_PER_BATCH)%nat ->
  sprites !! (N.to_nat MAX_SPRITES_PER_BATCH * i + j)%nat = Some sprite ->
  exists b,
    batches !! i = Some b /\
    (N.of_nat j < Batch.instances b)%N /\
    slot (Batch.vertices b) j = quad rotate sprite.
Proof.
  intros Hok Hj Hs.
  pose proof Hok as (full & cur & -> & Hfull & Hcur & Hdata).
  apply batches_ok_count in Hok as (_ & Hn & Hc).
  pose proof (lookup_lt_Some _ _ _ Hs) as Hg.
  assert (Hi : (i <= length full)%nat).
  { unfold MAX_SPRITES_PER_BATCH in *. nia. }
  assert (Hb : exists b, (full ++ [cur]) !! i = Some b /\
                         (N.of_nat j < Batch.instances b)%N /\
                         batch_ok k b).
  { destruct (decide (i = length full)) as [->|Hne].
    - exists cur. rewrite lookup_app_r, Nat.sub_diag by lia.
      split_and!; [done| |done].
      unfold MAX_SPRITES_PER_BATCH in *. lia.
    - assert (Hlt : (i < length full)%nat) by lia.
      apply lookup_lt_is_Some in Hlt as [b Hb]. exists b.
      rewrite lookup_app_l by (by eapply lookup_lt_Some).
      rewrite Forall_forall in Hfull.
      destruct (Hfull b (list_elem_of_lookup_2 _ _ _ Hb)) as [Hbok ->].
      split_and!; [done| |done]. lia. }
  destruct Hb as (b & Hb & Hjb & Hbok). exists b.
  split_and!; [done|done|].
  assert (Hq : take 32 (drop (32 * (N.to_nat MAX_SPRITES_PER_BATCH * i + j))
                          (concat (map (quad rotate) sprites))) =
               quad rotate sprite).
  { apply chunk_concat_uniform.
    - apply Forall_take, quads_uniform.
    - by rewrite list_lookup_fmap, Hs.
    - apply length_quad. }
  rewrite <- Hdata in Hq. rewrite <- Hq.
  assert (Hlw : length (written b) =
                N.to_nat (Batch.instances b * FLOATS_PER_SPRITE)).
  { destruct Hbok as [_ [_ ?] ? _]. by apply length_written. }
  assert (Hfit : (32 * (j + 1) <=
                  N.to_nat (Batch.instances b * FLOATS_PER_SPRITE))%nat).
  { change FLOATS_PER_SPRITE with 32%N. lia. }
  rewrite <- slot_written by done.
  replace (32 * (N.to_nat MAX_SPRITES_PER_BATCH * i + j))%nat
    with (capacity * i + 32 * j)%nat
    by (unfold capacity; change FLOATS_PER_SPRITE with 32%N;
        unfold MAX_SPRITES_PER_BATCH; lia).
  rewrite <- drop_drop, drop_concat_uniform.
  - rewrite (drop_S _ (written b)) by (by rewrite list_lookup_fmap, Hb).
    cbn [concat]. unfold slot.
    rewrite drop_app_le, take_app_le; [done| |lia].
    rewrite length_drop. lia.
  - rewrite <- fmap_take, take_app_le by done.
    apply Forall_forall. intros w (f & -> & Hf)%list_elem_of_fmap.
    rewrite Forall_forall in Hfull.
    destruct (Hfull f) as [[_ _ Hlen _] Hmax];
      [by eapply subseteq_take|].
    rewrite length_written; [|done|rewrite Hmax; lia].
    by rewrite Hmax.
Qed.
End SlotFacts.

(** ** The calls of a frame *)

Section CallFacts.
Context {number : JsNumber}.
Variable rotate : Vec2 -> Vec2 -> num -> Vec2.

Lemma new_textures_cached cache k l :
  is_Some (cache !! k) ->
  new_textures cache (k :: l) = new_textures cache l.
Proof.
  intros [g Hg]. unfold new_textures. cbn [distinct].
  rewrite filter_cons_False by congruence.
  rewrite list_filter_filter. apply list_filter_iff.
  intros k'. split; [tauto|]. intros Hk'. split; [done|congruence].
Qed.

Lemma new_textures_fresh cache k g l :
  cache !! k = None ->
  new_textures cache (k :: l) = k :: new_textures (<[k := g]> cache) l.
Proof.
  intros Hk. unfold new_textures. cbn [distinct].
  rewrite filter_cons_True by done. f_equal.
  rewrite list_filter_filter. apply list_filter_iff.
  intros k'. rewrite lookup_insert_None.
  split; intros [? ?]; split; done.
Qed.

(** The bind groups that the batching loop creates. *)
Lemma fold_created_calls sprites :
  forall s,
    let s' := fold_left (batch_sprite rotate) sprites s in
    let new := new_textures (groups s) (map texture_of sprites) in
    created s' = created s ++ bind_group_calls (groupCount s) new /\
    groupCount s' = (groupCount s + length new)%nat /\
    forall k g,
      groups s' !! k = Some g <->
      groups s !! k = Some g \/
      exists i, new !! i = Some k /\
                g = TextureBindGroup (groupCount s + i) k.
Proof.
  induction sprites as [|sprite l IH]; intros s; cbn zeta.
  - cbn. rewrite app_nil_r. split_and!; [done|lia|].
    intros k g. split; [tauto|]. intros [?|(i & Hi & _)]; [done|].
    by rewrite lookup_nil in Hi.
  - cbn [fold_left map].
    destruct (IH (batch_sprite rotate s sprite)) as (Hc & Hn & Hg).
    cbn zeta in Hc, Hn, Hg. rewrite Hc, Hn. clear Hc Hn IH.
    pose proof (groups_batch_sprite rotate s sprite) as H. cbv zeta in H.
    destruct (groups s !! texture_of sprite) eqn:Hk.
    + destruct H as (Hgr & Hcount & ->). rewrite Hgr, Hcount in *.
      rewrite new_textures_cached by (by eexists). done.
    + destruct H as (Hgr & Hcount & ->). rewrite Hgr, Hcount in *.
      rewrite (new_textures_fresh (groups s) _
                 (TextureBindGroup (groupCount s) (texture_of sprite)))
        by done.
      unfold bind_group_calls. cbn [imap length concat].
      rewrite <- app_assoc. cbn [app]. rewrite Nat.add_0_r.
      split_and!; [|lia|].
      * do 4 f_equal. apply imap_ext.
        intros i k _. cbn.
        by replace (groupCount s + S i)%nat
          with (S (groupCount s + i)) by lia.
      * intros k g. rewrite Hg. clear Hg.
        destruct (decide (k = texture_of sprite)) as [->|Hne].
        -- rewrite lookup_insert_eq. split.
           ++ intros [[= <-]|(i & Hi & ->)]; right.
              ** exists 0%nat. split; [done|]. f_equal. lia.
              ** exists (S i). split; [done|]. f_equal. lia.
           ++ intros [?|([|i] & Hi & ->)]; [congruence| |].
              ** left. do 2 f_equal. lia.
              ** right. exists i. split; [done|]. f_equal. lia.
        -- rewrite lookup_insert_ne by done. split.
           ++ intros [?|(i & Hi & ->)]; [by left|right].
              exists (S i). split; [done|]. f_equal. lia.
           ++ intros [?|([|i] & Hi & ->)]; [by left| |].
              ** cbn in Hi. congruence.
              ** right. exists i. split; [done|]. f_equal. lia.
Qed.

Lemma buffer_for_nil count i :
  buffer_for [] (S count) i = buffer_for [] count (S i).
Proof. unfold buffer_for. cbn [length]. rewrite !decide_False by lia. lia. Qed.

Lemma buffer_for_snoc buffers v count i :
  buffer_for buffers count i = buffer_for (buffers ++ [v]) count (S i).
Proof.
  unfold buffer_for. rewrite length_app. cbn [length].
  destruct (decide (i < length buffers)%nat).
  - rewrite decide_True by lia. rewrite app_nth1 by lia. f_equal. lia.
  - rewrite decide_False by lia. lia.
Qed.

Lemma buffer_for_last buffers v count :
  buffer_for (buffers ++ [v]) count 0 = v.
Proof.
  unfold buffer_for. rewrite length_app. cbn [length].
  rewrite decide_True by lia.
  replace (length buffers + 1 - 1 - 0)%nat with (length buffers) by lia.
  by rewrite nth_middle.
Qed.

Variable cache : gmap positive GPUBindGroup.

(** The calls that the draw loops encode. *)
Lemma draw_batches_calls (batches : list Batch.t) :
  forall d : Drawing,
    (forall b, b ∈ batches ->
               is_Some (cache !! Texture.id (Batch.texture b))) ->
    exists d',
      for_of (draw_batch cache) batches d = (Normal, d') /\
      encoded d' =
        encoded d ++
        concat (imap (batch_calls cache (pool d) (bufferCount d)) batches).
Proof.
  induction batches as [|b batches IH]; intros d Hcache.
  - exists d. cbn. by rewrite app_nil_r.
  - destruct (Hcache b) as [g Hg]; [by left|].
    assert (Hrest : forall b', b' ∈ batches ->
              is_Some (cache !! Texture.id (Batch.texture b')))
      by (intros; apply Hcache; by right).
    cbn [for_of]. unfold draw_batch at 1.
    destruct (snoc_cases (pool d)) as [Hp|(buffers & v & Hp)]; rewrite Hp.
    + rewrite array_pop_nil, Hg.
      match goal with |- context [for_of _ _ ?d1] =>
        destruct (IH d1 Hrest) as (d' & Hrun & Henc)
      end.
      cbn [pool bufferCount usedVertexBuffers encoded] in *.
      exists d'. split; [done|]. rewrite Henc. cbn [imap concat].
      rewrite <- !app_assoc. f_equal.
      unfold batch_calls at 2. rewrite Hg. cbn [length].
      rewrite decide_False by lia.
      unfold buffer_for at 1 2 3. cbn [length].
      rewrite decide_False by lia. rewrite Nat.sub_0_r, Nat.add_0_r.
      cbn [app]. do 8 f_equal.
      f_equal. apply imap_ext. intros i b' _. cbn.
      unfold batch_calls. rewrite buffer_for_nil. cbn [length].
      by rewrite !decide_False by lia.
    + rewrite array_pop_snoc, Hg.
      match goal with |- context [for_of _ _ ?d1] =>
        destruct (IH d1 Hrest) as (d' & Hrun & Henc)
      end.
      cbn [pool bufferCount usedVertexBuffers encoded] in *.
      exists d'. split; [done|]. rewrite Henc. cbn [imap concat].
      rewrite <- !app_assoc. f_equal.
      unfold batch_calls at 2. rewrite Hg, buffer_for_last.
      rewrite length_app. cbn [length]. rewrite decide_True by lia.
      cbn [app]. do 7 f_equal.
      f_equal. apply imap_ext. intros i b' _. cbn.
      unfold batch_calls. rewrite (buffer_for_snoc buffers v).
      rewrite length_app. cbn [length].
      destruct (decide (i < length buffers)%nat).
      * by rewrite decide_True by lia.
      * by rewrite decide_False by lia.
Qed.
End CallFacts.

(** ** The pool of vertex buffers across frames *)

Section PoolFacts.
Context {number : JsNumber}.
Variable rotate : Vec2 -> Vec2 -> num -> Vec2.

Lemma NoDup_taken buffers count n :
  NoDup buffers ->
  (forall v, v ∈ buffers -> (v < count)%nat) ->
  NoDup (taken buffers count n).
Proof.
  intros Hnd Hlt. unfold taken. apply NoDup_app. split_and!.
  - rewrite <- Permutation_rev.
    eapply sublist_NoDup; [done|apply sublist_drop].
  - intros v Hv Hs%elem_of_seq. rewrite <- Permutation_rev in Hv.
    assert (v ∈ buffers) as Hin%Hlt by (by eapply subseteq_drop). lia.
  - apply NoDup_seq.
Qed.

(** No buffer is lost and none occurs twice: in every state the pool
    holds the buffers created so far. *)
Lemma reachable_pool p :
  reachable rotate p -> vertexBuffers p ≡ₚ seq 0 (vertexBufferCount p).
Proof.
  induction 1 as [|p sprites _ IH]; [done|].
  destruct (renderPass_pool rotate p sprites) as (_ & Hcount & Hnew & Hperm).
  cbv zeta in *. rewrite Hcount, seq_app. etrans; [exact Hperm|].
  rewrite Hnew. by apply Permutation_app.
Qed.

Lemma taken_within buffers count n :
  (n <= length buffers)%nat ->
  taken buffers count n = rev (drop (length buffers - n) buffers).
Proof.
  intros Hn. unfold taken.
  replace (n - length buffers)%nat with 0%nat by lia.
  cbn [seq]. by rewrite app_nil_r.
Qed.

(** The pool after a frame that needs no new buffer. *)
Lemma renderPass_pool_within p sprites :
  (batch_count rotate sprites <= length (vertexBuffers p))%nat ->
  let n := batch_count rotate sprites in
  let keep := (length (vertexBuffers p) - n)%nat in
  vertexBuffers (renderPass rotate p sprites).1.2 =
    take keep (vertexBuffers p) ++ rev (drop keep (vertexBuffers p)) /\
  vertexBufferCount (renderPass rotate p sprites).1.2 = vertexBufferCount p.
Proof.
  intros Hn. cbv zeta.
  destruct (renderPass_spec rotate p sprites) as (log & -> & _).
  cbn [fst snd vertexBuffers vertexBufferCount].
  rewrite !(batch_count_any rotate p sprites).
  rewrite taken_within by done. split; [done|lia].
Qed.
End PoolFacts.

(** ** The release-notes tool *)

Module ReleaseNotesFacts.
Import JsString ReleaseNotes.

Example extract_sample :
extract_release_notes [lit "bun"; lit "tool"; lit "1.2.0"] sample =
Logged (lit "## 1.2.0
added").
Proof. vm_compute. reflexivity. Qed.

Lemma startsWith_prefix (s p : t) :
startsWith s p = true <-> p `prefix_of` s.
Proof.
revert s. induction p as [|c p IH]; intros s; cbn [startsWith].
- split; [intros _; apply prefix_nil|done].
- destruct s as [|d s].
  + split; [done|]. intros [k Hk]. done.
  + rewrite andb_true_iff, N.eqb_eq, IH. split.
    * intros [-> Hp]. by apply prefix_cons.
    * intros [k Hk]. cbn in Hk. injection Hk as -> ->.
      split; [done|]. by exists k.
Qed.

Lemma startsWith_app (p rest : t) : startsWith (p ++ rest) p = true.
Proof. apply startsWith_prefix. by exists rest. Qed.

(** What the scan returns: -1 when [here] holds nowhere, and otherwise
  the first position where it holds. *)
Lemma first_position_spec (here : t -> bool) (s : t) :
let r := first_position here s in
(r = (-1)%Z /\
 forall k, (k <= length s)%nat -> here (drop k s) = false) \/
((0 <= r <= Z.of_nat (length s))%Z /\
 here (drop (Z.to_nat r) s) = true /\
 forall k, (k < Z.to_nat r)%nat -> here (drop k s) = false).
Proof.
induction s as [|c s IH]; cbn [first_position].
- destruct (here []) eqn:H0.
  + right. cbn. split_and!; [lia|lia|done|lia].
  + left. split; [done|]. intros k Hk. by rewrite drop_nil.
- destruct (here (c :: s)) eqn:H0.
  + right. cbn [length drop Z.to_nat]. split_and!; [lia|lia|done|lia].
  + cbv zeta in IH. destruct IH as [[-> Hno]|(Hr & Hat & Hno)].
    * left. cbn. split; [done|]. intros [|k] Hk; [done|].
      cbn [drop]. apply Hno. lia.
    * right. destruct (Z.eqb_spec (first_position here s) (-1)); [lia|].
      cbv zeta. cbn [length].
      replace (Z.to_nat (first_position here s + 1))
        with (S (Z.to_nat (first_position here s))) by lia.
      cbn [drop]. split_and!; [lia|lia|done|].
      intros [|k] Hk; [done|]. cbn [drop]. apply Hno. lia.
Qed.

(** The scan returns the position that is the first. *)
Lemma first_position_unique (here : t -> bool) (s : t) (k : nat) :
(k <= length s)%nat ->
here (drop k s) = true ->
(forall j, (j < k)%nat -> here (drop j s) = false) ->
first_position here s = Z.of_nat k.
Proof.
intros Hk Hat Hno.
destruct (first_position_spec here s) as [[_ Hnone]|(Hr & Hat' & Hno')].
- rewrite Hnone in Hat by done. done.
- destruct (Nat.lt_trichotomy k (Z.to_nat (first_position here s)))
    as [Hlt|[Heq|Hgt]].
  + rewrite Hno' in Hat by done. done.
  + lia.
  + rewrite Hno in Hat' by done. done.
Qed.

Lemma substring_from (s : t) (a : Z) :
(0 <= a <= Z.of_nat (length s))%Z ->
substring s a None = drop (Z.to_nat a) s.
Proof.
intros Ha. unfold substring.
replace (Z.min (Z.max a 0) (Z.of_nat (length s))) with a by lia.
replace (Z.min a (Z.of_nat (length s))) with a by lia.
replace (Z.max a (Z.of_nat (length s)))
  with (Z.of_nat (length s)) by lia.
apply take_ge. rewrite length_drop. lia.
Qed.

Lemma substring_range (s : t) (a b : Z) :
(0 <= a <= b)%Z -> (b <= Z.of_nat (length s))%Z ->
substring s a (Some b) = take (Z.to_nat (b - a)) (drop (Z.to_nat a) s).
Proof.
intros Ha Hb. unfold substring.
replace (Z.min (Z.max a 0) (Z.of_nat (length s))) with a by lia.
replace (Z.min (Z.max b 0) (Z.of_nat (length s))) with b by lia.
replace (Z.min a b) with a by lia.
replace (Z.max a b) with b by lia. done.
Qed.

Lemma occurs_at_startsWith (piece s : t) (k : nat) :
occurs_at piece s k <->
(k <= length s)%nat /\ startsWith (drop k s) piece = true.
Proof. unfold occurs_at. by rewrite startsWith_prefix. Qed.

(** [indexOf]: -1 when the piece occurs nowhere, otherwise the place of
  its first occurrence. *)
Lemma indexOf_spec (s piece : t) :
(indexOf s piece = (-1)%Z /\ forall k, ~ occurs_at piece s k) \/
(exists k, indexOf s piece = Z.of_nat k /\ occurs_at piece s k /\
           forall j, (j < k)%nat -> ~ occurs_at piece s j).
Proof.
unfold indexOf.
destruct (first_position_spec (fun rest => startsWith rest piece) s)
  as [[-> Hno]|(Hr & Hat & Hno)].
- left. split; [done|]. intros k [Hk Hp]%occurs_at_startsWith.
  rewrite Hno in Hp by done. done.
- right. exists (Z.to_nat (first_position (fun rest => startsWith rest piece) s)).
  split_and!; [lia| |].
  + apply occurs_at_startsWith. split; [lia|done].
  + intros j Hj [_ Hp]%occurs_at_startsWith.
    rewrite Hno in Hp by done. done.
Qed.

(** *** The pattern of a version heading *)

Lemma literal_Some (piece : string) (s r : t) :
literal piece s = Some r <-> s = lit piece ++ r.
Proof.
unfold literal. destruct (startsWith s (lit piece)) eqn:Hs.
- apply startsWith_prefix in Hs as [k ->].
  rewrite drop_app_length. split; [by intros [= ->]|].
  by intros ->%app_inv_head.
- split; [done|]. intros ->. by rewrite startsWith_app in Hs.
Qed.

Lemma skip_digits_spec (s : t) :
exists d, s = d ++ skip_digits s /\ forallb is_digit d = true.
Proof.
induction s as [|c s (d & Hd & Hall)]; [by exists []|].
cbn [skip_digits]. destruct (is_digit c) eqn:Hc.
- exists (c :: d). cbn [forallb app]. rewrite Hc, Hall.
  split; [by rewrite <- Hd|done].
- by exists [].
Qed.

Lemma digits_Some (s r : t) :
digits s = Some r ->
exists d, s = d ++ r /\ d ≠ [] /\ forallb is_digit d = true.
Proof.
destruct s as [|c s]; cbn [digits]; [done|].
destruct (is_digit c) eqn:Hc; [|done]. intros [= <-].
destruct (skip_digits_spec s) as (d & Hd & Hall).
exists (c :: d). cbn [forallb app]. rewrite Hc, Hall.
split_and!; [by rewrite <- Hd|done|done].
Qed.

Lemma skip_digits_app (d x : t) :
forallb is_digit d = true -> skip_digits (d ++ x) = skip_digits x.
Proof.
induction d as [|c d IH]; [done|]. cbn [forallb app skip_digits].
intros [-> Hd]%andb_true_iff. by apply IH.
Qed.

Lemma digits_app (d x : t) :
d ≠ [] -> forallb is_digit d = true ->
digits (d ++ x) = Some (skip_digits x).
Proof.
destruct d as [|c d]; [done|]. intros _. cbn [forallb app digits].
intros [-> Hd]%andb_true_iff. by rewrite skip_digits_app.
Qed.

(** The matcher decides the pattern [/## \d+\.\d+\.\d+/]. *)
Lemma header_here_header (s : t) : header_here s = true <-> header s.
Proof.
unfold header_here, header. split.
- destruct (literal "## " s) as [s1|] eqn:H1; [|done].
  destruct (digits s1) as [s2|] eqn:H2; [|done].
  destruct (literal "." s2) as [s3|] eqn:H3; [|done].
  destruct (digits s3) as [s4|] eqn:H4; [|done].
  destruct (literal "." s4) as [s5|] eqn:H5; [|done].
  destruct (digits s5) as [s6|] eqn:H6; [|done]. intros _.
  apply literal_Some in H1, H3, H5.
  apply digits_Some in H2 as (major & ? & ? & ?).
  apply digits_Some in H4 as (minor & ? & ? & ?).
  apply digits_Some in H6 as (patch & ? & ? & ?).
  exists major, minor, patch, s6. by subst.
- intros (major & minor & patch & rest & -> &
          Hn1 & Hn2 & Hn3 & Hd1 & Hd2 & Hd3).
  assert (Hdot : forall x, skip_digits (lit "." ++ x) = lit "." ++ x)
    by done.
  assert (H1 : literal "## "
            (lit "## " ++ major ++ lit "." ++ minor ++ lit "." ++
             patch ++ rest) =
          Some (major ++ lit "." ++ minor ++ lit "." ++ patch ++ rest))
    by (by apply literal_Some).
  rewrite H1, digits_app, Hdot by done.
  assert (H2 : literal "." (lit "." ++ minor ++ lit "." ++ patch ++ rest)
               = Some (minor ++ lit "." ++ patch ++ rest))
    by (by apply literal_Some).
  rewrite H2, digits_app, Hdot by done.
  assert (H3 : literal "." (lit "." ++ patch ++ rest)
               = Some (patch ++ rest))
    by (by apply literal_Some).
  by rewrite H3, digits_app by done.
Qed.

Lemma header_app (s x : t) : header s -> header (s ++ x).
Proof.
intros (major & minor & patch & rest & -> & ?).
exists major, minor, patch, (rest ++ x).
split; [|done]. by rewrite <- !app_assoc.
Qed.

Lemma header_here_app (s x : t) :
header_here s = true -> header_here (s ++ x) = true.
Proof. rewrite !header_here_header. apply header_app. Qed.

Lemma header_here_head (s : t) :
header_here s = true -> exists r, s = 35%N :: 35%N :: r.
Proof.
intros (major & minor & patch & rest & -> & _)%header_here_header.
by eexists.
Qed.

(** *** [trim] *)

Lemma trimStart_keep (c : N) (s : t) :
is_white_space c = false -> trimStart (c :: s) = c :: s.
Proof. intros Hc. cbn [trimStart]. by rewrite Hc. Qed.

Lemma trimStart_app (x : t) (c : N) (y : t) :
is_white_space c = false ->
trimStart (x ++ c :: y) = trimStart x ++ c :: y.
Proof.
intros Hc. induction x as [|d x IH]; cbn [app trimStart].
- by rewrite Hc.
- by destruct (is_white_space d).
Qed.

Lemma trimStart_idemp (s : t) : trimStart (trimStart s) = trimStart s.
Proof.
induction s as [|c s IH]; [done|]. cbn [trimStart].
destruct (is_white_space c) eqn:Hc; [done|]. by apply trimStart_keep.
Qed.

Lemma trimStart_suffix (s : t) :
exists ws, s = ws ++ trimStart s /\ forallb is_white_space ws = true.
Proof.
induction s as [|c s (ws & Hs & Hws)]; [by exists []|].
cbn [trimStart]. destruct (is_white_space c) eqn:Hc.
- exists (c :: ws). cbn [app forallb]. rewrite Hc, Hws.
  split; [by rewrite <- Hs|done].
- by exists [].
Qed.

Lemma trimStart_head (s : t) :
trimStart s = [] \/
exists c r, trimStart s = c :: r /\ is_white_space c = false.
Proof.
induction s as [|c s IH]; [by left|]. cbn [trimStart].
destruct (is_white_space c) eqn:Hc; [done|]. right. by exists c, s.
Qed.

Lemma trimEnd_app (a : t) (c : N) (b : t) :
is_white_space c = false ->
trimEnd (a ++ c :: b) = a ++ c :: trimEnd b.
Proof.
intros Hc. unfold trimEnd. rewrite rev_app_distr. cbn [rev].
rewrite <- app_assoc. cbn [app]. rewrite trimStart_app by done.
rewrite rev_app_distr. cbn [rev].
by rewrite rev_involutive, <- app_assoc.
Qed.

Lemma trimEnd_cons (c : N) (b : t) :
is_white_space c = false -> trimEnd (c :: b) = c :: trimEnd b.
Proof. apply (trimEnd_app [] c b). Qed.

Lemma trimEnd_idemp (s : t) : trimEnd (trimEnd s) = trimEnd s.
Proof. unfold trimEnd. by rewrite rev_involutive, trimStart_idemp. Qed.

Lemma trimEnd_prefix (s : t) :
exists ws, s = trimEnd s ++ ws /\ forallb is_white_space ws = true.
Proof.
destruct (trimStart_suffix (rev s)) as (ws & Hs & Hws).
exists (rev ws). split.
- unfold trimEnd. rewrite <- rev_app_distr, <- Hs.
  by rewrite rev_involutive.
- rewrite forallb_forall in *. intros c Hc%in_rev. by apply Hws.
Qed.

Lemma trimEnd_last (s : t) :
trimEnd s = [] \/
exists r c, trimEnd s = r ++ [c] /\ is_white_space c = false.
Proof.
unfold trimEnd. destruct (trimStart_head (rev s)) as [->|(c & r & -> & Hc)].
- by left.
- right. exists (rev r), c. by cbn [rev].
Qed.

Lemma trim_idemp (s : t) : trim (trim s) = trim s.
Proof.
unfold trim. destruct (trimStart_head s) as [->|(c & r & -> & Hc)].
- done.
- rewrite (trimEnd_cons c r) by done.
  rewrite trimStart_keep by done.
  rewrite (trimEnd_cons c) by done.
  by rewrite trimEnd_idemp.
Qed.

(** *** The script *)

Lemma header_here_second (x : t) :
header_here (35%N :: 32%N :: x) = false.
Proof.
destruct (header_here _) eqn:H; [|done].
by apply header_here_head in H as [r [=]].
Qed.

(** No heading starts inside ["## " ++ version], after its first place,
  when the version holds no [#]. *)
Lemma no_header_in_piece (version tail : t) (j : nat) :
35%N ∉ version ->
(1 <= j < length (lit "## " ++ version))%nat ->
header_here (drop j ((lit "## " ++ version) ++ tail)) = false.
Proof.
intros Hv Hj. change (lit "## ") with [35; 35; 32]%N in *.
cbn [app length] in *.
destruct j as [|[|[|j]]]; cbn [drop]; [lia| | |].
- apply header_here_second.
- destruct (header_here _) eqn:H; [|done].
  by apply header_here_head in H as [r [=]].
- destruct (header_here _) eqn:H; [|done].
  apply header_here_head in H as [r Hr].
  rewrite drop_app_le in Hr by lia.
  destruct (drop j version) as [|c rest] eqn:Hd.
  + apply (f_equal length) in Hd. rewrite length_drop in Hd.
    cbn in Hd. lia.
  + injection Hr as -> _. exfalso. apply Hv.
    apply (subseteq_drop j). rewrite Hd. by left.
Qed.

(** What the script does once a version is given. *)
Lemma extract_spec (argv : list t) (content version : t) :
argv !! 2%nat = Some version -> version ≠ [] ->
let piece := lit "## " ++ version in
(extract_release_notes argv content =
   Thrown (lit "Version " ++ version ++
           lit " not found in RELEASE_NOTES.md") /\
 forall k, ~ occurs_at piece content k) \/
exists pre notes rest,
  content = pre ++ notes ++ rest /\
  occurs_at piece content (length pre) /\
  (forall j, (j < length pre)%nat -> ~ occurs_at piece content j) /\
  lit "##" `prefix_of` notes /\
  (35%N ∉ version -> piece `prefix_of` notes) /\
  (forall j, (1 <= j < length notes)%nat ->
             header_here (drop j (notes ++ rest)) = false) /\
  (rest = [] \/ header_here rest = true) /\
  extract_release_notes argv content = Logged (trim notes).
Proof.
intros Hargv Hne piece. unfold extract_release_notes.
unfold t in *. rewrite Hargv.
assert (Hmatch : forall (A : Type) (a b : A),
          match version with [] => a | _ :: _ => b end = b)
  by (by destruct version).
rewrite Hmatch. clear Hmatch. fold piece.
destruct (indexOf_spec content piece)
  as [[Hi Hno]|(k & Hi & Hocc & Hfirst)]; rewrite Hi.
{ left. by rewrite Z.eqb_refl. }
right. destruct (Z.eqb_spec (Z.of_nat k) (-1)) as [|_]; [lia|].
cbv zeta. pose proof Hocc as [Hk [tail Htail]].
assert (Hpiece : (3 <= length piece)%nat).
{ unfold piece. rewrite length_app. change (lit "## ") with [35;35;32]%N.
  cbn [length]. lia. }
assert (Hlen : (k + length piece <= length content)%nat).
{ apply (f_equal length) in Htail.
  rewrite length_drop, length_app in Htail. lia. }
assert (Hpre : length (take k content) = k)
  by (rewrite length_take; lia).
assert (Htwo : lit "##" `prefix_of` drop k content).
{ rewrite Htail. unfold piece. change (lit "## ") with [35;35;32]%N.
  change (lit "##") with [35;35]%N. cbn [app].
  by exists (32%N :: version ++ tail). }
rewrite substring_from by lia.
replace (Z.to_nat (Z.of_nat k + 1)) with (S k) by lia.
unfold search.
destruct (first_position_spec header_here (drop (S k) content))
  as [[Hs Hnone]|(Hr & Hat & Hnone)].
- rewrite Hs, Z.eqb_refl. rewrite substring_from by lia.
  rewrite Nat2Z.id.
  exists (take k content), (drop k content), [].
  rewrite Hpre, app_nil_r, take_drop.
  split_and!; try done.
  + intros _. by exists tail.
  + intros j Hj. rewrite drop_drop.
    replace (k + j)%nat with (S k + (j - 1))%nat by lia.
    rewrite <- drop_drop. apply Hnone. rewrite length_drop in *. lia.
  + by left.
- set (r := first_position header_here (drop (S k) content)) in *.
  destruct (Z.eqb_spec r (-1)) as [|_]; [lia|].
  rewrite length_drop in Hr.
  rewrite substring_range by lia.
  replace (Z.to_nat (Z.of_nat k + 1 + r - Z.of_nat k))
    with (S (Z.to_nat r)) by lia.
  rewrite Nat2Z.id.
  exists (take k content), (take (S (Z.to_nat r)) (drop k content)),
    (drop (S (Z.to_nat r)) (drop k content)).
  rewrite Hpre, !take_drop.
  assert (Hnotes : length (take (S (Z.to_nat r)) (drop k content))
                   = S (Z.to_nat r)).
  { rewrite length_take, length_drop. lia. }
  assert (Hr1 : (1 <= Z.to_nat r)%nat).
  { destruct (Z.to_nat r) eqn:Hr0; [|lia].
    rewrite drop_0 in Hat.
    replace (S k) with (k + 1)%nat in Hat by lia.
    rewrite <- drop_drop, Htail in Hat. unfold piece in Hat.
    change (lit "## ") with [35;35;32]%N in Hat. cbn [app drop] in Hat.
    by rewrite header_here_second in Hat. }
  split_and!; try done.
  + destruct Htwo as [x Hx]. rewrite Hx.
    change (lit "##") with [35;35]%N. cbn [app].
    destruct (Z.to_nat r) as [|n]; [lia|]. cbn [take].
    by eexists.
  + intros Hv. rewrite Htail.
    rewrite take_app_ge.
    * by eexists.
    * destruct (le_lt_dec (length piece) (S (Z.to_nat r)))
        as [|Hlt]; [done|]. exfalso.
      pose proof (no_header_in_piece version tail (S (Z.to_nat r)) Hv)
        as Hnot.
      fold piece in Hnot. rewrite <- Htail, drop_drop in Hnot.
      replace (k + S (Z.to_nat r))%nat with (S k + Z.to_nat r)%nat
        in Hnot by lia.
      rewrite <- drop_drop, Hat in Hnot.
      by apply diff_true_false, Hnot; lia.
  + intros j Hj. rewrite Hnotes in Hj. rewrite drop_drop.
    replace (k + j)%nat with (S k + (j - 1))%nat by lia.
    rewrite <- drop_drop. apply Hnone. lia.
  + right. rewrite drop_drop.
    replace (k + S (Z.to_nat r))%nat with (S k + Z.to_nat r)%nat by lia.
    by rewrite <- drop_drop.
Qed.

(** The script prints only when a version is given. *)
Lemma logged_has_version (argv : list t) (content : t) :
match extract_release_notes argv content with
| Logged _ => exists version, argv !! 2%nat = Some version /\ version ≠ []
| Thrown _ => True
end.
Proof.
unfold extract_release_notes. unfold t in *.
destruct (argv !! 2%nat) as [[|c version]|]; [done| |done].
destruct (_ =? _)%Z; [done|]. by eexists.
Qed.

End ReleaseNotesFacts.

(** ** The vertex writer and the layout of the earlier version *)

Section PreviousFacts.
Context {number : JsNumber}.

Lemma previous_offsets (sprite : Sprite.t) :
  map fst (Previous.vertex_writes sprite) = map N.of_nat (seq 0 28).
Proof. reflexivity. Qed.

Lemma length_previous_quad (sprite : Sprite.t) :
  length (Previous.quad sprite) = 28%nat.
Proof. reflexivity. Qed.

(** The 28 stores of one sprite fill the slot of the sprite. *)
Lemma previous_write_sprite_slot (b : Batch.t) (sprite : Sprite.t) :
  (Batch.instances b < MAX_SPRITES_PER_BATCH)%N ->
  length (Batch.vertices b) = Previous.capacity ->
  take 28 (drop (28 * N.to_nat (Batch.instances b))
             (Batch.vertices (Previous.write_sprite b sprite))) =
  Previous.quad sprite /\
  length (Batch.vertices (Previous.write_sprite b sprite)) =
    Previous.capacity.
Proof.
  intros Hinst Hlen.
  set (i := (28 * N.to_nat (Batch.instances b))%nat).
  assert (Hi : (i + 28 <= Previous.capacity)%nat).
  { unfold i, Previous.capacity.
    change Previous.FLOATS_PER_SPRITE with 28%N.
    unfold MAX_SPRITES_PER_BATCH in *. lia. }
  assert (Hv : Batch.vertices (Previous.write_sprite b sprite) =
               take i (Batch.vertices b) ++ Previous.quad sprite ++
               drop (i + 28) (Batch.vertices b)).
  { cbn [Previous.write_sprite Batch.vertices].
    rewrite (store_run _ _ 0).
    - change (length (Previous.vertex_writes sprite)) with 28%nat.
      change Previous.FLOATS_PER_SPRITE with 28%N.
      replace (N.to_nat (Batch.instances b * 28) + 0)%nat with i
        by (unfold i; lia).
      done.
    - apply previous_offsets.
    - change (length (Previous.vertex_writes sprite)) with 28%nat.
      change Previous.FLOATS_PER_SPRITE with 28%N.
      rewrite Hlen. unfold i in Hi. lia. }
  assert (Ht : length (take i (Batch.vertices b)) = i)
    by (rewrite length_take; lia).
  rewrite Hv. split.
  - rewrite drop_app_ge by lia. rewrite Ht, Nat.sub_diag, drop_0.
    rewrite take_app_le by (rewrite length_previous_quad; lia).
    apply take_ge. rewrite length_previous_quad. lia.
  - rewrite !length_app, Ht, length_previous_quad, length_drop. lia.
Qed.

(** A vertex of slot [j] is read from the floats of that slot alone. *)
Lemma previous_fetch_slot (vertices : list num) (j : nat)
    (n location : N) :
  (n < 4)%N ->
  (28 * (j + 1) <= length vertices)%nat ->
  fetch Previous.vertexBufferLayout vertices (4 * N.of_nat j + n) location =
  fetch Previous.vertexBufferLayout (take 28 (drop (28 * j) vertices))
    n location.
Proof.
  intros Hn Hlen. unfold fetch.
  destruct (find _ (attributes Previous.vertexBufferLayout)) as [a|] eqn:Ha;
    [|done].
  assert (Hlen' : length (take 28 (drop (28 * j) vertices)) = 28%nat).
  { rewrite length_take, length_drop. lia. }
  assert (Hoff : (offset a = 0 /\ components (format a) = 2 \/
                  offset a = 8 /\ components (format a) = 2 \/
                  offset a = 16 /\ components (format a) = 3)%N).
  { apply find_some in Ha as [Hin _]. cbn in Hin.
    destruct Hin as [<-|[<-|[<-|[]]]]; cbn; tauto. }
  change (arrayStride Previous.vertexBufferLayout) with 28%N.
  change BYTES_PER_ELEMENT with 4%N. cbv zeta.
  assert (Hk : (N.to_nat (offset a / 4) +
                N.to_nat (components (format a)) <= 7)%nat /\
               (offset a mod 4 = 0)%N).
  { destruct Hoff as [[-> ->]|[[-> ->]|[-> ->]]];
      (split; [vm_compute; lia|reflexivity]). }
  clear Hoff Ha.
  set (k := N.to_nat (components (format a))) in *.
  set (off := offset a) in *.
  clearbody k off. destruct Hk as [Hk Hmod].
  assert (Hs : N.to_nat ((n * 28 + off) / 4) =
               (7 * N.to_nat n + N.to_nat (off / 4))%nat).
  { replace (n * 28 + off)%N with (n * 7 * 4 + off)%N by lia.
    rewrite N.div_add_l by done. lia. }
  assert (Hb : N.to_nat (((4 * N.of_nat j + n) * 28 + off) / 4) =
               (28 * j + N.to_nat ((n * 28 + off) / 4))%nat).
  { replace ((4 * N.of_nat j + n) * 28 + off)%N
      with (N.of_nat j * 28 * 4 + (n * 28 + off))%N by lia.
    rewrite N.div_add_l by done. lia. }
  assert (Hm : (((4 * N.of_nat j + n) * 28 + off) mod 4 = 0)%N /\
               ((n * 28 + off) mod 4 = 0)%N).
  { split.
    - replace ((4 * N.of_nat j + n) * 28 + off)%N
        with (off + (N.of_nat j * 28 + n * 7) * 4)%N by lia.
      by rewrite N.Div0.mod_add.
    - replace (n * 28 + off)%N with (off + n * 7 * 4)%N by lia.
      by rewrite N.Div0.mod_add. }
  destruct Hm as [Hm1 Hm2].
  rewrite Hb, !decide_True by (split; lia).
  f_equal. rewrite Hs.
  set (m := (7 * N.to_nat n + N.to_nat (off / 4))%nat).
  assert (Hmk : (m + k <= 28)%nat) by (unfold m; lia).
  clearbody m.
  replace 28%nat with (m + (28 - m))%nat at 2 by lia.
  rewrite <- take_drop_commute, take_take, drop_drop.
  f_equal. lia.
Qed.
End PreviousFacts.

(** ** Further properties of the render pass *)

(** X1.  The loop that fills the index buffer leaves, for every slot [i]
    below [MAX_SPRITES_PER_BATCH], the six indices 4i, 4i+1, 4i+2, 4i+2,
    4i+3, 4i, slot after slot; the buffer has 60000 indices, and no index
    is cut by the store into the [Uint16Array]: each is below 40000. *)
Theorem index_buffer_quads :
  indices =
    concat (map (fun i => [i * 4 + 0; i * 4 + 1; i * 4 + 2;
                           i * 4 + 2; i * 4 + 3; i * 4 + 0]%N)
              (map N.of_nat (seq 0 (N.to_nat MAX_SPRITES_PER_BATCH)))) /\
  length indices = N.to_nat 60000 /\
  Forall (fun index => (index < 4 * MAX_SPRITES_PER_BATCH)%N) indices.
Proof.
  split_and!.
  - apply indices_spec.
  - rewrite length_indices. reflexivity.
  - rewrite <- (take_ge indices (6 * N.to_nat MAX_SPRITES_PER_BATCH)).
    + eapply Forall_impl; [apply indices_prefix_bound; lia|].
      intros v Hv. cbv beta in Hv. lia.
    + rewrite length_indices.
      unfold MAX_SPRITES_PER_BATCH, INDICES_PER_SPRITE. lia.
Qed.

(** A vertex of the slot that the vertex writer has just filled, read
    through the layout from the array of the batch. *)
Lemma fetch_stored {number : JsNumber}
    (rotate : Vec2 -> Vec2 -> num -> Vec2)
    (b : Batch.t) (sprite : Sprite.t) (n location : N) :
  (Batch.instances b < MAX_SPRITES_PER_BATCH)%N ->
  length (Batch.vertices b) = capacity ->
  (n < 4)%N ->
  fetch vertexBufferLayout (Batch.vertices (write_sprite rotate b sprite))
    (4 * Batch.instances b + n) location =
  fetch vertexBufferLayout (quad rotate sprite) n location.
Proof.
  intros Hinst Hlen Hn.
  replace (4 * Batch.instances b + n)%N
    with (4 * N.of_nat (N.to_nat (Batch.instances b)) + n)%N by lia.
  rewrite fetch_slot.
  - unfold slot. by rewrite write_sprite_slot.
  - done.
  - rewrite length_write_sprite, Hlen. unfold capacity.
    change FLOATS_PER_SPRITE with 32%N.
    unfold MAX_SPRITES_PER_BATCH in *. lia.
Qed.

(** X2.  The vertex layout and the vertex writer agree: the attributes of
    the layout lie one after the other and fill the stride, and when the
    writer has stored a sprite in a batch, the vertex stage receives from
    the array of the batch, for the four vertices of the slot of the
    sprite, the four corners at location 0, the four texture coordinates
    at location 1, and the color and the alpha of the sprite at
    location 2. *)
Theorem layout_reads_vertex_writer {number : JsNumber}
    (rotate : Vec2 -> Vec2 -> num -> Vec2)
    (b : Batch.t) (sprite : Sprite.t) :
  (Batch.instances b < MAX_SPRITES_PER_BATCH)%N ->
  length (Batch.vertices b) = capacity ->
  let stored := Batch.vertices (write_sprite rotate b sprite) in
  let first := (4 * Batch.instances b)%N in
  tiles 0 (attributes vertexBufferLayout) (arrayStride vertexBufferLayout)
    = true /\
  map (fun n => fetch vertexBufferLayout stored (first + n) 0)
    [0; 1; 2; 3]%N =
    map (fun c : Vec2 => Some [fround c.1; fround c.2])
      (corner_list rotate sprite) /\
  map (fun n => fetch vertexBufferLayout stored (first + n) 1)
    [0; 1; 2; 3]%N =
    map (fun t : Vec2 => Some [fround t.1; fround t.2]) (uv_list sprite) /\
  map (fun n => fetch vertexBufferLayout stored (first + n) 2)
    [0; 1; 2; 3]%N =
    replicate 4
      (Some [fround (Sprite.color sprite).1.1;
             fround (Sprite.color sprite).1.2;
             fround (Sprite.color sprite).2;
             fround (Sprite.alpha sprite)]).
Proof.
  intros Hinst Hlen. cbv zeta.
  split_and!; [reflexivity|..]; cbn [map];
    rewrite !(fetch_stored rotate) by (done || lia).
  - exact (fetch_quad_positions rotate sprite).
  - exact (fetch_quad_uvs rotate sprite).
  - exact (fetch_quad_colors rotate sprite).
Qed.

(** X2 at a sprite written into the second slot of a batch: the
    positions that the vertex stage receives. *)
Lemma layout_reads_vertex_writer_witness :
  map (fun n =>
         fetch vertexBufferLayout
           (Batch.vertices
              (write_sprite Examples.no_rotate
                 (write_sprite Examples.no_rotate
                    (new_batch (Examples.atlas 1)) Examples.on_first)
                 (Examples.sprite_at 1 1 3 2 Binary64.b64_zero)))
           (4 + n) 0)
    [0; 1; 2; 3]%N =
  [ Some [Binary64.of_Z 1; Binary64.of_Z 1];
    Some [Binary64.of_Z 4; Binary64.of_Z 1];
    Some [Binary64.of_Z 4; Binary64.of_Z 3];
    Some [Binary64.of_Z 1; Binary64.of_Z 3] ].
Proof.
  refine (proj1 (proj2 (layout_reads_vertex_writer Examples.no_rotate
                          (write_sprite Examples.no_rotate
                             (new_batch (Examples.atlas 1))
                             Examples.on_first)
                          (Examples.sprite_at 1 1 3 2 Binary64.b64_zero)
                          _ _))).
  - vm_compute. reflexivity.
  - rewrite length_write_sprite. apply length_new_batch.
Defined.

(** A batch of the list of a texture is one of the batches drawn. *)
Lemma get_drawn {number : JsNumber} (m : JsMap.t (list Batch.t)) (k : positive)
    (i : nat) (b : Batch.t) :
  default [] (JsMap.get m k) !! i = Some b -> b ∈ drawn m.
Proof.
  intros Hb.
  destruct (JsMap.get m k) as [bs|] eqn:Hk; cbn [default] in Hb;
    [|by rewrite lookup_nil in Hb].
  apply list_elem_of_In, in_concat. exists bs. split.
  - apply in_map_iff. exists (k, bs). split; [done|].
    apply list_elem_of_In. clear -Hk.
    induction m as [|[k' v'] m IH]; [done|].
    cbn in Hk. destruct (decide (k' = k)) as [->|].
    + injection Hk as ->. by left.
    + right. by apply IH.
  - apply list_elem_of_In. by eapply list_elem_of_lookup_2.
Qed.

(** X3.  The sprite of number [MAX_SPRITES_PER_BATCH * i + j] among the
    sprites of a texture, [j] below [MAX_SPRITES_PER_BATCH], lies in slot
    [j] of the batch of number [i] of that texture: the batch exists, it
    counts more than [j] sprites, and the 32 floats of its slot [j] are
    the floats of the sprite. *)
Theorem slot_holds_sprite {number : JsNumber}
    (rotate : Vec2 -> Vec2 -> num -> Vec2)
    (p : Pipeline) (sprites : list Sprite.t) (k : positive)
    (i j : nat) (sprite : Sprite.t) :
  (j < N.to_nat MAX_SPRITES_PER_BATCH)%nat ->
  with_texture k sprites !! (N.to_nat MAX_SPRITES_PER_BATCH * i + j)%nat
    = Some sprite ->
  exists b,
    default [] (JsMap.get (batchMap (batching rotate p sprites)) k) !! i
      = Some b /\
    (N.of_nat j < Batch.instances b)%N /\
    slot (Batch.vertices b) j = quad rotate sprite.
Proof.
  intros Hj Hs.
  destruct (batching_ok rotate p sprites) as [Hkeys Hget].
  destruct (JsMap.get _ k) as [bs|] eqn:Hk; cbn [default].
  - by apply (slot_of_batches rotate k (with_texture k sprites)); auto.
  - rewrite with_texture_absent in Hs; [done|].
    rewrite <- elem_of_distinct, <- Hkeys. by apply get_None.
Qed.

(** X3 at the second sprite of the first texture of a frame of three. *)
Lemma slot_holds_sprite_witness :
  exists b,
    default []
      (JsMap.get
         (batchMap
            (batching Examples.no_rotate pipeline
               [Examples.on_first; Examples.on_second; Examples.on_first]))
         1%positive) !! 0%nat = Some b /\
    (N.of_nat 1 < Batch.instances b)%N /\
    slot (Batch.vertices b) 1 = quad Examples.no_rotate Examples.on_first.
Proof.
  apply (slot_holds_sprite Examples.no_rotate pipeline
           [Examples.on_first; Examples.on_second; Examples.on_first]
           1%positive 0 1 Examples.on_first).
  - unfold MAX_SPRITES_PER_BATCH. lia.
  - reflexivity.
Defined.

(** X4.  Every batch that is drawn counts between 1 and
    [MAX_SPRITES_PER_BATCH] sprites and has an array of the full length;
    its draw call reads no index beyond the index buffer, and every index
    it reads names a vertex that lies within the written slots of the
    batch. *)
Theorem draw_calls_in_bounds {number : JsNumber}
    (rotate : Vec2 -> Vec2 -> num -> Vec2)
    (p : Pipeline) (sprites : list Sprite.t) :
  Forall (fun b =>
            (1 <= Batch.instances b <= MAX_SPRITES_PER_BATCH)%N /\
            length (Batch.vertices b) = capacity /\
            (N.to_nat (6 * Batch.instances b) <= length indices)%nat /\
            Forall (fun index =>
                      ((N.to_nat index + 1) * N.to_nat FLOATS_PER_VERTEX
                       <= length (written b))%nat)
              (take (N.to_nat (6 * Batch.instances b)) indices))
    (drawn (batchMap (batching rotate p sprites))).
Proof.
  apply Forall_forall. intros b Hb.
  destruct (drawn_batch_ok rotate sprites _ b (batching_ok rotate p sprites) Hb)
    as (k & _ & [_ Hinst Hlen _]).
  split_and!; [apply Hinst|apply Hinst|done| |].
  - rewrite length_indices.
    unfold MAX_SPRITES_PER_BATCH, INDICES_PER_SPRITE in *. lia.
  - rewrite length_written by (done || apply Hinst).
    replace (N.to_nat (6 * Batch.instances b))
      with (6 * N.to_nat (Batch.instances b))%nat by lia.
    eapply Forall_impl; [apply indices_prefix_bound; lia|].
    intros v Hv. cbv beta in Hv.
    change FLOATS_PER_VERTEX with 8%N. change FLOATS_PER_SPRITE with 32%N.
    lia.
Qed.

(** X5.  For the sprite of number [MAX_SPRITES_PER_BATCH * i + j] of a
    texture, the six places 6j to 6j+5 of the index buffer lie within the
    indices that the draw call of batch [i] reads, and the vertex that
    place 6j+t selects in the array of the batch is, at every shader
    location, the vertex of number 0, 1, 2, 2, 3, 0 (for t from 0 to 5)
    of the floats of the sprite: the two triangles top left, top right,
    bottom right and bottom right, bottom left, top left. *)
Theorem triangles_of_a_sprite {number : JsNumber}
    (rotate : Vec2 -> Vec2 -> num -> Vec2)
    (p : Pipeline) (sprites : list Sprite.t) (k : positive)
    (i j : nat) (sprite : Sprite.t) :
  (j < N.to_nat MAX_SPRITES_PER_BATCH)%nat ->
  with_texture k sprites !! (N.to_nat MAX_SPRITES_PER_BATCH * i + j)%nat
    = Some sprite ->
  exists b,
    default [] (JsMap.get (batchMap (batching rotate p sprites)) k) !! i
      = Some b /\
    forall (t : nat) (v location : N),
      quad_pattern !! t = Some v ->
      (6 * j + t < N.to_nat (6 * Batch.instances b))%nat /\
      fetch_indexed (Batch.vertices b) (6 * j + t) location =
      fetch vertexBufferLayout (quad rotate sprite) v location.
Proof.
  intros Hj Hs.
  assert (exists b,
            default [] (JsMap.get (batchMap (batching rotate p sprites)) k)
              !! i = Some b /\
            (N.of_nat j < Batch.instances b)%N /\
            slot (Batch.vertices b) j = quad rotate sprite)
    as (b & Hb & Hjb & Hslot).
  { destruct (batching_ok rotate p sprites) as [Hkeys Hget].
    destruct (JsMap.get _ k) as [bs|] eqn:Hk; cbn [default].
    - by apply (slot_of_batches rotate k (with_texture k sprites)); auto.
    - rewrite with_texture_absent in Hs; [done|].
      rewrite <- elem_of_distinct, <- Hkeys. by apply get_None. }
  exists b. split; [done|]. intros t v location Ht.
  pose proof (lookup_lt_Some _ _ _ Ht) as Htlt. cbn in Htlt.
  split; [lia|].
  assert (Hv : (v < 4)%N).
  { apply list_elem_of_lookup_2 in Ht. unfold quad_pattern in Ht.
    repeat (apply elem_of_cons in Ht as [->|Ht]; [lia|]).
    by apply elem_of_nil in Ht. }
  unfold fetch_indexed. rewrite (lookup_indices j t v) by done.
  replace (N.of_nat j * 4 + v)%N with (4 * N.of_nat j + v)%N by lia.
  rewrite fetch_slot, Hslot; [done|done|].
  pose proof (get_drawn _ _ _ _ Hb) as Hin.
  destruct (drawn_batch_ok rotate sprites _ b (batching_ok rotate p sprites) Hin)
    as (k' & _ & [_ Hinst Hlen _]).
  rewrite Hlen. unfold capacity. change FLOATS_PER_SPRITE with 32%N.
  unfold MAX_SPRITES_PER_BATCH in *. lia.
Qed.

(** X5 at the second sprite of the first texture of a frame of three. *)
Lemma triangles_of_a_sprite_witness :
  exists b,
    default []
      (JsMap.get
         (batchMap
            (batching Examples.no_rotate pipeline
               [Examples.on_first; Examples.on_second; Examples.on_first]))
         1%positive) !! 0%nat = Some b /\
    forall (t : nat) (v location : N),
      quad_pattern !! t = Some v ->
      (6 * 1 + t < N.to_nat (6 * Batch.instances b))%nat /\
      fetch_indexed (Batch.vertices b) (6 * 1 + t) location =
      fetch vertexBufferLayout
        (quad Examples.no_rotate Examples.on_first) v location.
Proof.
  apply (triangles_of_a_sprite Examples.no_rotate pipeline
           [Examples.on_first; Examples.on_second; Examples.on_first]
           1%positive 0 1 Examples.on_first).
  - unfold MAX_SPRITES_PER_BATCH. lia.
  - reflexivity.
Defined.

(** X6.  The calls of a frame on the device, the queue, the canvas
    context, the textures and the encoders, in order: for each texture of
    the frame that the cache does not hold, in the order of first
    occurrence, [createView] on the texture and [createBindGroup],
    numbered on from the count of the closure; then [getCurrentTexture],
    [createView] on the texture it returns, [createCommandEncoder] and
    [beginRenderPass]; then for the batch of number [i] in drawing order,
    on the buffer [buffer_for pool count i] (the buffers of the pool from
    the last one backwards, then new ones): [createBuffer] (a call of
    [vertexBufferAlloc]) when the pool is used up, [writeBuffer] with the array of the batch, [setPipeline],
    [setIndexBuffer], [setVertexBuffer], the two [setBindGroup], and
    [drawIndexed] with six indices per sprite; then the end of the pass,
    [finish] and one [submit].  Every batch finds its bind group. *)
Theorem frame_calls {number : JsNumber}
    (rotate : Vec2 -> Vec2 -> num -> Vec2)
    (p : Pipeline) (sprites : list Sprite.t) :
  let B := batching rotate p sprites in
  let batches := drawn (batchMap B) in
  (renderPass rotate p sprites).2 =
    bind_group_calls (bindGroupCount p)
      (new_textures (textureBindGroups p) (map texture_of sprites)) ++
    [ getCurrentTexture; createView CurrentTexture;
      createCommandEncoder; beginRenderPass ] ++
    concat (imap (batch_calls (groups B) (vertexBuffers p)
                    (vertexBufferCount p)) batches) ++
    [endPass; finish; submit] /\
  Forall (fun b => is_Some (groups B !! Texture.id (Batch.texture b)))
    batches.
Proof.
  intros B batches.
  assert (Hreg : forall b, b ∈ batches ->
            is_Some (groups B !! Texture.id (Batch.texture b))).
  { intros b Hb. by apply drawn_registered. }
  split; [|by apply Forall_forall].
  unfold renderPass. fold B. unfold draw. rewrite for_of_concat.
  fold (drawn (batchMap B)). fold batches.
  match goal with |- context [for_of _ _ ?d0] =>
    destruct (draw_batches_calls (groups B) batches d0 Hreg)
      as (d & Hrun & Henc)
  end.
  rewrite Hrun. cbn [snd]. rewrite Henc.
  cbn [pool bufferCount encoded].
  destruct (fold_created_calls rotate sprites
              {| groups := textureBindGroups p;
                 groupCount := bindGroupCount p;
                 batchMap := [];
                 created := [] |}) as (Hc & _).
  cbn zeta in Hc. cbn [groups groupCount created app] in Hc.
  fold (batching rotate p sprites) in Hc. fold B in Hc. rewrite Hc.
  by rewrite <- !app_assoc.
Qed.

(** X7.  After a frame the cache of bind groups holds what it held
    before and, for the texture of number [i] among the textures of the
    frame that it did not hold (in the order of first occurrence), the
    bind group of number [bindGroupCount + i]; the count has advanced
    by the number of these textures. *)
Theorem cache_after_frame {number : JsNumber}
    (rotate : Vec2 -> Vec2 -> num -> Vec2)
    (p : Pipeline) (sprites : list Sprite.t) :
  let p' := (renderPass rotate p sprites).1.2 in
  let new := new_textures (textureBindGroups p) (map texture_of sprites) in
  bindGroupCount p' = (bindGroupCount p + length new)%nat /\
  forall k g,
    textureBindGroups p' !! k = Some g <->
    textureBindGroups p !! k = Some g \/
    exists i, new !! i = Some k /\
              g = TextureBindGroup (bindGroupCount p + i) k.
Proof.
  cbv zeta.
  destruct (renderPass_spec rotate p sprites) as (log & -> & _).
  cbn [fst snd textureBindGroups bindGroupCount].
  destruct (fold_created_calls rotate sprites
              {| groups := textureBindGroups p;
                 groupCount := bindGroupCount p;
                 batchMap := [];
                 created := [] |}) as (_ & Hn & Hg).
  cbn zeta in Hn, Hg. cbn [groups groupCount] in Hn, Hg.
  split; [exact Hn|exact Hg].
Qed.

(** X8.  In every state that the closure can reach, the pool holds each
    buffer created so far once, and the batches of a frame are bound to
    vertex buffers that differ from one another: no batch overwrites the
    buffer of another batch of the same frame. *)
Theorem no_buffer_shared {number : JsNumber}
    (rotate : Vec2 -> Vec2 -> num -> Vec2)
    (p : Pipeline) (sprites : list Sprite.t) :
  reachable rotate p ->
  vertexBuffers p ≡ₚ seq 0 (vertexBufferCount p) /\
  NoDup (bound_vertex_buffers (renderPass rotate p sprites).2).
Proof.
  intros Hp%reachable_pool. split; [done|].
  destruct (renderPass_spec rotate p sprites)
    as (log & Hr & _ & _ & _ & Hvb & _).
  rewrite Hr. cbn [snd]. rewrite Hvb.
  apply NoDup_taken.
  - rewrite Hp. apply NoDup_seq.
  - intros v Hv. rewrite Hp in Hv. apply elem_of_seq in Hv. lia.
Qed.

(** X8 in the state after a first frame with two textures. *)
Lemma no_buffer_shared_witness :
  let p :=
    (renderPass Examples.no_rotate pipeline
       [Examples.on_first; Examples.on_second]).1.2 in
  vertexBuffers p ≡ₚ seq 0 (vertexBufferCount p) /\
  NoDup (bound_vertex_buffers
           (renderPass Examples.no_rotate p
              [Examples.on_second; Examples.on_first]).2).
Proof.
  apply (no_buffer_shared Examples.no_rotate).
  apply reachable_renderPass, reachable_pipeline.
Defined.

(** X9.  Buffers are reused last in, first out: a frame whose batches
    the pool can serve creates no buffer and leaves the pool with its
    last buffers, as many as there are batches, in reverse order; a
    second frame with the same sprites puts the pool back as it was. *)
Theorem pool_restored_by_second_frame {number : JsNumber}
    (rotate : Vec2 -> Vec2 -> num -> Vec2)
    (p : Pipeline) (sprites : list Sprite.t) :
  (batch_count rotate sprites <= length (vertexBuffers p))%nat ->
  let keep := (length (vertexBuffers p) - batch_count rotate sprites)%nat in
  let p1 := (renderPass rotate p sprites).1.2 in
  let p2 := (renderPass rotate p1 sprites).1.2 in
  vertexBuffers p1 =
    take keep (vertexBuffers p) ++ rev (drop keep (vertexBuffers p)) /\
  vertexBuffers p2 = vertexBuffers p /\
  vertexBufferCount p2 = vertexBufferCount p.
Proof.
  intros Hn keep p1 p2.
  destruct (renderPass_pool_within rotate p sprites Hn) as [H1 Hc1].
  cbv zeta in H1, Hc1. fold keep in H1. fold p1 in H1, Hc1.
  assert (Hlen : length (vertexBuffers p1) = length (vertexBuffers p)).
  { rewrite H1, length_app, length_rev, length_take, length_drop. lia. }
  destruct (renderPass_pool_within rotate p1 sprites) as [H2 Hc2];
    [lia|].
  cbv zeta in H2, Hc2. fold p2 in H2, Hc2. rewrite Hlen in H2.
  fold keep in H2.
  assert (Hk : length (take keep (vertexBuffers p)) = keep).
  { rewrite length_take. unfold keep. lia. }
  split_and!; [done| |congruence].
  rewrite H2, H1.
  rewrite take_app_length', drop_app_length' by done.
  by rewrite rev_involutive, take_drop.
Qed.

(** X9 for the first state of the closure and a frame of one batch. *)
Lemma pool_restored_by_second_frame_witness :
  let keep :=
    (length (vertexBuffers pipeline) -
     batch_count Examples.no_rotate [Examples.on_first])%nat in
  let p1 :=
    (renderPass Examples.no_rotate pipeline [Examples.on_first]).1.2 in
  let p2 := (renderPass Examples.no_rotate p1 [Examples.on_first]).1.2 in
  vertexBuffers p1 =
    take keep (vertexBuffers pipeline) ++
    rev (drop keep (vertexBuffers pipeline)) /\
  vertexBuffers p2 = vertexBuffers pipeline /\
  vertexBufferCount p2 = vertexBufferCount pipeline.
Proof.
  apply (pool_restored_by_second_frame Examples.no_rotate pipeline
           [Examples.on_first]).
  vm_compute. lia.
Defined.

(** X19.  What a frame draws does not depend on the frames before it:
    from any two states that the closure can reach, the same sprites lead
    to the same uploads of vertex data, the same draw calls and the same
    textures bound, in the same order. *)
Theorem frame_draws_independent {number : JsNumber}
    (rotate : Vec2 -> Vec2 -> num -> Vec2)
    (p p' : Pipeline) (sprites : list Sprite.t) :
  reachable rotate p -> reachable rotate p' ->
  uploads (renderPass rotate p sprites).2 =
    uploads (renderPass rotate p' sprites).2 /\
  draw_counts (renderPass rotate p sprites).2 =
    draw_counts (renderPass rotate p' sprites).2 /\
  bound_textures (renderPass rotate p sprites).2 =
    bound_textures (renderPass rotate p' sprites).2.
Proof.
  intros Hp%reachable_cache_ok Hp'%reachable_cache_ok.
  destruct (renderPass_spec rotate p sprites)
    as (log & -> & Hd & Hu & _ & _ & _ & Ht).
  destruct (renderPass_spec rotate p' sprites)
    as (log' & -> & Hd' & Hu' & _ & _ & _ & Ht').
  cbn [snd]. rewrite Hd, Hd', Hu, Hu', (Ht Hp), (Ht' Hp').
  by rewrite (batchMap_independent rotate p p').
Qed.

(** X19 for the first state of the closure and the state after a
    frame. *)
Lemma frame_draws_independent_witness :
  let p' :=
    (renderPass Examples.no_rotate pipeline [Examples.on_second]).1.2 in
  let sprites := [Examples.on_first; Examples.on_second] in
  uploads (renderPass Examples.no_rotate pipeline sprites).2 =
    uploads (renderPass Examples.no_rotate p' sprites).2 /\
  draw_counts (renderPass Examples.no_rotate pipeline sprites).2 =
    draw_counts (renderPass Examples.no_rotate p' sprites).2 /\
  bound_textures (renderPass Examples.no_rotate pipeline sprites).2 =
    bound_textures (renderPass Examples.no_rotate p' sprites).2.
Proof.
  apply (frame_draws_independent Examples.no_rotate).
  - apply reachable_pipeline.
  - apply reachable_renderPass, reachable_pipeline.
Defined.

(** ** Properties of the release-notes tool *)

Section ReleaseNotesProperties.
Import JsString ReleaseNotes ReleaseNotesFacts.

(** X10.  How the script ends.  It throws "Version is required" exactly
  when the command line has no third word or an empty one; it throws
  "Version ... not found in RELEASE_NOTES.md" exactly when the version
  is given and ["## "] followed by the version occurs nowhere in the
  file; in every other case it prints. *)
Theorem release_notes_outcome (argv : list t) (content : t) :
match extract_release_notes argv content with
| Thrown message =>
    (message = lit "Version is required" /\
     (argv !! 2%nat = None \/ argv !! 2%nat = Some [])) \/
    (exists version,
       argv !! 2%nat = Some version /\ version ≠ [] /\
       message = lit "Version " ++ version ++
                 lit " not found in RELEASE_NOTES.md" /\
       forall k, ~ occurs_at (lit "## " ++ version) content k)
| Logged _ =>
    exists version k,
      argv !! 2%nat = Some version /\ version ≠ [] /\
      occurs_at (lit "## " ++ version) content k
end.
Proof.
destruct (argv !! 2%nat) as [version|] eqn:Hargv.
- destruct (decide (version = [])) as [->|Hne].
  + unfold extract_release_notes. unfold t in *. rewrite Hargv.
    left. split; [done|]. by right.
  + destruct (extract_spec argv content version Hargv Hne)
      as [[-> Hno]|(pre & notes & rest & _ & Hocc & _ & _ & _ & _ & _ & ->)].
    * right. by exists version.
    * by exists version, (length pre).
- unfold extract_release_notes. unfold t in *. rewrite Hargv.
  left. split; [done|]. by left.
Qed.

(** X11.  What is printed for a version that holds no [#]: the file
  splits into what precedes the first occurrence of ["## "] followed by
  the version, the notes, which begin with that occurrence, and the
  rest; no version heading (["## "], digits, dot, digits, dot, digit)
  starts inside the notes after their first place; the rest is empty
  or begins with a version heading; and the output is the notes
  trimmed. *)
Theorem release_notes_section (argv : list t) (content version output : t) :
argv !! 2%nat = Some version ->
35%N ∉ version ->
extract_release_notes argv content = Logged output ->
exists pre notes rest,
  content = pre ++ notes ++ rest /\
  (forall j, (j < length pre)%nat ->
             ~ occurs_at (lit "## " ++ version) content j) /\
  (lit "## " ++ version) `prefix_of` notes /\
  (forall j, (1 <= j < length notes)%nat ->
             ~ header (drop j (notes ++ rest))) /\
  (rest = [] \/ header rest) /\
  output = trim notes.
Proof.
intros Hargv Hv Hout.
assert (Hne : version ≠ []).
{ intros ->. unfold extract_release_notes in Hout. unfold t in *.
  by rewrite Hargv in Hout. }
destruct (extract_spec argv content version Hargv Hne)
  as [[Hthrow _]|(pre & notes & rest & Hc & _ & Hfirst & _ & Hp & Hin &
                  Hrest & Hlog)].
- congruence.
- exists pre, notes, rest. split_and!; [done|done|by apply Hp| | |congruence].
  + intros j Hj Hh%header_here_header. by rewrite Hin in Hh.
  + destruct Hrest as [->|Hh]; [by left|right].
    by apply header_here_header.
Qed.

(** X11 for the first section of a file with two sections. *)
Lemma release_notes_section_witness :
exists pre notes rest,
  sample = pre ++ notes ++ rest /\
  (forall j, (j < length pre)%nat ->
             ~ occurs_at (lit "## " ++ lit "1.2.0") sample j) /\
  (lit "## " ++ lit "1.2.0") `prefix_of` notes /\
  (forall j, (1 <= j < length notes)%nat ->
             ~ header (drop j (notes ++ rest))) /\
  (rest = [] \/ header rest) /\
  lit "## 1.2.0
added" = trim notes.
Proof.
apply (release_notes_section [lit "bun"; lit "tool"; lit "1.2.0"]).
- reflexivity.
- apply (bool_decide_unpack _). vm_compute. exact I.
- vm_compute. reflexivity.
Defined.

(** X12.  Whatever is printed begins with [##], ends with a code unit
  that is not white space, and is left as it is by [trim]. *)
Theorem release_notes_trimmed (argv : list t) (content output : t) :
extract_release_notes argv content = Logged output ->
lit "##" `prefix_of` output /\
(exists c, last output = Some c /\ is_white_space c = false) /\
trim output = output.
Proof.
intros Hout.
pose proof (logged_has_version argv content) as Haux.
rewrite Hout in Haux. destruct Haux as (version & Hargv & Hne).
destruct (extract_spec argv content version Hargv Hne)
  as [[Hthrow _]|(pre & notes & rest & _ & _ & _ & [x Hx] & _ & _ & _ &
                  Hlog)]; [congruence|].
assert (output = trim notes) as -> by congruence.
change (lit "##") with [35; 35]%N in *. cbn [app] in Hx. subst notes.
assert (Htrim : trim (35 :: 35 :: x)%N = (35 :: 35 :: trimEnd x)%N).
{ unfold trim. rewrite trimStart_keep by done.
  by rewrite !trimEnd_cons by done. }
split_and!.
- rewrite Htrim. by exists (trimEnd x).
- unfold trim. rewrite trimStart_keep by done.
  destruct (trimEnd_last (35 :: 35 :: x)%N) as [Hnil|(r & c & Hr & Hc)].
  + by rewrite !trimEnd_cons in Hnil by done.
  + exists c. by rewrite Hr, last_snoc.
- apply trim_idemp.
Qed.

(** X12 for the first section of a file with two sections. *)
Lemma release_notes_trimmed_witness :
lit "##" `prefix_of` lit "## 1.2.0
added" /\
(exists c, last (lit "## 1.2.0
added") = Some c /\ is_white_space c = false) /\
trim (lit "## 1.2.0
added") = lit "## 1.2.0
added".
Proof.
apply (release_notes_trimmed [lit "bun"; lit "tool"; lit "1.2.0"] sample).
vm_compute. reflexivity.
Defined.

(** X13.  The output can be fed back: for a version that holds no [#]
  and does not end in white space, the script run on what it printed,
  in place of the file, prints the same text again. *)
Theorem release_notes_idempotent
  (argv : list t) (content version output : t) (c : N) :
argv !! 2%nat = Some version ->
35%N ∉ version ->
last version = Some c -> is_white_space c = false ->
extract_release_notes argv content = Logged output ->
extract_release_notes argv output = Logged output.
Proof.
intros Hargv Hv Hlast Hc Hout.
assert (Hne : version ≠ []) by (by intros ->).
destruct (extract_spec argv content version Hargv Hne)
  as [[Hthrow _]|(pre & notes & rest & _ & _ & _ & _ & Hp & Hin & _ &
                  Hlog)]; [congruence|].
assert (output = trim notes) as Ho by congruence.
destruct (Hp Hv) as [x Hx].
(* the output keeps the heading *)
assert (Hpiece : exists a, lit "## " ++ version = (35%N :: a) ++ [c]).
{ destruct (last_Some version c) as [Hl _].
  destruct (Hl Hlast) as [v' ->].
  change (lit "## ") with [35; 35; 32]%N. cbn [app].
  by exists (35%N :: 32%N :: v'). }
destruct Hpiece as [a Ha].
assert (Hkeep : output = (lit "## " ++ version) ++ trimEnd x).
{ rewrite Ho, Hx, Ha. unfold trim. cbn [app].
  rewrite trimStart_keep by done.
  rewrite <- app_assoc. cbn [app].
  change (35%N :: a ++ c :: x) with ((35%N :: a) ++ c :: x).
  rewrite trimEnd_app by done. by rewrite <- app_assoc. }
destruct (trimEnd_prefix x) as (ws & Hws & _).
assert (Hnotes : notes = output ++ ws).
{ rewrite Hkeep, Hx, <- !app_assoc. by rewrite <- Hws. }
(* the second run *)
destruct (extract_spec argv output version Hargv Hne)
  as [[_ Hno]|(pre' & notes' & rest' & Hsplit & _ & Hfirst & Htwo & _ & _ &
               Hrest & Hlog')].
{ exfalso. apply (Hno 0%nat). split; [lia|].
  rewrite drop_0, Hkeep. by eexists. }
assert (pre' = []) as ->.
{ destruct pre' as [|d pre']; [done|]. exfalso.
  apply (Hfirst 0%nat); [cbn; lia|]. split; [lia|].
  rewrite drop_0. rewrite Hkeep at 1. by eexists. }
cbn [app] in Hsplit.
assert (rest' = []) as ->.
{ destruct Hrest as [->|Hh]; [done|]. exfalso.
  assert (Hlen : (length output = length notes' + length rest')%nat)
    by (by rewrite Hsplit, length_app).
  assert (Hr : rest' ≠ []) by (by intros ->).
  assert (Hl : (0 < length rest')%nat) by (destruct rest'; cbn; [done|lia]).
  assert (Hn : (2 <= length notes')%nat).
  { destruct Htwo as [y ->]. rewrite length_app. cbn. lia. }
  assert (Hd : drop (length notes') (notes ++ rest) = rest' ++ ws ++ rest).
  { rewrite Hnotes, Hsplit, <- !app_assoc. by rewrite drop_app_length. }
  specialize (Hin (length notes')). rewrite Hd in Hin.
  rewrite header_here_app in Hin by done.
  assert (true = false); [|done]. apply Hin.
  rewrite Hnotes, length_app. lia. }
rewrite app_nil_r in Hsplit. subst notes'.
rewrite Hlog'. f_equal. rewrite Ho. apply trim_idemp.
Qed.

(** X13 for the first section of a file with two sections. *)
Lemma release_notes_idempotent_witness :
extract_release_notes [lit "bun"; lit "tool"; lit "1.2.0"]
  (lit "## 1.2.0
added") =
Logged (lit "## 1.2.0
added").
Proof.
apply (release_notes_idempotent [lit "bun"; lit "tool"; lit "1.2.0"]
         sample (lit "1.2.0") _ 48%N).
- reflexivity.
- apply (bool_decide_unpack _). vm_compute. exact I.
- reflexivity.
- reflexivity.
- vm_compute. reflexivity.
Defined.

(** X14.  The search for the next heading returns -1 when no place of
  the text reads ["## "], digits, a dot, digits, a dot and a digit, and
  otherwise the first place that does. *)
Theorem search_finds_first_heading (s : t) :
(search s = (-1)%Z /\
 forall k, (k <= length s)%nat -> ~ header (drop k s)) \/
(exists k, search s = Z.of_nat k /\ (k <= length s)%nat /\
           header (drop k s) /\
           forall j, (j < k)%nat -> ~ header (drop j s)).
Proof.
unfold search.
destruct (first_position_spec header_here s)
  as [[-> Hno]|(Hr & Hat & Hno)].
- left. split; [done|]. intros k Hk Hh%header_here_header.
  by rewrite Hno in Hh.
- right. exists (Z.to_nat (first_position header_here s)).
  split_and!; [lia|lia|by apply header_here_header|].
  intros j Hj Hh%header_here_header. by rewrite Hno in Hh.
Qed.

(** X15.  The script looks for a heading that begins with the version,
  not for the heading of the version: when the first heading that
  begins with the words asked for is the heading of a longer version,
  the script prints the notes of that version. *)
Theorem heading_prefix_is_enough
  (argv argv' : list t) (content version version' : t) (k : nat) :
argv !! 2%nat = Some version ->
argv' !! 2%nat = Some version' ->
version ≠ [] ->
version `prefix_of` version' ->
occurs_at (lit "## " ++ version') content k ->
(forall j, (j < k)%nat -> ~ occurs_at (lit "## " ++ version) content j) ->
extract_release_notes argv content = extract_release_notes argv' content.
Proof.
intros Hargv Hargv' Hne [more ->] [Hk Hocc] Hfirst.
assert (Hne' : version ++ more ≠ []) by (by destruct version).
assert (Hi : indexOf content (lit "## " ++ version) = Z.of_nat k).
{ apply first_position_unique; [done| |].
  - apply startsWith_prefix. destruct Hocc as [y Hy]. rewrite Hy.
    exists (more ++ y). by rewrite <- !app_assoc.
  - intros j Hj. destruct (startsWith _ _) eqn:Hs; [|done].
    exfalso. apply (Hfirst j Hj). split; [lia|].
    by apply startsWith_prefix. }
assert (Hi' : indexOf content (lit "## " ++ version ++ more)
              = Z.of_nat k).
{ apply first_position_unique; [done| |].
  - by apply startsWith_prefix.
  - intros j Hj. destruct (startsWith _ _) eqn:Hs; [|done].
    exfalso. apply (Hfirst j Hj). split; [lia|].
    apply startsWith_prefix in Hs as [y Hy]. rewrite Hy.
    exists (more ++ y). by rewrite <- !app_assoc. }
assert (Hmatch : forall (v : t) (A : Type) (a b : A), v ≠ [] ->
          match v with [] => a | _ :: _ => b end = b)
  by (by intros [|]).
unfold extract_release_notes. unfold t in *.
rewrite Hargv, Hargv', !Hmatch, Hi, Hi' by done.
destruct (Z.eqb_spec (Z.of_nat k) (-1)) as [|_]; [lia|done].
Qed.

(** X15: asked for [1.2], the script prints the notes of [1.2.0]. *)
Lemma heading_prefix_is_enough_witness :
extract_release_notes [lit "bun"; lit "tool"; lit "1.2"] sample =
extract_release_notes [lit "bun"; lit "tool"; lit "1.2.0"] sample.
Proof.
apply (heading_prefix_is_enough _ _ sample (lit "1.2") (lit "1.2.0") 8).
- reflexivity.
- reflexivity.
- discriminate.
- by exists (lit ".0").
- split; [vm_compute; lia|]. apply startsWith_prefix. reflexivity.
- intros j Hj [_ Hp%startsWith_prefix].
  do 8 (destruct j as [|j]; [vm_compute in Hp; discriminate|]). lia.
Defined.
End ReleaseNotesProperties.

(** ** Properties of the camera *)

Section CameraProperties.
Context {number : JsNumber}.
Variable neg : num -> num.
Variable Matrix4 : Type.
Variable orthographic : num -> num -> num -> num -> num -> num -> Matrix4.
Variable lookAt : Vector3.t -> Vector3.t -> Vector3.t -> Matrix4.
Variable multiply : Matrix4 -> Matrix4 -> Matrix4.
Variable translate : Matrix4 -> Vector4.t -> Matrix4.
Variable scale : Matrix4 -> Vector3.t -> Matrix4.
Variable transform : Vector4.t -> Matrix4 -> Vector4.t.
Variable elements : Matrix4 -> list num.
Variables width height : num.

Local Abbreviation update :=
(Camera.update neg Matrix4 orthographic lookAt multiply translate scale transform
   elements width height).
Local Abbreviation call :=
(Camera.call neg Matrix4 orthographic lookAt multiply translate scale transform
   elements width height).
Local Abbreviation calls_from :=
(Camera.calls_from neg Matrix4 orthographic lookAt multiply translate scale
   transform elements width height).
Local Abbreviation createCamera :=
(Camera.createCamera neg Matrix4 orthographic lookAt multiply translate scale
   transform elements width height).
Local Abbreviation run :=
(Camera.run neg Matrix4 orthographic lookAt multiply translate scale transform
   elements width height).

Lemma calls_from_snoc start fs f :
calls_from start (fs ++ [f]) =
((call (calls_from start fs).1 f).1,
 (calls_from start fs).2 ++ (call (calls_from start fs).1 f).2).
Proof.
unfold Camera.calls_from. rewrite fold_left_app. cbn [fold_left].
by destruct (call _ f).
Qed.

Lemma call_update c f : (call c f).2 = update (call c f).1.
Proof. by destruct f. Qed.




(** X17.  The calls a camera makes on the device: the two buffers are
  allocated, with room for 64 and for 16 floats, and then
  [createCamera] and every call of [observe] or [zoom] write the
  matrix buffer and then the transform buffer, each at offset 0, the
  transform with four floats. *)
Theorem camera_writes_in_pairs (fs : list CameraCall) :
let log := (run fs).2 in
take 2 log =
  [ allocateUniform projectionViewMatrixUniformBuffer 64;
    allocateUniform transformUniformBuffer 16 ] /\
map Camera.target (drop 2 log) =
  concat (replicate (1 + length fs)
            [projectionViewMatrixUniformBuffer; transformUniformBuffer]) /\
Forall (fun c =>
          exists buffer data,
            c = writeUniform buffer 0 data /\
            (buffer = transformUniformBuffer -> length data = 4%nat))
  (drop 2 log).
Proof.
cbv zeta. induction fs as [|f fs (Ha & Ht & Hw)] using rev_ind.
- split_and!; [done|done|]. cbn.
  repeat constructor; eexists _, _; (split; [done|]); done.
- unfold Camera.run in *. rewrite calls_from_snoc. cbn [snd].
  set (log := (calls_from createCamera fs).2) in *.
  assert (Hlen : (2 <= length log)%nat).
  { apply (f_equal length) in Ha. rewrite length_take in Ha.
    cbn [length] in Ha. lia. }
  rewrite take_app_le, drop_app_le by done.
  rewrite length_app, Nat.add_1_r. cbn [length].
  split_and!; [done| |].
  + rewrite map_app, Ht. rewrite call_update.
    change (1 + S (length fs))%nat with (S (1 + length fs)).
    rewrite (replicate_S_end (1 + length fs)), concat_app.
    cbn [concat]. by rewrite app_nil_r.
  + apply Forall_app. split; [done|]. rewrite call_update.
    repeat constructor; eexists _, _; (split; [done|]); done.
Qed.
End CameraProperties.

(** ** The earlier and the current version *)

(** The texture coordinates of a sprite that shows its whole texture. *)
Lemma uv_whole_texture (sprite : @Sprite.t Binary64.binary64) :
  Binary64.finite_pos (Texture.width (Sprite.texture sprite)) ->
  Binary64.finite_pos (Texture.height (Sprite.texture sprite)) ->
  Sprite.frame sprite =
    {| Rect.x := zero; Rect.y := zero;
       Rect.width := Texture.width (Sprite.texture sprite);
       Rect.height := Texture.height (Sprite.texture sprite) |} ->
  uv sprite = ((zero, one), (zero, one)).
Proof.
  intros (mw & ew & Hw) (mh & eh & Hh) Hframe.
  unfold uv. rewrite Hframe.
  cbn [Rect.x Rect.y Rect.width Rect.height fst snd]. rewrite Hw, Hh.
  cbn [div add zero Binary64.binary64 SFadd Binary64.b64_zero].
  rewrite !SFdiv_diag. reflexivity.
Qed.

(** X18.  The current version of the vertex writer extends the earlier
    one: when each version has stored, in a batch of its own, a sprite that
    is not rotated, shows its whole texture (of a finite, positive size)
    and is white, every vertex of the sprite has in both versions the same
    position and the same texture coordinates, read from the array of the
    batch through the layout of each version, and the color of the current
    version is the color of the earlier one followed by the alpha of the
    sprite. *)
Theorem versions_agree
    (rotate : Vec2 -> Vec2 -> num -> Vec2)
    (b b' : @Batch.t Binary64.binary64)
    (sprite : @Sprite.t Binary64.binary64) (n : N) :
  (n < 4)%N ->
  (Batch.instances b < MAX_SPRITES_PER_BATCH)%N ->
  length (Batch.vertices b) = capacity ->
  (Batch.instances b' < MAX_SPRITES_PER_BATCH)%N ->
  length (Batch.vertices b') = Previous.capacity ->
  truthy (Sprite.rotation sprite) = false ->
  Binary64.finite_pos (Texture.width (Sprite.texture sprite)) ->
  Binary64.finite_pos (Texture.height (Sprite.texture sprite)) ->
  Sprite.frame sprite =
    {| Rect.x := zero; Rect.y := zero;
       Rect.width := Texture.width (Sprite.texture sprite);
       Rect.height := Texture.height (Sprite.texture sprite) |} ->
  Sprite.color sprite = (one, one, one) ->
  let stored := Batch.vertices (write_sprite rotate b sprite) in
  let stored' := Batch.vertices (Previous.write_sprite b' sprite) in
  let v := (4 * Batch.instances b + n)%N in
  let v' := (4 * Batch.instances b' + n)%N in
  fetch vertexBufferLayout stored v 0 =
    fetch Previous.vertexBufferLayout stored' v' 0 /\
  is_Some (fetch vertexBufferLayout stored v 0) /\
  fetch vertexBufferLayout stored v 1 =
    fetch Previous.vertexBufferLayout stored' v' 1 /\
  exists color,
    fetch Previous.vertexBufferLayout stored' v' 2 = Some color /\
    fetch vertexBufferLayout stored v 2 =
      Some (color ++ [fround (Sprite.alpha sprite)]).
Proof.
  intros Hn Hinst Hlen Hinst' Hlen' Hrot Hw Hh Hframe Hcolor. cbv zeta.
  pose proof (uv_whole_texture sprite Hw Hh Hframe) as Huv.
  destruct (previous_write_sprite_slot b' sprite Hinst' Hlen')
    as [Hslot' Hlen2].
  assert (Hf' : forall location,
            fetch Previous.vertexBufferLayout
              (Batch.vertices (Previous.write_sprite b' sprite))
              (4 * Batch.instances b' + n) location =
            fetch Previous.vertexBufferLayout (Previous.quad sprite)
              n location).
  { intros location.
    replace (4 * Batch.instances b' + n)%N
      with (4 * N.of_nat (N.to_nat (Batch.instances b')) + n)%N by lia.
    rewrite previous_fetch_slot, Hslot'; [done|done|].
    rewrite Hlen2. unfold Previous.capacity.
    change Previous.FLOATS_PER_SPRITE with 28%N.
    unfold MAX_SPRITES_PER_BATCH in *. lia. }
  rewrite !Hf'.
  rewrite !(fun location =>
              fetch_stored rotate b sprite n location Hinst Hlen Hn).
  unfold quad, Previous.quad, vertex_writes, Previous.vertex_writes, corners.
  rewrite Hrot, Huv, Hcolor. cbv zeta.
  assert (n = 0 \/ n = 1 \/ n = 2 \/ n = 3)%N as [-> | [-> | [-> | ->]]] by lia.
  all: split_and!; [reflexivity|by eexists|reflexivity|].
  all: eexists; split; reflexivity.
Qed.

(** X18 at the third vertex of a sprite that shows the whole of a texture
    of 64 by 32 pixels, stored in the second slot of a batch of the
    current version and in the first slot of a batch of the earlier
    one. *)
Lemma versions_agree_witness :
  let sprite := Examples.sprite_at 1 1 3 2 Binary64.b64_zero in
  let stored :=
    Batch.vertices
      (write_sprite Examples.no_rotate
         (write_sprite Examples.no_rotate
            (new_batch (Examples.atlas 1)) Examples.on_first)
         sprite) in
  let stored' :=
    Batch.vertices
      (Previous.write_sprite
         {| Batch.instances := 0;
            Batch.vertices := Previous.new_vertices;
            Batch.texture := Examples.atlas 1 |}
         sprite) in
  fetch vertexBufferLayout stored (4 * 1 + 2) 0 =
    fetch Previous.vertexBufferLayout stored' (4 * 0 + 2) 0 /\
  is_Some (fetch vertexBufferLayout stored (4 * 1 + 2) 0) /\
  fetch vertexBufferLayout stored (4 * 1 + 2) 1 =
    fetch Previous.vertexBufferLayout stored' (4 * 0 + 2) 1 /\
  exists color,
    fetch Previous.vertexBufferLayout stored' (4 * 0 + 2) 2 = Some color /\
    fetch vertexBufferLayout stored (4 * 1 + 2) 2 =
      Some (color ++ [fround (Sprite.alpha sprite)]).
Proof.
  refine (versions_agree Examples.no_rotate
            (write_sprite Examples.no_rotate
               (new_batch (Examples.atlas 1)) Examples.on_first)
            {| Batch.instances := 0;
               Batch.vertices := Previous.new_vertices;
               Batch.texture := Examples.atlas 1 |}
            (Examples.sprite_at 1 1 3 2 Binary64.b64_zero) 2
            _ _ _ _ _ _ _ _ _ _).
  - reflexivity.
  - vm_compute. reflexivity.
  - rewrite length_write_sprite. apply length_new_batch.
  - reflexivity.
  - apply length_replicate.
  - reflexivity.
  - eexists _, _. reflexivity.
  - eexists _, _. reflexivity.
  - reflexivity.
  - reflexivity.
Defined.
